(** * Sentrial: admission gate, MFA manager and login routes

    A shallow embedding of the authenticating reverse proxy:
    - [Speakeasy]: the one-time-password engine the MFA manager calls;
    - [MFA]: the MFAManager class (pending setups, user secrets, expiry
      timers) as a state-and-exception monad with an effect trace;
    - [Auth]: the POST /login and POST /mfa-setup routes;
    - [Gate]: the middleware chain of the Express application, the
      public-path configuration and the WebSocket upgrade listener. *)

From Stdlib Require Import ZArith Lia Ascii String List Bool.
From stdpp Require Import gmap strings list fin_maps.

Local Open Scope string_scope.
Local Open Scope Z_scope.
Local Open Scope list_scope.

(** ** JavaScript values the routes see *)

(** A call either returns or throws. *)
Inductive Js (A : Type) : Type :=
| Ret (a : A)
| Throw (e : string).
Arguments Ret {A} a.
Arguments Throw {A} e.

(** [s.startsWith(p)] *)
Definition startsWith (s p : string) : bool := String.prefix p s.

(** [s.includes(p)] *)
Fixpoint includes (s p : string) : bool :=
  String.prefix p s ||
  match s with
  | EmptyString => false
  | String _ s' => includes s' p
  end.

(** Truthiness of a string-valued property that may be undefined. *)
Definition truthy (o : option string) : bool :=
  match o with
  | Some s => negb (String.eqb s EmptyString)
  | None => false
  end.

Definition is_digit (c : ascii) : bool :=
  let n := Z.of_nat (nat_of_ascii c) in (48 <=? n) && (n <=? 57).

(** [token.replace(/\D/g, '')]: every character that is not an ASCII
    digit is dropped.  A string is its UTF-8 bytes; the bytes of a
    non-ASCII character are all above 127, so none of them is kept. *)
Fixpoint strip_non_digits (s : string) : string :=
  match s with
  | EmptyString => EmptyString
  | String c s' =>
      if is_digit c then String c (strip_non_digits s') else strip_non_digits s'
  end.

(** ** The one-time-password engine *)

Module Speakeasy.

(** The speakeasy package is a dependency; its text is not part of the
    sources.  What it computes is fixed by section 4.1 of the
    specification: the RFC 6238 code, HMAC-SHA1 over the step counter
    keyed by the base32-decoded secret, truncated to six decimal digits
    with leading zeros; verification recomputes the code for the steps
    [step - window .. step + window] and accepts when one of them equals
    the candidate.  SHA-1 and HMAC are written out after FIPS 180-4 and
    RFC 2104. *)

Definition w32 (x : Z) : Z := x mod 2 ^ 32.

Definition rotl (n x : Z) : Z :=
  w32 (Z.lor (Z.shiftl x n) (Z.shiftr x (32 - n))).

Definition add32 (x y : Z) : Z := w32 (x + y).

Definition not32 (x : Z) : Z := Z.lxor x (2 ^ 32 - 1).

(** Big-endian bytes of [x], [n] of them. *)
Fixpoint be_bytes (n : nat) (x : Z) : list Z :=
  match n with
  | O => []
  | S n' => (Z.shiftr x (8 * Z.of_nat n')) mod 256 :: be_bytes n' x
  end.

Definition be_word (b0 b1 b2 b3 : Z) : Z :=
  Z.lor (Z.shiftl b0 24) (Z.lor (Z.shiftl b1 16) (Z.lor (Z.shiftl b2 8) b3)).

Fixpoint words_of_bytes (bs : list Z) : list Z :=
  match bs with
  | b0 :: b1 :: b2 :: b3 :: rest => be_word b0 b1 b2 b3 :: words_of_bytes rest
  | _ => []
  end.

(** SHA-1 padding: a one bit, zeros up to 56 modulo 64, the bit length on
    eight bytes. *)
Definition sha1_pad (msg : list Z) : list Z :=
  let len := Z.of_nat (List.length msg) in
  let zeros := Z.to_nat ((55 - len) mod 64) in
  msg ++ [128] ++ repeat 0 zeros ++ be_bytes 8 (8 * len).

Fixpoint chunks (n : nat) (fuel : nat) (l : list Z) : list (list Z) :=
  match fuel with
  | O => []
  | S fuel' =>
      match l with
      | [] => []
      | _ => take n l :: chunks n fuel' (drop n l)
      end
  end.

Definition sha1_f (t : Z) (b c d : Z) : Z :=
  if t <? 20 then Z.lor (Z.land b c) (Z.land (not32 b) d)
  else if t <? 40 then Z.lxor b (Z.lxor c d)
  else if t <? 60 then Z.lor (Z.land b c) (Z.lor (Z.land b d) (Z.land c d))
  else Z.lxor b (Z.lxor c d).

Definition sha1_k (t : Z) : Z :=
  if t <? 20 then 0x5A827999
  else if t <? 40 then 0x6ED9EBA1
  else if t <? 60 then 0x8F1BBCDC
  else 0xCA62C1D6.

Record sha1_state := Sha1State { ha : Z; hb : Z; hc : Z; hd : Z; he : Z }.

(** The eighty rounds over a sliding window [ws] of sixteen schedule
    words, the oldest first. *)
Fixpoint sha1_rounds (n : nat) (t : Z) (ws : list Z) (s : sha1_state) : sha1_state :=
  match n with
  | O => s
  | S n' =>
      let w := nth 0 ws 0 in
      let tmp :=
        add32 (add32 (add32 (add32 (rotl 5 (ha s)) (sha1_f t (hb s) (hc s) (hd s)))
                            (he s)) w) (sha1_k t) in
      let wnext :=
        rotl 1 (Z.lxor (nth 13 ws 0) (Z.lxor (nth 8 ws 0) (Z.lxor (nth 2 ws 0) w))) in
      sha1_rounds n' (t + 1) (tl ws ++ [wnext])
        (Sha1State tmp (ha s) (rotl 30 (hb s)) (hc s) (hd s))
  end.

Definition sha1_block (s : sha1_state) (block : list Z) : sha1_state :=
  let r := sha1_rounds 80 0 (words_of_bytes block) s in
  Sha1State (add32 (ha s) (ha r)) (add32 (hb s) (hb r)) (add32 (hc s) (hc r))
            (add32 (hd s) (hd r)) (add32 (he s) (he r)).

Definition sha1_init : sha1_state :=
  Sha1State 0x67452301 0xEFCDAB89 0x98BADCFE 0x10325476 0xC3D2E1F0.

Definition sha1 (msg : list Z) : list Z :=
  let padded := sha1_pad msg in
  let s := fold_left sha1_block (chunks 64 (List.length padded) padded) sha1_init in
  be_bytes 4 (ha s) ++ be_bytes 4 (hb s) ++ be_bytes 4 (hc s)
    ++ be_bytes 4 (hd s) ++ be_bytes 4 (he s).

(** HMAC (RFC 2104) with SHA-1, block size 64. *)
Definition hmac_sha1 (key msg : list Z) : list Z :=
  let k0 := if (64 <? Z.of_nat (List.length key)) then sha1 key else key in
  let k := k0 ++ repeat 0 (64 - List.length k0)%nat in
  let ipad := List.map (Z.lxor 0x36) k in
  let opad := List.map (Z.lxor 0x5c) k in
  sha1 (opad ++ sha1 (ipad ++ msg)).

(** Six decimal digits, zero-padded. *)
Definition digit_char (d : Z) : ascii := ascii_of_nat (Z.to_nat (48 + d mod 10)).

Definition digits6 (n : Z) : string :=
  String (digit_char (n / 100000))
    (String (digit_char (n / 10000))
       (String (digit_char (n / 1000))
          (String (digit_char (n / 100))
             (String (digit_char (n / 10))
                (String (digit_char n) EmptyString))))).

(** Modelled from the spec: the one-time code of a counter, which
    speakeasy computes and the sources only call.  RFC 4226: dynamic
    truncation of the MAC of the counter, modulo 10^6, on six digits.
    The counter is sent as eight big-endian bytes. *)
Definition hotp (key : list Z) (counter : Z) : string :=
  let h := hmac_sha1 key (be_bytes 8 (counter mod 2 ^ 64)) in
  let o := Z.to_nat (Z.land (nth 19 h 0) 15) in
  let bin :=
    be_word (Z.land (nth o h 0) 127) (nth (o + 1) h 0) (nth (o + 2) h 0) (nth (o + 3) h 0) in
  digits6 (bin mod 1000000).

(** Modelled from the spec: the decoding of a base32 secret, done
    inside speakeasy.  RFC 4648, the alphabet speakeasy.generateSecret
    emits (upper case, no padding); [None] on any other character. *)
Definition base32_val (c : ascii) : option Z :=
  let n := Z.of_nat (nat_of_ascii c) in
  if (65 <=? n) && (n <=? 90) then Some (n - 65)
  else if (50 <=? n) && (n <=? 55) then Some (n - 24)
  else None.

(** [acc] holds [bits] pending bits; a byte is emitted whenever eight are
    available, and the bits left at the end are dropped. *)
Fixpoint base32_go (s : string) (acc bits : Z) : option (list Z) :=
  match s with
  | EmptyString => Some []
  | String c s' =>
      match base32_val c with
      | None => None
      | Some v =>
          let acc' := acc * 32 + v in
          let bits' := bits + 5 in
          if 8 <=? bits' then
            cons (Z.shiftr acc' (bits' - 8)) <$>
              base32_go s' (acc' mod 2 ^ (bits' - 8)) (bits' - 8)
          else base32_go s' acc' bits'
      end
  end.

Definition base32_decode (s : string) : option (list Z) := base32_go s 0 0.

(** The time step of a time in seconds, for [step: 30]. *)
Definition counter_of (time : Z) : Z := time / 30.

(** The offsets [-window .. window]. *)
Definition window_offsets (window : Z) : list Z :=
  List.map (fun i => Z.of_nat i - window) (seq 0 (Z.to_nat (2 * window + 1))).

(** Modelled from the spec: [speakeasy.totp({secret, encoding: 'base32',
    step: 30, time})], the code of the step of [time]; the call fails on
    a secret that is not base32. *)
Definition totp (secret : string) (time : Z) : Js string :=
  match base32_decode secret with
  | Some key => Ret (hotp key (counter_of time))
  | None => Throw "Invalid character"
  end.

(** Modelled from the spec: [speakeasy.totp.verify({secret, encoding:
    'base32', token, window, step: 30, time})], true when the token is
    the code of one of the steps [step - window .. step + window]. *)
Definition totp_verify (secret token : string) (window time : Z) : Js bool :=
  match base32_decode secret with
  | Some key =>
      Ret (existsb (fun i => String.eqb (hotp key (counter_of time + i)) token)
                   (window_offsets window))
  | None => Throw "Invalid character"
  end.

End Speakeasy.

(** The bytes of an ASCII text. *)
Definition ascii_bytes (s : string) : list Z :=
  List.map (fun c => Z.of_nat (nat_of_ascii c)) (list_ascii_of_string s).

(** ** The MFA manager *)

Module MFA.

(** A value of [pendingSetups]. *)
Record Setup := mkSetup {
  username : string;
  secret : string;
  timestamp : Z
}.

Inductive Level := Info | Warn | Error | Debug.

(** What an operation does to the outside: log lines, calls into the
    one-time-password engine, the write of the secrets file. *)
Inductive Effect :=
| Log (lvl : Level) (msg : string)
| TotpVerifyCall (secret token : string) (window time : Z)
| TotpCall (secret : string) (time : Z)
| WriteSecretsFile (secrets : list (string * string)).

(** The manager's two maps, together with the two pieces of the runtime
    its code reads and writes: the wall clock behind [Date.now()], in
    milliseconds, and the callbacks registered with [setTimeout], each
    with the time it is due and the setup id its closure deletes. *)
Record State := mkState {
  pendingSetups : gmap string Setup;
  userSecrets : gmap string string;
  timers : list (Z * string);
  clock : Z
}.

(** State, exception and trace. *)
Definition M (A : Type) : Type := State -> Js A * State * list Effect.

#[global] Instance M_ret : MRet M := fun A a st => (Ret a, st, []).

#[global] Instance M_bind : MBind M := fun A B f m st =>
  match m st with
  | (Ret a, st1, tr1) =>
      match f a st1 with
      | (r, st2, tr2) => (r, st2, tr1 ++ tr2)
      end
  | (Throw e, st1, tr1) => (Throw e, st1, tr1)
  end.

Definition get : M State := fun st => (Ret st, st, []).
Definition put (st' : State) : M unit := fun _ => (Ret tt, st', []).
Definition emit (e : Effect) : M unit := fun st => (Ret tt, st, [e]).
Definition lift {A} (j : Js A) : M A := fun st => (j, st, []).
Definition log (lvl : Level) (msg : string) : M unit := emit (Log lvl msg).

Definition result {A} (r : Js A * State * list Effect) : Js A := r.1.1.
Definition state_of {A} (r : Js A * State * list Effect) : State := r.1.2.
Definition trace_of {A} (r : Js A * State * list Effect) : list Effect := r.2.

(** [Date.now()] *)
Definition Date_now : M Z := st ← get; mret (clock st).

Definition pendingSetups_get (setupId : string) : M (option Setup) :=
  st ← get; mret (pendingSetups st !! setupId).

Definition pendingSetups_set (setupId : string) (s : Setup) : M unit :=
  st ← get;
  put (mkState (<[setupId := s]> (pendingSetups st)) (userSecrets st) (timers st) (clock st)).

Definition pendingSetups_delete (setupId : string) : M unit :=
  st ← get;
  put (mkState (delete setupId (pendingSetups st)) (userSecrets st) (timers st) (clock st)).

Definition userSecrets_get (user : string) : M (option string) :=
  st ← get; mret (userSecrets st !! user).

Definition userSecrets_has (user : string) : M bool :=
  st ← get; mret (bool_decide (is_Some (userSecrets st !! user))).

Definition userSecrets_set (user s : string) : M unit :=
  st ← get;
  put (mkState (pendingSetups st) (<[user := s]> (userSecrets st)) (timers st) (clock st)).

Definition userSecrets_delete (user : string) : M unit :=
  st ← get;
  put (mkState (pendingSetups st) (delete user (userSecrets st)) (timers st) (clock st)).

(** [setTimeout(() => { this.pendingSetups.delete(setupId); ... }, delay)] *)
Definition setTimeout (setupId : string) (delay : Z) : M unit :=
  st ← get;
  put (mkState (pendingSetups st) (userSecrets st)
         (timers st ++ [(clock st + delay, setupId)]) (clock st)).

Fixpoint forEach {A} (l : list A) (f : A -> M unit) : M unit :=
  match l with
  | [] => mret tt
  | x :: l' => f x ;; forEach l' f
  end.

(** [saveToFile]: the map is written as an object; a failing write is
    caught and logged there, so the call returns either way. *)
Definition saveToFile : M unit :=
  st ← get;
  emit (WriteSecretsFile (map_to_list (userSecrets st))) ;;
  log Info "Saved MFA secrets to file".

(** The ids whose setup belongs to [user], as the first [forEach] of
    [cleanupUserSetups] collects them.  (A JavaScript Map is walked in
    insertion order; the order only shows in the order of the log lines.) *)
Definition setupsOf (user : string) (m : gmap string Setup) : list string :=
  (filter (fun p => username p.2 = user) (map_to_list m)).*1.

Definition cleanupUserSetups (user : string) : M nat :=
  st ← get;
  let toDelete := setupsOf user (pendingSetups st) in
  forEach toDelete (fun setupId =>
    pendingSetups_delete setupId ;;
    log Info "Cleaned up old MFA setup") ;;
  mret (List.length toDelete).

(** What [speakeasy.generateSecret] and [uuidv4] draw. *)
Record Drawn := mkDrawn {
  base32 : string;
  otpauth_url : string;
  uuid : string
}.

Record SetupInfo := mkSetupInfo {
  setupId : string;
  info_secret : string;
  qrCodeUrl : string
}.

Definition generateSecret (d : Drawn) (user : string) : M SetupInfo :=
  log Info "Generating MFA secret" ;;
  cleanedCount ← cleanupUserSetups user;
  (if (0 <? cleanedCount)%nat
   then log Info "Cleaned up old setups before generating new one"
   else mret tt) ;;
  t ← Date_now;
  pendingSetups_set (uuid d) (mkSetup user (base32 d) t) ;;
  log Info "MFA secret generated" ;;
  setTimeout (uuid d) (30 * 60 * 1000) ;;
  mret (mkSetupInfo (uuid d) (base32 d) (otpauth_url d)).

Definition speakeasy_totp_verify (s token : string) (window time : Z) : M bool :=
  emit (TotpVerifyCall s token window time) ;;
  lift (Speakeasy.totp_verify s token window time).

Definition speakeasy_totp (s : string) (time : Z) : M string :=
  emit (TotpCall s time) ;;
  lift (Speakeasy.totp s time).

Definition verifyToken (user token : string) : M bool :=
  s ← userSecrets_get user;
  if negb (truthy s) then
    log Warn "No MFA secret found for user" ;;
    mret false
  else
    let s := default EmptyString s in
    let cleanToken := strip_non_digits token in
    if negb (String.length cleanToken =? 6)%nat then
      log Warn "Invalid token length" ;;
      mret false
    else
      t ← Date_now;
      let utcTime := t / 1000 in
      verified ← speakeasy_totp_verify s cleanToken 2 utcTime;
      _ ← speakeasy_totp s utcTime;
      log Info "MFA token verification" ;;
      mret verified.

Record CompleteResult := mkResult {
  success : bool;
  error : option string
}.

Definition completeMFASetup (setupId token : string) : M CompleteResult :=
  log Info "Completing MFA setup" ;;
  setup ← pendingSetups_get setupId;
  match setup with
  | None =>
      log Warn "Invalid or expired MFA setup ID" ;;
      mret (mkResult false (Some "Invalid or expired setup"))
  | Some setup =>
      let cleanToken := strip_non_digits token in
      if negb (String.length cleanToken =? 6)%nat then
        log Warn "Invalid token length during setup" ;;
        mret (mkResult false (Some "Token must be 6 digits"))
      else
        t ← Date_now;
        let utcTime := t / 1000 in
        verified ← speakeasy_totp_verify (secret setup) cleanToken 2 utcTime;
        if negb verified then
          _ ← speakeasy_totp (secret setup) utcTime;
          log Warn "Invalid MFA token during setup" ;;
          mret (mkResult false
                  (Some "Invalid token - please check your authenticator app time sync"))
        else
          userSecrets_set (username setup) (secret setup) ;;
          pendingSetups_delete setupId ;;
          saveToFile ;;
          log Info "MFA setup completed" ;;
          mret (mkResult true None)
  end.

Definition hasMFAEnabled (user : string) : M bool := userSecrets_has user.

Record MFAStatus := mkStatus { enabled : bool; setupRequired : bool }.

Definition getMFAStatus (user : string) : M MFAStatus :=
  e ← hasMFAEnabled user;
  r ← hasMFAEnabled user;
  mret (mkStatus e (negb r)).

Definition resetMFA (user : string) : M bool :=
  hadMFA ← userSecrets_has user;
  userSecrets_delete user ;;
  saveToFile ;;
  log Info "MFA reset for user" ;;
  mret hadMFA.

Definition generateCurrentToken (s : string) : M string :=
  t ← Date_now;
  speakeasy_totp s (t / 1000).

(** The remainder of JavaScript's [%]: it has the sign of the dividend. *)
Definition js_rem (a b : Z) : Z := Z.rem a b.

Record TimeInfo := mkTimeInfo {
  utcTimestamp : Z;
  utcTime : string;
  localTime : string;
  timeStep : Z;
  timeRemaining : Z;
  stepDuration : Z;
  timezone : string
}.

Section TimeInfo.

(** [new Date(ms).toISOString()] and the name
    [process.env.TZ || Intl.DateTimeFormat().resolvedOptions().timeZone]. *)
Variable toISOString : Z -> string.
Variable timezone_name : string.

Definition getTimeInfo : M TimeInfo :=
  now ← Date_now;
  let utcTime := now / 1000 in
  let timeStep := utcTime / 30 in
  let timeRemaining := 30 - js_rem utcTime 30 in
  mret (mkTimeInfo utcTime (toISOString (utcTime * 1000)) (toISOString now)
          timeStep timeRemaining 30 timezone_name).

End TimeInfo.

(** *** The event loop

    [advance], [step] and [run] describe the schedule on which every
    callback runs as soon as it is due; [Event] and [play] further down
    leave the schedule of the callbacks open.

    A timer callback of [generateSecret], when it runs. *)
Definition expire (setupId : string) : M unit :=
  pendingSetups_delete setupId ;;
  log Info "Auto-cleaned expired MFA setup".

(** The clock reaches [t]: the callbacks due by then run, in the order
    they were registered, before anything else is handled at [t]. *)
Definition advance (t : Z) : M unit :=
  st ← get;
  let due := filter (fun p => p.1 <= t) (timers st) in
  put (mkState (pendingSetups st) (userSecrets st)
         (filter (fun p => ~ p.1 <= t) (timers st)) t) ;;
  forEach due (fun p => expire p.2).

(** The calls the routes make into the manager. *)
Inductive Call :=
| CallGenerate (d : Drawn) (user : string)
| CallComplete (setupId token : string)
| CallCleanup (user : string)
| CallVerify (user token : string)
| CallReset (user : string).

Inductive Reply :=
| ReplySetup (i : SetupInfo)
| ReplyComplete (r : CompleteResult)
| ReplyCount (n : nat)
| ReplyBool (b : bool).

Definition perform (c : Call) : M Reply :=
  match c with
  | CallGenerate d user => i ← generateSecret d user; mret (ReplySetup i)
  | CallComplete setupId token => r ← completeMFASetup setupId token; mret (ReplyComplete r)
  | CallCleanup user => n ← cleanupUserSetups user; mret (ReplyCount n)
  | CallVerify user token => b ← verifyToken user token; mret (ReplyBool b)
  | CallReset user => b ← resetMFA user; mret (ReplyBool b)
  end.

(** A call handled at time [t]. *)
Definition step (t : Z) (c : Call) : M Reply := advance t ;; perform c.

(** A history of calls.  A call that throws ends its own request only:
    the server goes on with the state the call left. *)
Fixpoint run (evs : list (Z * Call)) (st : State) : State :=
  match evs with
  | [] => st
  | (t, c) :: evs' => run evs' (state_of (step t c st))
  end.

(** *** Callbacks on a schedule of their own

    [setTimeout] promises that a callback does not run before its delay
    is over; how long after that it runs is up to the event loop.  In an
    [Event] list the run of a callback is an event of its own: a call is
    handled while [Date.now()] shows [t], or the callback registered as
    [(due, setupId)] runs. *)
Inductive Event :=
| Called (t : Z) (c : Call)
| Fired (due : Z) (setupId : string).

(** A callback runs once: its first registration leaves the list. *)
Fixpoint unregister (p : Z * string) (l : list (Z * string))
  : option (list (Z * string)) :=
  match l with
  | [] => None
  | q :: l' => if bool_decide (q = p) then Some l' else cons q <$> unregister p l'
  end.

(** The callback registered as [(due, setupId)] runs, if there is one. *)
Definition fire (due : Z) (setupId : string) : M unit :=
  st ← get;
  match unregister (due, setupId) (timers st) with
  | Some rest =>
      put (mkState (pendingSetups st) (userSecrets st) rest (clock st)) ;;
      expire setupId
  | None => mret tt
  end.

(** A call handled while [Date.now()] shows [t]; no callback runs on
    its account. *)
Definition at_time (t : Z) (c : Call) : M Reply :=
  st ← get;
  put (mkState (pendingSetups st) (userSecrets st) (timers st) t) ;;
  perform c.

Definition occur (e : Event) : M (option Reply) :=
  match e with
  | Called t c => r ← at_time t c; mret (Some r)
  | Fired due setupId => fire due setupId ;; mret None
  end.

Fixpoint play (evs : list Event) (st : State) : State :=
  match evs with
  | [] => st
  | e :: evs' => play evs' (state_of (occur e st))
  end.

End MFA.

(** ** Responses of the local routes and of the gate *)

Inductive Response :=
| Redirect (location : string)               (* res.redirect(location) *)
| Json (status : Z) (error : string)         (* res.status(status).json({error, ...}) *)
| Empty (status : Z)                         (* res.status(status).end() *)
| Local (route : string)                     (* answered by a local route *)
| Proxied                                    (* handed to the upstream target *)
| NotFound.                                  (* no handler took the request *)

(** ** The login routes *)

Module Auth.

Import MFA.

(** The properties the routes keep on [req.session]; a flag that was
    never set, or was deleted, reads [false]. *)
Record Session := mkSession {
  authenticated : bool;
  passwordVerified : bool;
  username : option string;
  user : option string;
  mfaSetupId : option string
}.

(** A fresh session. *)
Definition anonymous : Session := mkSession false false None None None.

(** The fields of a submitted login form; [None] is a field that is
    missing or is not a string. *)
Record LoginBody := mkLoginBody {
  body_username : option string;
  body_password : option string
}.

Section Login.

(** [bcrypt.compare] on two strings, and the credential read from
    USER_CREDENTIALS at start-up. *)
Variable bcrypt_compare : string -> string -> bool.
Variable validUsername : string.
Variable validPasswordHash : string.

(** [await bcrypt.compare(password, validPasswordHash)]: the library
    rejects arguments that are not strings. *)
Definition compare_password (password : option string) : Js bool :=
  match password with
  | Some p => Ret (bcrypt_compare p validPasswordHash)
  | None => Throw "Illegal arguments"
  end.

(** The condition of the [if]: [&&] evaluates the comparison only when
    the username is the configured one. *)
Definition credentials_ok (body : LoginBody) : Js bool :=
  if bool_decide (body_username body = Some validUsername)
  then compare_password (body_password body)
  else Ret false.

(** [router.post('/login', ...)] *)
Definition postLogin (sess : Session) (body : LoginBody) : M (Response * Session) :=
  log Info "Login attempt" ;;
  match credentials_ok body with
  | Ret true =>
      let sess' :=
        mkSession (authenticated sess) true (body_username body) (user sess)
                  (mfaSetupId sess) in
      log Info "Password verification successful" ;;
      mfaStatus ← getMFAStatus validUsername;
      if setupRequired mfaStatus
      then mret (Redirect "/auth/mfa-setup", sess')
      else mret (Redirect "/auth/mfa-verify", sess')
  | Ret false =>
      log Warn "Failed login attempt" ;;
      mret (Redirect "/auth/login?error=1", sess)
  | Throw _ =>
      log Error "Login error" ;;
      mret (Redirect "/auth/login?error=1", sess)
  end.

End Login.

(** [router.post('/mfa-setup', ...)] *)
Definition postMfaSetup (sess : Session) (token : string) : M (Response * Session) :=
  log Info "MFA setup POST request" ;;
  if negb (passwordVerified sess) || negb (truthy (mfaSetupId sess)) then
    log Warn "MFA setup: missing session data" ;;
    mret (Redirect "/auth/login", sess)
  else
    log Info "Attempting MFA setup completion" ;;
    r ← completeMFASetup (default EmptyString (mfaSetupId sess)) token;
    if success r then
      let sess' := mkSession true false (username sess) (username sess) None in
      log Info "MFA setup completed and user authenticated" ;;
      mret (Redirect "/", sess')
    else
      log Warn "MFA setup failed" ;;
      mret (Redirect "/auth/mfa-setup?error=1", sess).

(** [mfa.verifyToken(req.session.username, token)]: the name may be
    undefined, and a map whose keys are strings has no entry for it. *)
Definition verifyToken_of (user : option string) (token : string) : M bool :=
  match user with
  | Some u => verifyToken u token
  | None =>
      log Warn "No MFA secret found for user" ;;
      mret false
  end.

(** [router.post('/mfa-verify', ...)] *)
Definition postMfaVerify (sess : Session) (token : string) : M (Response * Session) :=
  log Info "MFA verify POST request" ;;
  if negb (passwordVerified sess) then
    log Warn "MFA verify: not password verified" ;;
    mret (Redirect "/auth/login", sess)
  else
    log Info "Attempting MFA token verification" ;;
    verified ← verifyToken_of (username sess) token;
    if (verified : bool) then
      let sess' :=
        mkSession true false (username sess) (username sess) (mfaSetupId sess) in
      log Info "Successful MFA authentication" ;;
      mret (Redirect "/", sess')
    else
      log Warn "Failed MFA verification" ;;
      mret (Redirect "/auth/mfa-verify?error=1", sess).

(** What the two maintenance routes answer: 404 'Not Found', the JSON
    object with the error 'No username provided', or the JSON object of
    a success with its count or flag. *)
Inductive DevReply :=
| DevNotFound
| DevNoUsername
| DevCleaned (name : string) (cleanedSetups : nat)
| DevReset (name : string) (hadMFA : bool).

(** [a || b] on two names that may be undefined. *)
Definition or_else (a b : option string) : option string :=
  if truthy a then a else b.

(** [if (req.session.mfaSetupId) delete req.session.mfaSetupId] *)
Definition drop_setup_id (sess : Session) : Session :=
  if truthy (mfaSetupId sess)
  then mkSession (authenticated sess) (passwordVerified sess) (username sess)
                 (user sess) None
  else sess.

(** [router.post('/mfa-cleanup', ...)]; [production] is
    [process.env.NODE_ENV === 'production'], [body_name] the field
    [username] of the body when it is a string. *)
Definition postMfaCleanup (production : bool) (sess : Session)
    (body_name : option string) : M (DevReply * Session) :=
  if production then mret (DevNotFound, sess)
  else
    let name := or_else (username sess) body_name in
    if negb (truthy name) then mret (DevNoUsername, sess)
    else
      cleanedCount ← cleanupUserSetups (default EmptyString name);
      mret (DevCleaned (default EmptyString name) cleanedCount, drop_setup_id sess).

(** [router.post('/mfa-reset', ...)] *)
Definition postMfaReset (production : bool) (sess : Session)
    (body_name : option string) : M (DevReply * Session) :=
  if production then mret (DevNotFound, sess)
  else
    let name := or_else (username sess) body_name in
    if negb (truthy name) then mret (DevNoUsername, sess)
    else
      hadMFA ← resetMFA (default EmptyString name);
      let sess1 := drop_setup_id sess in
      let sess2 :=
        if authenticated sess1
        then mkSession false (passwordVerified sess1) (username sess1) (user sess1)
                       (mfaSetupId sess1)
        else sess1 in
      mret (DevReset (default EmptyString name) hadMFA, sess2).

(** *** The credential read at start-up *)

(** [s.split(':')]: the pieces between the colons, at least one. *)
Fixpoint split_colon (s : string) : list string :=
  match s with
  | EmptyString => [EmptyString]
  | String c s' =>
      if Ascii.eqb c ":"%char then EmptyString :: split_colon s'
      else match split_colon s' with
           | piece :: rest => String c piece :: rest
           | [] => [String c EmptyString]
           end
  end.

(** The module either gets its credential or ends the process with
    [process.exit(1)] after logging [msg]. *)
Inductive Startup (A : Type) : Type :=
| Started (a : A)
| Exit (msg : string).
Arguments Started {A} a.
Arguments Exit {A} msg.

(** [parseUserCredentials], given [process.env.USER_CREDENTIALS]. *)
Definition parseUserCredentials (credentials : option string)
  : Startup (string * string) :=
  if negb (truthy credentials) then
    Exit "USER_CREDENTIALS environment variable not set"
  else
    let parts := split_colon (default EmptyString credentials) in
    let name := parts !! 0%nat in
    let passwordHash := parts !! 1%nat in
    if negb (truthy name) || negb (truthy passwordHash) then
      Exit "Invalid USER_CREDENTIALS format. Expected: username:password_hash"
    else Started (default EmptyString name, default EmptyString passwordHash).

End Auth.

(** ** JSON values *)

Module Json.

#[local] Unset Elimination Schemes.

Inductive json :=
| JNull
| JBool (b : bool)
| JNum (literal : string)
| JStr (s : string)
| JArr (elements : list json)
| JObj (members : list (string * json)).

#[local] Set Elimination Schemes.

(** An array of strings as a JavaScript value, and back. *)
Definition of_paths (l : list string) : json := JArr (List.map JStr l).

Fixpoint to_paths_aux (l : list json) : option (list string) :=
  match l with
  | [] => Some []
  | JStr s :: l' => cons s <$> to_paths_aux l'
  | _ => None
  end.

Definition to_paths (v : json) : option (list string) :=
  match v with
  | JArr l => to_paths_aux l
  | _ => None
  end.

(** *** A reader for JSON texts (RFC 8259)

    [JSON.parse] belongs to the platform; the configuration code below
    takes it as a parameter.  [parse] is an executable reader with which
    that code is run on concrete texts. *)

Definition is_ws (c : ascii) : bool :=
  match c with
  | " "%char | "009"%char | "010"%char | "013"%char => true
  | _ => false
  end.

Fixpoint skip_ws (s : string) : string :=
  match s with
  | String c s' => if is_ws c then skip_ws s' else s
  | EmptyString => s
  end.

Definition hex_val (c : ascii) : option Z :=
  let n := Z.of_nat (nat_of_ascii c) in
  if (48 <=? n) && (n <=? 57) then Some (n - 48)
  else if (65 <=? n) && (n <=? 70) then Some (n - 55)
  else if (97 <=? n) && (n <=? 102) then Some (n - 87)
  else None.

Definition chr (n : Z) : ascii := ascii_of_nat (Z.to_nat n).

(** UTF-8 bytes of a code unit below 2^16. *)
Definition utf8 (u : Z) : string :=
  if u <? 128 then String (chr u) EmptyString
  else if u <? 2048 then
    String (chr (192 + u / 64)) (String (chr (128 + u mod 64)) EmptyString)
  else
    String (chr (224 + u / 4096))
      (String (chr (128 + (u / 64) mod 64)) (String (chr (128 + u mod 64)) EmptyString)).

(** The characters of a string literal after its opening quote: the
    contents and the text after the closing quote. *)
Fixpoint read_string (s : string) : option (string * string) :=
  match s with
  | EmptyString => None
  | String "034"%char rest => Some (EmptyString, rest)
  | String "\"%char (String "u"%char (String a (String b (String c (String d rest))))) =>
      match hex_val a, hex_val b, hex_val c, hex_val d with
      | Some x, Some y, Some z, Some w =>
          match read_string rest with
          | Some (body, rest') =>
              Some (String.append (utf8 (((x * 16 + y) * 16 + z) * 16 + w)) body, rest')
          | None => None
          end
      | _, _, _, _ => None
      end
  | String "\"%char (String e rest) =>
      let unescaped :=
        match e with
        | "034"%char => Some "034"%char
        | "\"%char => Some "\"%char
        | "/"%char => Some "/"%char
        | "b"%char => Some "008"%char
        | "f"%char => Some "012"%char
        | "n"%char => Some "010"%char
        | "r"%char => Some "013"%char
        | "t"%char => Some "009"%char
        | _ => None
        end in
      match unescaped, read_string rest with
      | Some c, Some (body, rest') => Some (String c body, rest')
      | _, _ => None
      end
  | String c rest =>
      if (nat_of_ascii c <? 32)%nat then None
      else match read_string rest with
           | Some (body, rest') => Some (String c body, rest')
           | None => None
           end
  end.

(** The longest run of decimal digits at the head of [s]. *)
Fixpoint read_digits (s : string) : string * string :=
  match s with
  | String c s' =>
      if is_digit c then let '(ds, rest) := read_digits s' in (String c ds, rest)
      else (EmptyString, s)
  | EmptyString => (EmptyString, s)
  end.

(** An optional minus sign; an integer part, zero or a digit run not
    starting with zero; an optional fraction, a dot and digits; an
    optional exponent, e or E, an optional sign and digits. *)
Definition read_number (s : string) : option (string * string) :=
  let '(sign, s1) :=
    match s with
    | String "-"%char r => ("-", r)
    | _ => (EmptyString, s)
    end in
  let '(int, s2) := read_digits s1 in
  match int with
  | EmptyString => None
  | String "0"%char (String _ _) => None
  | _ =>
      let frac :=
        match s2 with
        | String "."%char r =>
            let '(ds, r') := read_digits r in
            match ds with
            | EmptyString => None
            | _ => Some (String "."%char ds, r')
            end
        | _ => Some (EmptyString, s2)
        end in
      match frac with
      | None => None
      | Some (fr, s3) =>
          let exp :=
            match s3 with
            | String e r =>
                if Ascii.eqb e "e"%char || Ascii.eqb e "E"%char then
                  let '(sg, r1) :=
                    match r with
                    | String "+"%char r' => ("+", r')
                    | String "-"%char r' => ("-", r')
                    | _ => (EmptyString, r)
                    end in
                  let '(ds, r2) := read_digits r1 in
                  match ds with
                  | EmptyString => None
                  | _ => Some (String e (String.append sg ds), r2)
                  end
                else Some (EmptyString, s3)
            | EmptyString => Some (EmptyString, s3)
            end in
          match exp with
          | None => None
          | Some (ex, s4) =>
              Some (String.append sign (String.append int (String.append fr ex)), s4)
          end
      end
  end.

(** A value at the head of [s] (no leading white space), the elements of
    an array after its first bracket, the members of an object after its
    first brace.  Every call takes one unit of fuel. *)
Fixpoint read_value (fuel : nat) (s : string) : option (json * string) :=
  match fuel with
  | O => None
  | S fuel' =>
      match s with
      | String "["%char rest =>
          match skip_ws rest with
          | String "]"%char r => Some (JArr [], r)
          | rest' => read_elements fuel' rest' []
          end
      | String "{"%char rest =>
          match skip_ws rest with
          | String "}"%char r => Some (JObj [], r)
          | rest' => read_members fuel' rest' []
          end
      | String "034"%char rest =>
          match read_string rest with
          | Some (str, r) => Some (JStr str, r)
          | None => None
          end
      | _ =>
          if String.prefix "true" s then Some (JBool true, String.substring 4 (String.length s - 4) s)
          else if String.prefix "false" s
          then Some (JBool false, String.substring 5 (String.length s - 5) s)
          else if String.prefix "null" s
          then Some (JNull, String.substring 4 (String.length s - 4) s)
          else match read_number s with
               | Some (lit, r) => Some (JNum lit, r)
               | None => None
               end
      end
  end
with read_elements (fuel : nat) (s : string) (acc : list json) : option (json * string) :=
  match fuel with
  | O => None
  | S fuel' =>
      match read_value fuel' s with
      | Some (v, rest) =>
          match skip_ws rest with
          | String ","%char r => read_elements fuel' (skip_ws r) (v :: acc)
          | String "]"%char r => Some (JArr (rev (v :: acc)), r)
          | _ => None
          end
      | None => None
      end
  end
with read_members (fuel : nat) (s : string) (acc : list (string * json))
  : option (json * string) :=
  match fuel with
  | O => None
  | S fuel' =>
      match s with
      | String "034"%char rest =>
          match read_string rest with
          | Some (key, r) =>
              match skip_ws r with
              | String ":"%char r1 =>
                  match read_value fuel' (skip_ws r1) with
                  | Some (v, r2) =>
                      match skip_ws r2 with
                      | String ","%char r3 =>
                          read_members fuel' (skip_ws r3) ((key, v) :: acc)
                      | String "}"%char r3 => Some (JObj (rev ((key, v) :: acc)), r3)
                      | _ => None
                      end
                  | None => None
                  end
              | _ => None
              end
          | None => None
          end
      | _ => None
      end
  end.

(** The whole text is one value between optional white space. *)
Definition parse (text : string) : Js json :=
  match read_value (2 * String.length text + 3) (skip_ws text) with
  | Some (v, rest) =>
      match skip_ws rest with
      | EmptyString => Ret v
      | _ => Throw "SyntaxError"
      end
  | None => Throw "SyntaxError"
  end.

End Json.

(** ** The admission gate *)

Module Gate.

Inductive Method := GET | POST | PUT | PATCH | DELETE | HEAD | OPTIONS.

#[global] Instance Method_eq_dec : EqDecision Method.
Proof. solve_decision. Defined.

(** What the gate reads of a request.  [session] is [req.session]; the
    session middleware installed first defines it on every request the
    application handles. *)
Record Request := mkRequest {
  method : Method;
  path : string;
  accept : option string;
  upgrade : option string;
  session : option Auth.Session
}.

(** A middleware answers, or calls [next()]. *)
Definition Middleware : Type := Request -> Js (option Response).

(** Express matches a route without regard to case and lets one slash
    trail the path; a GET route also answers HEAD. *)
Definition lower (c : ascii) : ascii :=
  let n := nat_of_ascii c in
  if (65 <=? n)%nat && (n <=? 90)%nat then ascii_of_nat (n + 32) else c.

Fixpoint lowercase (s : string) : string :=
  match s with
  | EmptyString => EmptyString
  | String c s' => String (lower c) (lowercase s')
  end.

Definition route_matches (route path : string) : bool :=
  let p := lowercase path in
  String.eqb p route || String.eqb p (route +:+ "/").

Definition method_matches (route m : Method) : bool :=
  bool_decide (m = route) || (bool_decide (route = GET) && bool_decide (m = HEAD)).

(** [app.get('/health')] and [app.get('/proxy-status')] *)
Definition statusRoutes : Middleware := fun req =>
  if method_matches GET (method req) && route_matches "/health" (path req)
  then Ret (Some (Local "/health"))
  else if method_matches GET (method req) && route_matches "/proxy-status" (path req)
  then Ret (Some (Local "/proxy-status"))
  else Ret None.

(** The routes of the router mounted with [app.use('/auth', auth)]. *)
Definition authRoutes : list (Method * string) :=
  [ (GET, "/login"); (POST, "/login");
    (GET, "/mfa-setup"); (POST, "/mfa-setup");
    (GET, "/mfa-verify"); (POST, "/mfa-verify");
    (GET, "/mfa-debug"); (POST, "/mfa-cleanup"); (POST, "/mfa-reset");
    (POST, "/logout") ].

Definition authRouter : Middleware := fun req =>
  match List.find (fun r => method_matches r.1 (method req)
                            && route_matches ("/auth" +:+ r.2) (path req))
                  authRoutes with
  | Some r => Ret (Some (Local ("/auth" +:+ r.2)))
  | None => Ret None
  end.

(** The first [app.use('/', ...)]:
    [if (!req.session.authenticated && !req.path.startsWith('/auth'))
       return res.redirect('/auth/login'); next();] *)
Definition requireLogin : Middleware := fun req =>
  match session req with
  | None => Throw "TypeError: Cannot read properties of undefined"
  | Some sess =>
      if negb (Auth.authenticated sess) && negb (startsWith (path req) "/auth")
      then Ret (Some (Redirect "/auth/login"))
      else Ret None
  end.

Definition defaultPublicPaths : list string :=
  [ "/api/auth"; "/login"; "/register"; "/public"; "/assets"; "/static";
    "/favicon.ico"; "/robots.txt" ].

Definition try_catch {A} (body : Js A) (handler : string -> Js A) : Js A :=
  match body with
  | Ret a => Ret a
  | Throw e => handler e
  end.

Section PublicPaths.

(** [JSON.parse], which throws a SyntaxError on a text that is not JSON. *)
Variable JSON_parse : string -> Js Json.json.

(** [getPublicPaths], given the value of [process.env.PUBLIC_PATHS].
    The value parsed is returned as it is. *)
Definition getPublicPaths (envPaths : option string) : Js Json.json :=
  let defaults := Ret (Json.of_paths defaultPublicPaths) in
  if truthy envPaths then
    try_catch
      (match JSON_parse (default EmptyString envPaths) with
       | Ret customPaths => Ret customPaths
       | Throw e => Throw e
       end)
      (fun _ => defaults)
  else defaults.

End PublicPaths.

(** [publicPaths.some(p => path === p || path.startsWith(p + '/'))] *)
Definition isPublicPath (publicPaths : list string) (path : string) : bool :=
  existsb (fun publicPath =>
             String.eqb path publicPath || startsWith path (publicPath +:+ "/"))
          publicPaths.

Definition session_authenticated (req : Request) : bool :=
  match session req with
  | Some sess => Auth.authenticated sess
  | None => false
  end.

(** The second [app.use('/', ...)], the one that tells public from
    private paths. *)
Definition smartProxy (publicPaths : list string) : Middleware := fun req =>
  if startsWith (path req) "/auth/" || String.eqb (path req) "/health"
     || String.eqb (path req) "/proxy-status"
  then Ret None
  else if isPublicPath publicPaths (path req) then Ret None
  else if negb (session_authenticated req) then
    if match accept req with
       | Some a => negb (String.eqb a EmptyString) && includes a "application/json"
       | None => false
       end
    then Ret (Some (Json 401 "Unauthorized"))
    else if bool_decide (upgrade req = Some "websocket")
    then Ret (Some (Empty 401))
    else Ret (Some (Redirect "/auth/login"))
  else Ret None.

(** The [pathFilter] option of the proxy middleware. *)
Definition pathFilter (pathname : string) : bool :=
  if startsWith pathname "/auth/" then false
  else if String.eqb pathname "/health" || String.eqb pathname "/proxy-status" then false
  else true.

(** The proxy middleware relays the requests its filter lets through. *)
Definition proxyMiddleware : Middleware := fun req =>
  if pathFilter (path req) then Ret (Some Proxied) else Ret None.

Fixpoint chain (ms : list Middleware) (req : Request) : Js Response :=
  match ms with
  | [] => Ret NotFound
  | m :: ms' =>
      match m req with
      | Throw e => Throw e
      | Ret (Some r) => Ret r
      | Ret None => chain ms' req
      end
  end.

(** The application, in the order the handlers are registered, for the
    requests described by [Request] (no body to parse).  The handlers
    registered before [statusRoutes] set headers and the session; the
    static files are served under /auth/static only. *)
Definition app (publicPaths : list string) : Request -> Js Response :=
  chain [ statusRoutes; authRouter; requireLogin;
          smartProxy publicPaths; proxyMiddleware ].

(** [server.on('upgrade', (request, socket, head) =>
      proxyMiddleware.upgrade(request, socket, head))]:
    the listener hands the handshake to the proxy, which relays it when
    its filter lets the path through and leaves the socket alone
    otherwise. *)
Inductive UpgradeOutcome := UpgradeProxied | UpgradeIgnored.

Definition onUpgrade (req : Request) : UpgradeOutcome :=
  if pathFilter (path req) then UpgradeProxied else UpgradeIgnored.

(** *** The handlers registered before the routes

    A request as it arrives: what the gate reads of it, its Content-Type
    header and its body. *)
Record Incoming := mkIncoming {
  request : Request;
  contentType : option string;
  rawBody : string
}.

(** [app.use(mount, handler)]: the handler sees the paths at the mount
    point and below it, compared without regard to case. *)
Definition mounted (mount path : string) : bool :=
  let p := lowercase path in
  String.eqb p mount || startsWith p (mount +:+ "/").

Section Parsers.

(** [express.json({ limit: '10mb' })] and
    [express.urlencoded({ extended: true, limit: '10mb' })] belong to a
    package.  Given a request, a parser calls [next()] or fails; Express
    answers a failure with the status of the error (400 for a body that
    does not parse, 413 for one over the limit). *)
Variable express_json : Incoming -> Js unit.
Variable express_urlencoded : Incoming -> Js unit.

(** [express.static('public')] answers with a file of the directory, or
    calls [next()]. *)
Variable express_static : Incoming -> Js bool.

Definition Handler : Type := Incoming -> Js (option Response).

Definition parser (p : Incoming -> Js unit) : Handler := fun inc =>
  match p inc with
  | Ret _ => Ret None
  | Throw e => Throw e
  end.

Definition staticFiles : Handler := fun inc =>
  match express_static inc with
  | Ret true => Ret (Some (Local "/auth/static"))
  | Ret false => Ret None
  | Throw e => Throw e
  end.

Definition under (mount : string) (h : Handler) : Handler := fun inc =>
  if mounted mount (path (request inc)) then h inc else Ret None.

(** The middleware that parses the body of the requests to be proxied:
    [if (req.path.startsWith('/auth/') || req.path === '/health' ||
         req.path === '/proxy-status') return next();
     if (req.method === 'POST' || req.method === 'PUT' ||
         req.method === 'PATCH') {
       const contentType = req.get('Content-Type') || '';
       if (contentType.includes('application/json')) express.json(...)(req, res, next);
       else if (contentType.includes('application/x-www-form-urlencoded'))
         express.urlencoded(...)(req, res, next);
       else next();
     } else next();] *)
Definition parseProxiedBody : Handler := fun inc =>
  let req := request inc in
  if startsWith (path req) "/auth/" || String.eqb (path req) "/health"
     || String.eqb (path req) "/proxy-status"
  then Ret None
  else if bool_decide (method req = POST) || bool_decide (method req = PUT)
          || bool_decide (method req = PATCH)
  then
    let contentType := default EmptyString (contentType inc) in
    if includes contentType "application/json" then parser express_json inc
    else if includes contentType "application/x-www-form-urlencoded"
    then parser express_urlencoded inc
    else Ret None
  else Ret None.

Fixpoint first_answer (hs : list Handler) (inc : Incoming) : Js (option Response) :=
  match hs with
  | [] => Ret None
  | h :: hs' =>
      match h inc with
      | Ret None => first_answer hs' inc
      | answer => answer
      end
  end.

(** The handlers registered before [app.get('/health')], in their
    order; those before them set headers and the session and always
    call [next()]. *)
Definition beforeRoutes : list Handler :=
  [ under "/auth" (parser express_json);
    under "/auth" (parser express_urlencoded);
    parseProxiedBody;
    under "/auth/static" staticFiles ].

(** The application with the handlers that come before its routes. *)
Definition server (publicPaths : list string) (inc : Incoming) : Js Response :=
  match first_answer beforeRoutes inc with
  | Throw e => Throw e
  | Ret (Some r) => Ret r
  | Ret None => app publicPaths (request inc)
  end.

End Parsers.

End Gate.

(** * Vocabulary of the statements *)

Section Vocabulary.

Import MFA.

(** Deleting a list of keys, one call of [delete] each. *)
Definition delete_all {A} (g : A -> string) (l : list A) (m : gmap string Setup)
  : gmap string Setup :=
  fold_left (fun m x => delete (g x) m) l m.

(** What [completeMFASetup] returns and leaves, branch by branch. *)
Definition completeMFASetup_outcome (setupId token : string) (st : State)
  : Js CompleteResult * State :=
  match pendingSetups st !! setupId with
  | None => (Ret (mkResult false (Some "Invalid or expired setup")), st)
  | Some setup =>
      if negb (String.length (strip_non_digits token) =? 6)%nat
      then (Ret (mkResult false (Some "Token must be 6 digits")), st)
      else
        match Speakeasy.totp_verify (secret setup) (strip_non_digits token) 2
                (clock st / 1000) with
        | Throw e => (Throw e, st)
        | Ret false =>
            (Ret (mkResult false
                    (Some "Invalid token - please check your authenticator app time sync")),
             st)
        | Ret true =>
            (Ret (mkResult true None),
             mkState (delete setupId (pendingSetups st))
                     (<[username setup := secret setup]> (userSecrets st))
                     (timers st) (clock st))
        end
  end.

(** At most one pending setup for each user. *)
Definition one_per_user (st : State) : Prop :=
  forall k1 k2 s1 s2,
    pendingSetups st !! k1 = Some s1 ->
    pendingSetups st !! k2 = Some s2 ->
    username s1 = username s2 -> k1 = k2.

(** The call is a [generateSecret] whose fresh id is [k]. *)
Definition draws (k : string) (c : Call) : Prop :=
  match c with
  | CallGenerate d _ => uuid d = k
  | _ => False
  end.

(** A setup that is still pending has its expiry timer still
    registered, due no later than [deadline]. *)
Definition timer_armed (k : string) (deadline : Z) (st : State) : Prop :=
  forall s, pendingSetups st !! k = Some s ->
            exists due, due <= deadline /\ (due, k) ∈ timers st.

End Vocabulary.

(** A call into the one-time-password engine. *)
Definition is_engine_call (e : MFA.Effect) : bool :=
  match e with
  | MFA.TotpVerifyCall _ _ _ _ | MFA.TotpCall _ _ => true
  | _ => false
  end.

(** The submission is not the configured username with a password that
    matches the configured hash. *)
Definition login_fails (bcrypt_compare : string -> string -> bool)
    (validUsername validPasswordHash : string) (body : Auth.LoginBody) : Prop :=
  Auth.body_username body <> Some validUsername
  \/ forall p, Auth.body_password body = Some p ->
               bcrypt_compare p validPasswordHash = false.

(** The call leaves every stored secret alone: it is neither a
    [resetMFA] nor a [completeMFASetup]. *)
Definition keeps_secrets (c : MFA.Call) : bool :=
  match c with
  | MFA.CallReset _ | MFA.CallComplete _ _ => false
  | _ => true
  end.

Fixpoint has_colon (s : string) : bool :=
  match s with
  | EmptyString => false
  | String c s' => Ascii.eqb c ":"%char || has_colon s'
  end.

(** *** A session over a sequence of requests

    The requests to the router that write to the session.  Each one
    finds the manager in some state, shared with the other sessions.
    GET /mfa-setup writes the id of the setup it shows (the one the
    session had, or a new one) when the password was verified and
    nothing otherwise; POST /logout destroys the session, so that the
    next request starts from a new one. *)
Inductive Route :=
| PostLogin (body : Auth.LoginBody)
| PostMfaSetup (token : string)
| PostMfaVerify (token : string)
| GetMfaSetup (setupId : string)
| PostMfaCleanup (body_name : option string)
| PostMfaReset (body_name : option string)
| PostLogout.

Section Routes.

Variable bcrypt_compare : string -> string -> bool.
Variable validUsername : string.
Variable validPasswordHash : string.
Variable production : bool.

(** The session a handler leaves; a handler that throws had not written
    to it. *)
Definition session_after {R} (sess : Auth.Session)
    (r : Js (R * Auth.Session) * MFA.State * list MFA.Effect) : Auth.Session :=
  match MFA.result r with
  | Ret (_, sess') => sess'
  | Throw _ => sess
  end.

Definition route_session (r : Route) (st : MFA.State) (sess : Auth.Session)
  : Auth.Session :=
  match r with
  | PostLogin body =>
      session_after sess
        (Auth.postLogin bcrypt_compare validUsername validPasswordHash sess body st)
  | PostMfaSetup token => session_after sess (Auth.postMfaSetup sess token st)
  | PostMfaVerify token => session_after sess (Auth.postMfaVerify sess token st)
  | GetMfaSetup setupId =>
      if Auth.passwordVerified sess
      then Auth.mkSession (Auth.authenticated sess) (Auth.passwordVerified sess)
             (Auth.username sess) (Auth.user sess) (Some setupId)
      else sess
  | PostMfaCleanup body_name =>
      session_after sess (Auth.postMfaCleanup production sess body_name st)
  | PostMfaReset body_name =>
      session_after sess (Auth.postMfaReset production sess body_name st)
  | PostLogout => Auth.anonymous
  end.

Fixpoint run_routes (rs : list (Route * MFA.State)) (sess : Auth.Session)
  : Auth.Session :=
  match rs with
  | [] => sess
  | (r, st) :: rs' => run_routes rs' (route_session r st sess)
  end.

(** The request is a login whose credentials are accepted. *)
Definition good_login (r : Route) : bool :=
  match r with
  | PostLogin body =>
      match Auth.credentials_ok bcrypt_compare validUsername validPasswordHash body with
      | Ret true => true
      | _ => false
      end
  | _ => false
  end.

End Routes.

(** Neither factor has been passed. *)
Definition no_factor (sess : Auth.Session) : Prop :=
  Auth.authenticated sess = false /\ Auth.passwordVerified sess = false.

(** The paths the second middleware passes on without a decision:
    [req.path.startsWith('/auth/') || req.path === '/health' ||
    req.path === '/proxy-status']. *)
Definition local_path (path : string) : bool :=
  startsWith path "/auth/" || String.eqb path "/health"
  || String.eqb path "/proxy-status".

(** The second [app.use('/', ...)] has two handlers: the middleware that
    tells public from private paths, then the proxy. *)
Definition gated_proxy (publicPaths : list string) : Gate.Request -> Js Response :=
  Gate.chain [Gate.smartProxy publicPaths; Gate.proxyMiddleware].

(** The request asks for JSON: [req.headers.accept &&
    req.headers.accept.includes('application/json')]. *)
Definition wants_json (req : Gate.Request) : bool :=
  match Gate.accept req with
  | Some a => negb (String.eqb a EmptyString) && includes a "application/json"
  | None => false
  end.

(** Some path under /auth can match the public entry [p]. *)
Definition reaches_auth (p : string) : bool :=
  String.prefix "/auth" p || String.prefix "/auth" (p +:+ "/")
  || String.prefix (p +:+ "/") "/auth".

(** The call leaves the pending setup [k] of [user] alone: it is not a
    [generateSecret] for that user or drawing that id, not a cleanup for
    that user, not a completion of that id. *)
Definition leaves_setup (user k : string) (c : MFA.Call) : bool :=
  match c with
  | MFA.CallGenerate d u =>
      negb (String.eqb u user) && negb (String.eqb (MFA.uuid d) k)
  | MFA.CallCleanup u => negb (String.eqb u user)
  | MFA.CallComplete k' _ => negb (String.eqb k' k)
  | _ => true
  end.

(** The setup is pending and no timer for its id is due before
    [deadline]. *)
Definition alive (k : string) (setup : MFA.Setup) (deadline : Z) (st : MFA.State)
  : Prop :=
  MFA.pendingSetups st !! k = Some setup
  /\ forall due, (due, k) ∈ MFA.timers st -> deadline <= due.

(** The event is a [generateSecret] whose fresh id is [k]. *)
Definition redraws (k : string) (e : MFA.Event) : Prop :=
  match e with
  | MFA.Called _ c => draws k c
  | MFA.Fired _ _ => False
  end.

(** Either the callback [p] is still registered, or the setup it
    deletes is gone. *)
Definition pending_or_gone (p : Z * string) (st : MFA.State) : Prop :=
  p ∈ MFA.timers st \/ MFA.pendingSetups st !! p.2 = None.

(** * Properties *)

(** Unfolds the straight-line part of an operation. *)
Ltac unfold_m :=
  cbv [mbind MFA.M_bind mret MFA.M_ret MFA.get MFA.put MFA.emit MFA.lift MFA.log
       MFA.Date_now MFA.pendingSetups_get MFA.pendingSetups_set
       MFA.pendingSetups_delete MFA.userSecrets_get MFA.userSecrets_has
       MFA.userSecrets_set MFA.userSecrets_delete MFA.setTimeout MFA.saveToFile
       MFA.speakeasy_totp_verify MFA.speakeasy_totp
       MFA.result MFA.state_of MFA.trace_of fst snd
       MFA.pendingSetups MFA.userSecrets MFA.timers MFA.clock].

(** ** Running the monad *)

Section MonadFacts.

Import MFA.

Lemma bind_run {A B} (f : A -> M B) (m : M A) st a st1 tr1 r st2 tr2 :
  m st = (Ret a, st1, tr1) ->
  f a st1 = (r, st2, tr2) ->
  (m ≫= f) st = (r, st2, tr1 ++ tr2).
Proof.
  intros Hm Hf. unfold mbind, M_bind. rewrite Hm, Hf. reflexivity.
Qed.

Lemma lookup_delete_all {A} (g : A -> string) (l : list A) m k s :
  delete_all g l m !! k = Some s <-> m !! k = Some s /\ k ∉ g <$> l.
Proof.
  revert m. induction l as [|x l IH]; intros m.
  - cbn. rewrite elem_of_nil. tauto.
  - unfold delete_all in *. cbn [fold_left]. rewrite IH, fmap_cons, not_elem_of_cons.
    destruct (decide (g x = k)) as [->|Hne].
    + rewrite lookup_delete_eq. split; [intros [? _]; discriminate | tauto].
    + rewrite lookup_delete_ne by done. split; [intros [? ?]|]; intuition congruence.
Qed.

Lemma forEach_delete {A} (g : A -> string) lvl msg (l : list A) st :
  forEach l (fun x => pendingSetups_delete (g x) ;; log lvl msg) st
  = (Ret tt,
     mkState (delete_all g l (pendingSetups st)) (userSecrets st) (timers st) (clock st),
     List.map (fun _ => Log lvl msg) l).
Proof.
  revert st. induction l as [|x l IH]; intros st.
  - destruct st. reflexivity.
  - cbn [forEach]. etransitivity.
    + eapply bind_run; [reflexivity | apply IH].
    + reflexivity.
Qed.

Lemma cleanupUserSetups_eq user st :
  cleanupUserSetups user st
  = (Ret (List.length (setupsOf user (pendingSetups st))),
     mkState (delete_all (fun k => k) (setupsOf user (pendingSetups st)) (pendingSetups st))
             (userSecrets st) (timers st) (clock st),
     List.map (fun _ => Log Info "Cleaned up old MFA setup")
              (setupsOf user (pendingSetups st)) ++ []).
Proof.
  unfold cleanupUserSetups. etransitivity.
  - eapply bind_run; [reflexivity | cbn beta].
    eapply bind_run; [apply (forEach_delete (fun k => k)) | reflexivity].
  - reflexivity.
Qed.

Lemma generateSecret_run d user st :
  exists tr,
    generateSecret d user st
    = (Ret (mkSetupInfo (uuid d) (base32 d) (otpauth_url d)),
       mkState (<[uuid d := mkSetup user (base32 d) (clock st)]>
                  (delete_all (fun k => k) (setupsOf user (pendingSetups st))
                     (pendingSetups st)))
               (userSecrets st)
               (timers st ++ [(clock st + 30 * 60 * 1000, uuid d)])
               (clock st),
       tr).
Proof.
  unfold generateSecret.
  destruct (0 <? List.length (setupsOf user (pendingSetups st)))%nat eqn:E; eexists;
    (eapply bind_run; [reflexivity | cbn beta]);
    (eapply bind_run; [apply cleanupUserSetups_eq | cbn beta]);
    rewrite E; reflexivity.
Qed.

Lemma bind_proj {A B} (f : A -> M B) (m : M A) st a st1 tr1 :
  m st = (Ret a, st1, tr1) ->
  result ((m ≫= f) st) = result (f a st1)
  /\ state_of ((m ≫= f) st) = state_of (f a st1).
Proof.
  intros Hm. unfold mbind, M_bind. rewrite Hm.
  destruct (f a st1) as [[r st2] tr2]. split; reflexivity.
Qed.

Lemma totp_after_verify s token window time b :
  Speakeasy.totp_verify s token window time = Ret b ->
  exists code, Speakeasy.totp s time = Ret code.
Proof.
  unfold Speakeasy.totp_verify, Speakeasy.totp.
  destruct (Speakeasy.base32_decode s); [eauto | discriminate].
Qed.

Lemma verifyToken_state user token st :
  state_of (verifyToken user token st) = st.
Proof.
  destruct st as [p u tm c]. unfold verifyToken. unfold_m.
  destruct (truthy (u !! user)); cbn [negb]; [|reflexivity].
  destruct (String.length (strip_non_digits token) =? 6)%nat; cbn [negb]; [|reflexivity].
  destruct (Speakeasy.totp_verify _ _ _ _); [|reflexivity].
  destruct (Speakeasy.totp _ _); reflexivity.
Qed.

Lemma completeMFASetup_eq setupId token st :
  (result (completeMFASetup setupId token st),
   state_of (completeMFASetup setupId token st))
  = completeMFASetup_outcome setupId token st.
Proof.
  destruct st as [p u tm c].
  unfold completeMFASetup, completeMFASetup_outcome. unfold_m.
  destruct (p !! setupId) as [setup|]; [|reflexivity].
  destruct (negb _); [reflexivity|].
  destruct (Speakeasy.totp_verify _ _ _ _) as [[|]|e] eqn:Hv; cbn [negb]; try reflexivity.
  destruct (totp_after_verify _ _ _ _ _ Hv) as [code ->]. reflexivity.
Qed.

Lemma resetMFA_state user st :
  state_of (resetMFA user st)
  = mkState (pendingSetups st) (delete user (userSecrets st)) (timers st) (clock st).
Proof. destruct st. reflexivity. Qed.

Lemma advance_eq t st :
  advance t st
  = (Ret tt,
     mkState (delete_all snd (filter (fun p => p.1 <= t) (timers st)) (pendingSetups st))
             (userSecrets st)
             (filter (fun p => ~ p.1 <= t) (timers st)) t,
     [] ++ [] ++ List.map (fun _ => Log Info "Auto-cleaned expired MFA setup")
                          (filter (fun p => p.1 <= t) (timers st))).
Proof.
  unfold advance.
  eapply bind_run; [reflexivity | cbn beta].
  eapply bind_run; [reflexivity | ].
  unfold expire. rewrite (forEach_delete snd). reflexivity.
Qed.

Lemma step_state t c st :
  state_of (step t c st) = state_of (perform c (state_of (advance t st)))
  /\ result (step t c st) = result (perform c (state_of (advance t st))).
Proof.
  destruct (bind_proj (fun _ => perform c) (advance t) st _ _ _ (advance_eq t st)) as [Hr Hs].
  unfold step. rewrite Hr, Hs, advance_eq. split; reflexivity.
Qed.

End MonadFacts.

(** ** The engine on the test values of RFC 4226 *)

Example hotp_rfc4226 :
  List.map (Speakeasy.hotp (ascii_bytes "12345678901234567890")) [0; 1; 2; 3; 4; 5; 6; 7; 8; 9]
  = [ "755224"; "287082"; "359152"; "969429"; "338314";
      "254676"; "287922"; "162583"; "399871"; "520489" ].
Proof. vm_compute. reflexivity. Qed.

Example base32_rfc4226_key :
  Speakeasy.base32_decode "GEZDGNBVGY3TQOJQGEZDGNBVGY3TQOJQ"
  = Some (ascii_bytes "12345678901234567890").
Proof. vm_compute. reflexivity. Qed.

(** ** Token normalisation *)

Lemma strip_non_digits_idem s :
  strip_non_digits (strip_non_digits s) = strip_non_digits s.
Proof.
  induction s as [|c s IH]; [reflexivity|].
  cbn [strip_non_digits]. destruct (is_digit c) eqn:Hc; [|exact IH].
  cbn [strip_non_digits]. rewrite Hc, IH. reflexivity.
Qed.

Lemma is_digit_digit_char d : is_digit (Speakeasy.digit_char d) = true.
Proof.
  unfold Speakeasy.digit_char.
  assert (H : 0 <= d mod 10 < 10) by (apply Z.mod_pos_bound; lia).
  assert (Hd : d mod 10 = 0 \/ d mod 10 = 1 \/ d mod 10 = 2 \/ d mod 10 = 3
               \/ d mod 10 = 4 \/ d mod 10 = 5 \/ d mod 10 = 6 \/ d mod 10 = 7
               \/ d mod 10 = 8 \/ d mod 10 = 9) by lia.
  repeat destruct Hd as [-> | Hd]; try rewrite Hd; reflexivity.
Qed.

Lemma hotp_length key counter : String.length (Speakeasy.hotp key counter) = 6%nat.
Proof. reflexivity. Qed.

Lemma hotp_clean key counter :
  strip_non_digits (Speakeasy.hotp key counter) = Speakeasy.hotp key counter.
Proof.
  unfold Speakeasy.hotp, Speakeasy.digits6. cbn [strip_non_digits].
  rewrite !is_digit_digit_char. reflexivity.
Qed.

(** C10: for a user with no entry in the secret store, [verifyToken]
    returns [false] (it does not throw), leaves the state as it was, and
    makes no call into the one-time-password engine: its only effect is
    one warning in the log. *)
Theorem C10_verifyToken_without_secret (st : MFA.State) (user token : string) :
  MFA.userSecrets st !! user = None ->
  MFA.verifyToken user token st
    = (Ret false, st, [MFA.Log MFA.Warn "No MFA secret found for user"])
  /\ existsb is_engine_call (MFA.trace_of (MFA.verifyToken user token st)) = false.
Proof.
  intros Hnone. destruct st as [p u tm c]. cbn [MFA.userSecrets] in Hnone.
  assert (E : MFA.verifyToken user token (MFA.mkState p u tm c)
              = (Ret false, MFA.mkState p u tm c,
                 [MFA.Log MFA.Warn "No MFA secret found for user"])).
  { unfold MFA.verifyToken. unfold_m. rewrite Hnone. reflexivity. }
  rewrite E. split; reflexivity.
Qed.

Lemma C10_witness :
  let st := MFA.mkState ∅ {[ "bob" := "GEZDGNBVGY3TQOJQGEZDGNBVGY3TQOJQ" ]} [] 1735734540000 in
  MFA.userSecrets st !! "alice" = None
  /\ MFA.verifyToken "alice" "127086" st
     = (Ret false, st, [MFA.Log MFA.Warn "No MFA secret found for user"]).
Proof.
  intros st. split; [reflexivity|].
  apply (C10_verifyToken_without_secret st "alice" "127086"). reflexivity.
Defined.

(** C6: a candidate [c] is handled through [d], its digits.  When [d]
    has six digits, [verifyToken] and [completeMFASetup] do on [c] what
    they do on [d].  When it has not, [verifyToken] returns [false] and
    [completeMFASetup], for a setup that exists, returns the error
    'Token must be 6 digits'; neither throws. *)
Theorem C6_token_normalisation (st : MFA.State) (user setupId c : string) :
  let d := strip_non_digits c in
  (String.length d = 6%nat ->
     MFA.verifyToken user c st = MFA.verifyToken user d st
     /\ MFA.completeMFASetup setupId c st = MFA.completeMFASetup setupId d st)
  /\ (String.length d <> 6%nat ->
        MFA.result (MFA.verifyToken user c st) = Ret false
        /\ (is_Some (MFA.pendingSetups st !! setupId) ->
            MFA.result (MFA.completeMFASetup setupId c st)
            = Ret (MFA.mkResult false (Some "Token must be 6 digits")))).
Proof.
  intros d. split.
  - intros _. subst d. unfold MFA.verifyToken, MFA.completeMFASetup.
    rewrite strip_non_digits_idem. split; reflexivity.
  - intros Hlen. apply Nat.eqb_neq in Hlen. split.
    + destruct st as [p u tm k]. unfold MFA.verifyToken. unfold_m.
      destruct (truthy (u !! user)); cbn [negb]; [|reflexivity].
      fold d. rewrite Hlen. reflexivity.
    + intros [setup Hsetup].
      pose proof (MFA_complete := completeMFASetup_eq setupId c st).
      unfold completeMFASetup_outcome in MFA_complete.
      rewrite Hsetup in MFA_complete. fold d in MFA_complete.
      rewrite Hlen in MFA_complete. cbn [negb] in MFA_complete.
      congruence.
Qed.

Lemma C6_witness :
  let st :=
    MFA.mkState {[ "id-1" := MFA.mkSetup "bob" "GEZDGNBVGY3TQOJQGEZDGNBVGY3TQOJQ" 0 ]}
                {[ "bob" := "GEZDGNBVGY3TQOJQGEZDGNBVGY3TQOJQ" ]} [] 1735734540000 in
  (MFA.verifyToken "bob" "12 7086" st = MFA.verifyToken "bob" "127086" st
   /\ MFA.completeMFASetup "id-1" "12 7086" st = MFA.completeMFASetup "id-1" "127086" st)
  /\ (MFA.result (MFA.verifyToken "bob" "12-70" st) = Ret false
      /\ MFA.result (MFA.completeMFASetup "id-1" "12-70" st)
         = Ret (MFA.mkResult false (Some "Token must be 6 digits"))).
Proof.
  intros st. split.
  - apply (C6_token_normalisation st "bob" "id-1" "12 7086"). reflexivity.
  - destruct (C6_token_normalisation st "bob" "id-1" "12-70") as [_ H].
    destruct H as [Hv Hc]; [vm_compute; discriminate|].
    split; [exact Hv|]. apply Hc. vm_compute. eauto.
Defined.

(** ** Completing a setup *)

Lemma truthy_Some s : s <> EmptyString -> truthy (Some s) = true.
Proof.
  intros Hs. unfold truthy.
  destruct (String.eqb_spec s EmptyString); [contradiction | reflexivity].
Qed.

(** C7: when [completeMFASetup] returns success for the pending setup of
    user [u] with candidate secret [s], the secret store then maps [u] to
    [s] (a lookup returns it), the pending record is gone, and the
    session that posted the code to /mfa-setup is authenticated, its
    [passwordVerified] flag and its setup id cleared. *)
Theorem C7_setup_completion
    (st : MFA.State) (sess : Auth.Session) (setupId token : string)
    (setup : MFA.Setup) (r : MFA.CompleteResult) :
  MFA.pendingSetups st !! setupId = Some setup ->
  Auth.passwordVerified sess = true ->
  Auth.mfaSetupId sess = Some setupId ->
  setupId <> EmptyString ->
  MFA.result (MFA.completeMFASetup setupId token st) = Ret r ->
  MFA.success r = true ->
  let st' := MFA.state_of (MFA.completeMFASetup setupId token st) in
  MFA.userSecrets st' !! MFA.username setup = Some (MFA.secret setup)
  /\ MFA.result (MFA.userSecrets_get (MFA.username setup) st')
     = Ret (Some (MFA.secret setup))
  /\ MFA.pendingSetups st' !! setupId = None
  /\ exists sess',
       MFA.result (Auth.postMfaSetup sess token st) = Ret (Redirect "/", sess')
       /\ MFA.state_of (Auth.postMfaSetup sess token st) = st'
       /\ Auth.authenticated sess' = true
       /\ Auth.passwordVerified sess' = false
       /\ Auth.mfaSetupId sess' = None.
Proof.
  intros Hsetup Hpv Hid Hne Hres Hok st'.
  pose proof (Heq := completeMFASetup_eq setupId token st).
  fold st' in Heq. rewrite Hres in Heq. clearbody st'.
  assert (Hst' : st' = MFA.mkState (delete setupId (MFA.pendingSetups st))
                         (<[MFA.username setup := MFA.secret setup]> (MFA.userSecrets st))
                         (MFA.timers st) (MFA.clock st)).
  { unfold completeMFASetup_outcome in Heq. rewrite Hsetup in Heq.
    destruct (negb _); [injection Heq as Hr _; subst r; discriminate|].
    destruct (Speakeasy.totp_verify _ _ _ _) as [[|]|e];
      [injection Heq as _ Hs; exact Hs
      | injection Heq as Hr _; subst r; discriminate
      | discriminate]. }
  assert (Hlook : MFA.userSecrets st' !! MFA.username setup = Some (MFA.secret setup)).
  { rewrite Hst'. cbn [MFA.userSecrets]. apply lookup_insert_eq. }
  split; [exact Hlook|]. split.
  { destruct st'. unfold_m. cbn [MFA.userSecrets] in Hlook. rewrite Hlook. reflexivity. }
  split.
  { rewrite Hst'. cbn [MFA.pendingSetups]. apply lookup_delete_eq. }
  exists (Auth.mkSession true false (Auth.username sess) (Auth.username sess) None).
  assert (Hrun : exists tr,
            MFA.completeMFASetup setupId token st = (Ret r, st', tr)).
  { pose proof (Heq' := completeMFASetup_eq setupId token st).
    rewrite <- Heq in Heq'. unfold MFA.result, MFA.state_of in Heq'.
    destruct (MFA.completeMFASetup setupId token st) as [[jr s1] tr1].
    cbn in Heq'. injection Heq' as -> ->. eauto. }
  destruct Hrun as [tr Hrun].
  assert (Hpost : exists tr',
    Auth.postMfaSetup sess token st
    = (Ret (Redirect "/",
            Auth.mkSession true false (Auth.username sess) (Auth.username sess) None),
       st', tr')).
  { unfold Auth.postMfaSetup. eexists.
    eapply bind_run; [reflexivity | cbn beta].
    rewrite Hpv, Hid, (truthy_Some _ Hne). cbn [negb orb].
    eapply bind_run; [reflexivity | cbn beta].
    eapply bind_run; [exact Hrun | cbn beta].
    rewrite Hok. reflexivity. }
  destruct Hpost as [tr' Hpost]. rewrite Hpost.
  repeat split; reflexivity.
Qed.

Lemma C7_witness :
  let secret := "GEZDGNBVGY3TQOJQGEZDGNBVGY3TQOJQ" in
  let setup := MFA.mkSetup "bob" secret 1735734000000 in
  let st := MFA.mkState {[ "id-1" := setup ]} ∅ [(1735735800000, "id-1")] 1735734540000 in
  let sess := Auth.mkSession false true (Some "bob") None (Some "id-1") in
  let st' := MFA.state_of (MFA.completeMFASetup "id-1" "127086" st) in
  MFA.result (MFA.completeMFASetup "id-1" "127086" st) = Ret (MFA.mkResult true None)
  /\ MFA.userSecrets st' !! "bob" = Some secret
  /\ MFA.pendingSetups st' !! "id-1" = None
  /\ exists sess',
       MFA.result (Auth.postMfaSetup sess "127086" st) = Ret (Redirect "/", sess')
       /\ Auth.authenticated sess' = true
       /\ Auth.passwordVerified sess' = false
       /\ Auth.mfaSetupId sess' = None.
Proof.
  intros secret setup st sess st'.
  assert (Hres : MFA.result (MFA.completeMFASetup "id-1" "127086" st)
                 = Ret (MFA.mkResult true None)) by (vm_compute; reflexivity).
  destruct (C7_setup_completion st sess "id-1" "127086" setup (MFA.mkResult true None))
    as (Hget & _ & Hgone & sess' & Hpost & _ & Ha & Hp & Hm);
    [reflexivity | reflexivity | reflexivity | discriminate | exact Hres | reflexivity |].
  split; [exact Hres|]. split; [exact Hget|]. split; [exact Hgone|].
  exists sess'. auto.
Defined.

(** ** The acceptance window *)

Lemma window_offsets_2 : Speakeasy.window_offsets 2 = [-2; -1; 0; 1; 2].
Proof. reflexivity. Qed.

Lemma verifyToken_with_secret st user secret key token :
  MFA.userSecrets st !! user = Some secret ->
  secret <> EmptyString ->
  Speakeasy.base32_decode secret = Some key ->
  String.length (strip_non_digits token) = 6%nat ->
  MFA.result (MFA.verifyToken user token st)
  = Ret (existsb
           (fun i => String.eqb
                       (Speakeasy.hotp key
                          (Speakeasy.counter_of (MFA.clock st / 1000) + i))
                       (strip_non_digits token))
           [-2; -1; 0; 1; 2]).
Proof.
  intros Hsec Hne Hkey Hlen. destruct st as [p u tm c].
  cbn [MFA.userSecrets MFA.clock] in *.
  unfold MFA.verifyToken. unfold_m. rewrite Hsec, (truthy_Some _ Hne). cbn [negb default].
  rewrite Hlen. cbn [Nat.eqb negb]. unfold id.
  unfold Speakeasy.totp_verify, Speakeasy.totp. rewrite Hkey, window_offsets_2.
  reflexivity.
Qed.

(** C5 (as amended): the code generated at step [s] is accepted at every
    time whose step lies in [s-2, s+2].  At any time, the code is
    accepted exactly when it equals the code of one of the five steps
    around that time; so at a step outside [s-2, s+2] it is rejected
    unless the code of step [s] is also the code of one of those steps. *)
Theorem C5_acceptance_window
    (st_gen st_ver : MFA.State) (user secret : string) (key : list Z) (code : string) :
  Speakeasy.base32_decode secret = Some key ->
  secret <> EmptyString ->
  MFA.userSecrets st_ver !! user = Some secret ->
  MFA.result (MFA.generateCurrentToken secret st_gen) = Ret code ->
  let s := Speakeasy.counter_of (MFA.clock st_gen / 1000) in
  let s' := Speakeasy.counter_of (MFA.clock st_ver / 1000) in
  (s - 2 <= s' <= s + 2 ->
     MFA.result (MFA.verifyToken user code st_ver) = Ret true)
  /\ (MFA.result (MFA.verifyToken user code st_ver) = Ret true
      <-> exists i, -2 <= i <= 2 /\ Speakeasy.hotp key (s' + i) = code)
  /\ (MFA.result (MFA.verifyToken user code st_ver) = Ret false
      <-> forall i, -2 <= i <= 2 -> Speakeasy.hotp key (s' + i) <> code).
Proof.
  intros Hkey Hne Hsec Hgen s s'.
  assert (Hcode : code = Speakeasy.hotp key s).
  { destruct st_gen as [p u tm c]. revert Hgen.
    unfold MFA.generateCurrentToken. unfold_m.
    unfold Speakeasy.totp. rewrite Hkey. cbn. intros [= <-]. reflexivity. }
  assert (Hclean : strip_non_digits code = code) by (rewrite Hcode; apply hotp_clean).
  assert (Hlen : String.length (strip_non_digits code) = 6%nat)
    by (rewrite Hclean, Hcode; apply hotp_length).
  rewrite (verifyToken_with_secret st_ver user secret key code Hsec Hne Hkey Hlen).
  rewrite Hclean. fold s'.
  set (hit := fun i : Z => String.eqb (Speakeasy.hotp key (s' + i)) code).
  assert (Hex : existsb hit [-2; -1; 0; 1; 2] = true
                <-> exists i, -2 <= i <= 2 /\ Speakeasy.hotp key (s' + i) = code).
  { rewrite existsb_exists. unfold hit. split.
    - intros (i & Hin & Heq). exists i. apply String.eqb_eq in Heq.
      split; [|exact Heq]. cbn in Hin. lia.
    - intros (i & Hi & Heq). exists i. split.
      + cbn. lia.
      + apply String.eqb_eq. exact Heq. }
  split; [|split].
  - intros Hwin. f_equal. apply Hex. exists (s - s'). split; [lia|].
    rewrite Hcode. f_equal. lia.
  - rewrite <- Hex. split; intros H; congruence.
  - split.
    + intros Hfalse i Hi Heq.
      assert (Htrue : existsb hit [-2; -1; 0; 1; 2] = true) by (apply Hex; eauto).
      congruence.
    + intros Hall. f_equal. apply not_true_is_false. intros Htrue.
      apply Hex in Htrue as (i & Hi & Heq). exact (Hall i Hi Heq).
Qed.

Lemma C5_witness :
  let secret := "GEZDGNBVGY3TQOJQGEZDGNBVGY3TQOJQ" in
  let st_gen := MFA.mkState ∅ ∅ [] 1735734540000 in
  let st_ver := MFA.mkState ∅ {[ "bob" := secret ]} [] 1735734599000 in
  MFA.result (MFA.generateCurrentToken secret st_gen) = Ret "127086"
  /\ MFA.result (MFA.verifyToken "bob" "127086" st_ver) = Ret true.
Proof.
  intros secret st_gen st_ver.
  assert (Hgen : MFA.result (MFA.generateCurrentToken secret st_gen) = Ret "127086")
    by (vm_compute; reflexivity).
  split; [exact Hgen|].
  destruct (C5_acceptance_window st_gen st_ver "bob" secret
              (ascii_bytes "12345678901234567890") "127086") as [Hacc _];
    [vm_compute; reflexivity | discriminate | reflexivity | exact Hgen |].
  apply Hacc. vm_compute. split; discriminate.
Defined.

(** The code of step 57857818 is also the code of step 57858016, 198
    steps later: generated at the first, it is accepted at the second,
    which lies outside [s-2, s+2]. *)
Lemma C5_counterexample :
  let secret := "GEZDGNBVGY3TQOJQGEZDGNBVGY3TQOJQ" in
  let st_gen := MFA.mkState ∅ ∅ [] 1735734540000 in
  let st_ver := MFA.mkState ∅ {[ "bob" := secret ]} [] 1735740480000 in
  let s := Speakeasy.counter_of (MFA.clock st_gen / 1000) in
  let s' := Speakeasy.counter_of (MFA.clock st_ver / 1000) in
  MFA.result (MFA.generateCurrentToken secret st_gen) = Ret "127086"
  /\ s = 57857818 /\ s' = 57858016
  /\ ~ (s - 2 <= s' <= s + 2)
  /\ MFA.result (MFA.verifyToken "bob" "127086" st_ver) = Ret true
  /\ MFA.result (MFA.verifyToken "bob" "127086" st_ver) <> Ret false.
Proof.
  intros secret st_gen st_ver s s'.
  assert (Hver : MFA.result (MFA.verifyToken "bob" "127086" st_ver) = Ret true)
    by (vm_compute; reflexivity).
  split; [vm_compute; reflexivity|].
  split; [reflexivity|]. split; [reflexivity|].
  split; [vm_compute; intros [H1 H2]; congruence|].
  split; [exact Hver|]. rewrite Hver. discriminate.
Qed.

(** ** The setup registry over a history of calls *)

Section Registry.

Import MFA.

Lemma elem_of_setupsOf user (m : gmap string Setup) k :
  k ∈ setupsOf user m <-> exists s, m !! k = Some s /\ username s = user.
Proof.
  unfold setupsOf. rewrite list_elem_of_fmap. split.
  - intros ([k' s] & -> & Hin). apply list_elem_of_filter in Hin as [Hu Hin].
    apply elem_of_map_to_list in Hin. eauto.
  - intros (s & Hk & Hu). exists (k, s). split; [reflexivity|].
    apply list_elem_of_filter. split; [exact Hu|]. by apply elem_of_map_to_list.
Qed.

Lemma lookup_cleanup user (m : gmap string Setup) k s :
  delete_all (fun k => k) (setupsOf user m) m !! k = Some s
  <-> m !! k = Some s /\ username s <> user.
Proof.
  rewrite lookup_delete_all, list_fmap_id, elem_of_setupsOf. split.
  - intros [Hk Hno]. split; [exact Hk|]. intros Hu. apply Hno. eauto.
  - intros [Hk Hu]. split; [exact Hk|]. intros (s' & Hk' & Hu'). congruence.
Qed.

Lemma bind_mret_state {A B} (m : M A) (g : A -> B) st :
  state_of ((a ← m; mret (g a)) st) = state_of (m st).
Proof.
  unfold mbind, M_bind. destruct (m st) as [[[a|e] st1] tr1]; reflexivity.
Qed.

Lemma generateSecret_state d user st :
  state_of (generateSecret d user st)
  = mkState (<[uuid d := mkSetup user (base32 d) (clock st)]>
               (delete_all (fun k => k) (setupsOf user (pendingSetups st))
                  (pendingSetups st)))
            (userSecrets st)
            (timers st ++ [(clock st + 30 * 60 * 1000, uuid d)])
            (clock st).
Proof. destruct (generateSecret_run d user st) as [tr ->]. reflexivity. Qed.

Lemma completeMFASetup_state setupId token st :
  state_of (completeMFASetup setupId token st) = st
  \/ exists setup,
       pendingSetups st !! setupId = Some setup
       /\ state_of (completeMFASetup setupId token st)
          = mkState (delete setupId (pendingSetups st))
                    (<[username setup := secret setup]> (userSecrets st))
                    (timers st) (clock st).
Proof.
  pose proof (Heq := completeMFASetup_eq setupId token st).
  unfold completeMFASetup_outcome in Heq.
  destruct (pendingSetups st !! setupId) as [setup|]; [|left; congruence].
  destruct (negb _); [left; congruence|].
  destruct (Speakeasy.totp_verify _ _ _ _) as [[|]|e]; [|left; congruence..].
  right. exists setup. split; [reflexivity | congruence].
Qed.

(** A call adds no entry to [pendingSetups] but the one [generateSecret]
    sets under its fresh id, and removes no timer. *)
Lemma perform_pending c st k s :
  pendingSetups (state_of (perform c st)) !! k = Some s ->
  (pendingSetups st !! k = Some s
   /\ forall d user, c = CallGenerate d user -> username s <> user)
  \/ exists d user,
       c = CallGenerate d user /\ uuid d = k
       /\ s = mkSetup user (base32 d) (clock st).
Proof.
  destruct c as [d user|setupId token|user|user token|user]; cbn [perform];
    rewrite bind_mret_state.
  - rewrite generateSecret_state. cbn [pendingSetups].
    destruct (decide (uuid d = k)) as [<-|Hne].
    + rewrite lookup_insert_eq. intros [= <-]. right. eauto.
    + rewrite lookup_insert_ne by done. rewrite lookup_cleanup.
      intros [Hk Hu]. left. split; [exact Hk|]. intros d' u' [= _ <-]. exact Hu.
  - destruct (completeMFASetup_state setupId token st) as [-> | (setup & _ & ->)].
    + intros Hk. left. split; [exact Hk | discriminate].
    + cbn [pendingSetups]. intros Hk. left. split; [|discriminate].
      destruct (decide (setupId = k)) as [->|Hne].
      * rewrite lookup_delete_eq in Hk. discriminate.
      * by rewrite lookup_delete_ne in Hk.
  - rewrite cleanupUserSetups_eq. cbn [state_of fst snd pendingSetups].
    rewrite lookup_cleanup. intros [Hk _]. left. split; [exact Hk | discriminate].
  - rewrite verifyToken_state. intros Hk. left. split; [exact Hk | discriminate].
  - rewrite resetMFA_state. cbn [pendingSetups].
    intros Hk. left. split; [exact Hk | discriminate].
Qed.

Lemma perform_timers c st p :
  p ∈ timers st -> p ∈ timers (state_of (perform c st)).
Proof.
  destruct c as [d user|setupId token|user|user token|user]; cbn [perform];
    rewrite bind_mret_state.
  - rewrite generateSecret_state. cbn [timers]. rewrite elem_of_app. tauto.
  - destruct (completeMFASetup_state setupId token st) as [-> | (setup & _ & ->)];
      [tauto | cbn [timers]; tauto].
  - rewrite cleanupUserSetups_eq. cbn. tauto.
  - rewrite verifyToken_state. tauto.
  - rewrite resetMFA_state. cbn. tauto.
Qed.

Lemma advance_pending t st k s :
  pendingSetups (state_of (advance t st)) !! k = Some s
  <-> pendingSetups st !! k = Some s
      /\ forall due, (due, k) ∈ timers st -> t < due.
Proof.
  rewrite advance_eq. cbn [state_of fst snd pendingSetups].
  rewrite lookup_delete_all, list_elem_of_fmap. split.
  - intros [Hk Hno]. split; [exact Hk|]. intros due Hin.
    destruct (decide (due <= t)) as [Hle|Hgt]; [|lia].
    exfalso. apply Hno. exists (due, k). split; [reflexivity|].
    apply list_elem_of_filter. split; [exact Hle | exact Hin].
  - intros [Hk Hlate]. split; [exact Hk|].
    intros ([due k'] & Hk' & Hin). cbn in Hk'. subst k'.
    apply list_elem_of_filter in Hin as [Hle Hin]. cbn in Hle.
    specialize (Hlate due Hin). lia.
Qed.

Lemma advance_timers t st p :
  p ∈ timers (state_of (advance t st)) <-> p ∈ timers st /\ t < p.1.
Proof.
  rewrite advance_eq. cbn [state_of fst snd timers].
  rewrite list_elem_of_filter. split; intros [? ?]; split; try done; lia.
Qed.

Lemma advance_clock t st : clock (state_of (advance t st)) = t.
Proof. rewrite advance_eq. reflexivity. Qed.

(** An id that no call draws again is never put back. *)
Lemma step_keeps_absent k t c st :
  ~ draws k c ->
  pendingSetups st !! k = None ->
  pendingSetups (state_of (step t c st)) !! k = None.
Proof.
  intros Hdraw Hnone. destruct (step_state t c st) as [-> _].
  destruct (pendingSetups (state_of (perform c _)) !! k) as [s|] eqn:Hk; [|reflexivity].
  exfalso. apply perform_pending in Hk as [[Hk _] | (d & user & -> & Hd & _)].
  - apply advance_pending in Hk as [Hk _]. congruence.
  - apply Hdraw. exact Hd.
Qed.

Lemma run_app evs1 evs2 st : run (evs1 ++ evs2) st = run evs2 (run evs1 st).
Proof.
  revert st. induction evs1 as [|[t c] evs1 IH]; intros st; [reflexivity|].
  cbn [run app]. apply IH.
Qed.

Lemma run_invariant (P : State -> Prop) (Q : Call -> Prop) evs st :
  (forall t c st, Q c -> P st -> P (state_of (step t c st))) ->
  Forall (fun e => Q e.2) evs ->
  P st -> P (run evs st).
Proof.
  intros Hstep Hall. revert st.
  induction Hall as [|[t c] evs Hc _ IH]; intros st HP; [exact HP|].
  cbn [run]. apply IH, Hstep; [exact Hc | exact HP].
Qed.

Lemma complete_absent t setupId token st :
  pendingSetups (state_of (advance t st)) !! setupId = None ->
  result (step t (CallComplete setupId token) st)
  = Ret (ReplyComplete (mkResult false (Some "Invalid or expired setup"))).
Proof.
  intros Hnone. destruct (step_state t (CallComplete setupId token) st) as [_ ->].
  cbn [perform].
  pose proof (Heq := completeMFASetup_eq setupId token (state_of (advance t st))).
  unfold completeMFASetup_outcome in Heq. rewrite Hnone in Heq.
  unfold result, state_of in *. unfold mbind, M_bind.
  destruct (completeMFASetup setupId token _) as [[jr st1] tr1].
  cbn in Heq. injection Heq as -> _. reflexivity.
Qed.

Lemma one_per_user_shrink st st' :
  (forall k s, pendingSetups st' !! k = Some s -> pendingSetups st !! k = Some s) ->
  one_per_user st -> one_per_user st'.
Proof.
  intros Hsub Hinv k1 k2 s1 s2 H1 H2. apply (Hinv k1 k2 s1 s2); auto.
Qed.

Lemma advance_one_per_user t st :
  one_per_user st -> one_per_user (state_of (advance t st)).
Proof.
  apply one_per_user_shrink. intros k s Hk. by apply advance_pending in Hk as [Hk _].
Qed.

Lemma perform_one_per_user c st :
  one_per_user st -> one_per_user (state_of (perform c st)).
Proof.
  intros Hinv k1 k2 s1 s2 H1 H2 Hu.
  apply perform_pending in H1 as [[H1 N1] | (d1 & u1 & Hc1 & Hk1 & Hs1)];
    apply perform_pending in H2 as [[H2 N2] | (d2 & u2 & Hc2 & Hk2 & Hs2)].
  - exact (Hinv k1 k2 s1 s2 H1 H2 Hu).
  - exfalso. apply (N1 d2 u2 Hc2). rewrite Hu, Hs2. reflexivity.
  - exfalso. apply (N2 d1 u1 Hc1). rewrite <- Hu, Hs1. reflexivity.
  - congruence.
Qed.

Lemma step_one_per_user t c st :
  one_per_user st -> one_per_user (state_of (step t c st)).
Proof.
  intros Hinv. destruct (step_state t c st) as [-> _].
  apply perform_one_per_user, advance_one_per_user, Hinv.
Qed.

Lemma generate_arms_timer t d user st :
  timer_armed (uuid d) (t + 30 * 60 * 1000) (state_of (step t (CallGenerate d user) st)).
Proof.
  intros s _. destruct (step_state t (CallGenerate d user) st) as [-> _].
  cbn [perform]. rewrite bind_mret_state, generateSecret_state, advance_clock.
  cbn [timers]. exists (t + 30 * 60 * 1000). split; [lia|].
  rewrite elem_of_app, list_elem_of_singleton. by right.
Qed.

Lemma step_keeps_timer k deadline t c st :
  ~ draws k c ->
  timer_armed k deadline st -> timer_armed k deadline (state_of (step t c st)).
Proof.
  intros Hdraw Harmed s. destruct (step_state t c st) as [-> _]. intros Hk.
  apply perform_pending in Hk as [[Hk _] | (d & user & -> & Hd & _)];
    [|exfalso; exact (Hdraw Hd)].
  apply advance_pending in Hk as [Hk Hlate].
  destruct (Harmed s Hk) as (due & Hdue & Hin).
  exists due. split; [exact Hdue|].
  apply perform_timers, advance_timers. split; [exact Hin|]. exact (Hlate due Hin).
Qed.

Lemma expired_is_absent k deadline t st :
  timer_armed k deadline st -> deadline < t ->
  pendingSetups (state_of (advance t st)) !! k = None.
Proof.
  intros Harmed Hlate.
  destruct (pendingSetups (state_of (advance t st)) !! k) as [s|] eqn:Hk; [|reflexivity].
  apply advance_pending in Hk as [Hk Hnot].
  destruct (Harmed s Hk) as (due & Hdue & Hin). specialize (Hnot due Hin). lia.
Qed.

(** After a second [generateSecret] for the same user the first id is
    unknown. *)
Lemma second_generate_drops_first k t d user st :
  uuid d <> k ->
  (forall s, pendingSetups st !! k = Some s -> username s = user) ->
  pendingSetups (state_of (step t (CallGenerate d user) st)) !! k = None.
Proof.
  intros Hne Hown. destruct (step_state t (CallGenerate d user) st) as [-> _].
  destruct (pendingSetups (state_of (perform _ _)) !! k) as [s|] eqn:Hk; [|reflexivity].
  exfalso. apply perform_pending in Hk as [[Hk Hu] | (d' & u' & [= <- <-] & Hd & _)].
  - apply advance_pending in Hk as [Hk _]. exact (Hu d user eq_refl (Hown s Hk)).
  - exact (Hne Hd).
Qed.

Lemma step_keeps_owner k user t c st :
  ~ draws k c ->
  (forall s, pendingSetups st !! k = Some s -> username s = user) ->
  forall s, pendingSetups (state_of (step t c st)) !! k = Some s -> username s = user.
Proof.
  intros Hdraw Hown s. destruct (step_state t c st) as [-> _]. intros Hk.
  apply perform_pending in Hk as [[Hk _] | (d & u & -> & Hd & _)];
    [|exfalso; exact (Hdraw Hd)].
  apply advance_pending in Hk as [Hk _]. exact (Hown s Hk).
Qed.

Lemma generate_owner t d user st s :
  pendingSetups (state_of (step t (CallGenerate d user) st)) !! uuid d = Some s ->
  username s = user.
Proof.
  destruct (step_state t (CallGenerate d user) st) as [-> _].
  cbn [perform]. rewrite bind_mret_state, generateSecret_state. cbn [pendingSetups].
  rewrite lookup_insert_eq. intros [= <-]. reflexivity.
Qed.

End Registry.

(** C4: every operation of the registry, a timer firing included, keeps
    at most one pending setup per user; so does any history of calls
    from an empty registry.  After a second [generateSecret] for the
    same user, [completeMFASetup] on the id the first one returned
    answers 'Invalid or expired setup', whatever the code and whatever
    else was called in between or afterwards (ids being drawn afresh:
    no later [generateSecret] draws the first id again). *)
Theorem C4_one_pending_setup_per_user :
  (forall st t c, one_per_user st -> one_per_user (MFA.state_of (MFA.step t c st)))
  /\ (forall st t, one_per_user st -> one_per_user (MFA.state_of (MFA.advance t st)))
  /\ (forall secrets t0 evs, one_per_user (MFA.run evs (MFA.mkState ∅ secrets [] t0)))
  /\ (forall st t1 d1 user evs1 t2 d2 evs2 t token,
        MFA.uuid d2 <> MFA.uuid d1 ->
        Forall (fun e => ~ draws (MFA.uuid d1) e.2) evs1 ->
        Forall (fun e => ~ draws (MFA.uuid d1) e.2) evs2 ->
        MFA.result
          (MFA.step t (MFA.CallComplete (MFA.uuid d1) token)
             (MFA.run ((t1, MFA.CallGenerate d1 user) :: evs1
                         ++ (t2, MFA.CallGenerate d2 user) :: evs2) st))
        = Ret (MFA.ReplyComplete
                 (MFA.mkResult false (Some "Invalid or expired setup")))).
Proof.
  split; [exact (fun st t c => step_one_per_user t c st)|].
  split; [exact (fun st t => advance_one_per_user t st)|].
  split.
  { intros secrets t0 evs.
    apply (run_invariant one_per_user (fun _ => True)).
    - intros t c st _. apply step_one_per_user.
    - apply Forall_forall. auto.
    - intros k1 k2 s1 s2 H1. cbn in H1. rewrite lookup_empty in H1. discriminate. }
  intros st t1 d1 user evs1 t2 d2 evs2 t token Hne Hevs1 Hevs2.
  apply complete_absent.
  cbn [MFA.run]. rewrite run_app. cbn [MFA.run].
  set (st1 := MFA.state_of (MFA.step t1 (MFA.CallGenerate d1 user) st)).
  set (st2 := MFA.run evs1 st1).
  set (st3 := MFA.state_of (MFA.step t2 (MFA.CallGenerate d2 user) st2)).
  assert (Hown : forall s, MFA.pendingSetups st2 !! MFA.uuid d1 = Some s ->
                           MFA.username s = user).
  { apply (run_invariant
             (fun st => forall s, MFA.pendingSetups st !! MFA.uuid d1 = Some s ->
                                  MFA.username s = user)
             (fun c => ~ draws (MFA.uuid d1) c)).
    - intros t' c st' Hc. apply step_keeps_owner. exact Hc.
    - exact Hevs1.
    - intros s. apply generate_owner. }
  assert (Hgone : MFA.pendingSetups st3 !! MFA.uuid d1 = None)
    by (apply second_generate_drops_first; assumption).
  assert (Hend : MFA.pendingSetups (MFA.run evs2 st3) !! MFA.uuid d1 = None).
  { apply (run_invariant (fun st => MFA.pendingSetups st !! MFA.uuid d1 = None)
             (fun c => ~ draws (MFA.uuid d1) c)).
    - intros t' c st' Hc. apply step_keeps_absent. exact Hc.
    - exact Hevs2.
    - exact Hgone. }
  destruct (MFA.pendingSetups (MFA.state_of (MFA.advance t _)) !! MFA.uuid d1)
    as [s|] eqn:Hk; [|reflexivity].
  apply advance_pending in Hk as [Hk _]. congruence.
Qed.

Lemma C4_witness :
  let secret := "GEZDGNBVGY3TQOJQGEZDGNBVGY3TQOJQ" in
  let d1 := MFA.mkDrawn secret "otpauth://totp/bob" "id-1" in
  let d2 := MFA.mkDrawn secret "otpauth://totp/bob" "id-2" in
  let init := MFA.mkState ∅ ∅ [] 0 in
  one_per_user init
  /\ one_per_user (MFA.state_of (MFA.step 1735734000000 (MFA.CallGenerate d1 "bob") init))
  /\ MFA.result
       (MFA.step 1735734100000 (MFA.CallComplete "id-1" "724583")
          (MFA.run ((1735734000000, MFA.CallGenerate d1 "bob")
                      :: [(1735734030000, MFA.CallVerify "bob" "000000")]
                      ++ (1735734060000, MFA.CallGenerate d2 "bob")
                      :: [(1735734090000, MFA.CallCleanup "alice")]) init))
     = Ret (MFA.ReplyComplete (MFA.mkResult false (Some "Invalid or expired setup"))).
Proof.
  intros secret d1 d2 init.
  assert (Hinit : one_per_user init).
  { intros k1 k2 s1 s2 H1. cbn in H1. rewrite lookup_empty in H1. discriminate. }
  destruct C4_one_pending_setup_per_user as (Hstep & _ & _ & Hstale).
  split; [exact Hinit|]. split; [apply Hstep; exact Hinit|].
  apply (Hstale init 1735734000000 d1 "bob" _ 1735734060000 d2).
  - discriminate.
  - repeat constructor. intros H. exact H.
  - repeat constructor. intros H. exact H.
Defined.

(** When every callback runs before the first call that is handled
    after it is due, which is the schedule [MFA.run] follows, a setup
    cannot be completed later than thirty minutes after
    [generateSecret]. *)
Lemma expiry_with_punctual_callbacks
    (st : MFA.State) (t0 : Z) (d : MFA.Drawn) (user : string)
    (evs : list (Z * MFA.Call)) (t : Z) (token : string) :
  Forall (fun e => ~ draws (MFA.uuid d) e.2) evs ->
  t0 + 30 * 60 * 1000 < t ->
  MFA.result
    (MFA.step t (MFA.CallComplete (MFA.uuid d) token)
       (MFA.run ((t0, MFA.CallGenerate d user) :: evs) st))
  = Ret (MFA.ReplyComplete (MFA.mkResult false (Some "Invalid or expired setup"))).
Proof.
  intros Hevs Hlate. apply complete_absent.
  apply (expired_is_absent _ (t0 + 30 * 60 * 1000)); [|exact Hlate].
  cbn [MFA.run].
  apply (run_invariant (timer_armed (MFA.uuid d) (t0 + 30 * 60 * 1000))
           (fun c => ~ draws (MFA.uuid d) c)).
  - intros t' c st' Hc. apply step_keeps_timer. exact Hc.
  - exact Hevs.
  - apply generate_arms_timer.
Qed.

(** Before the thirty minutes are over the same setup completes. *)
Example setup_completes_before_expiry :
  let d1 := MFA.mkDrawn "GEZDGNBVGY3TQOJQGEZDGNBVGY3TQOJQ" "otpauth://totp/bob" "id-1" in
  MFA.result
    (MFA.step 1735734540000 (MFA.CallComplete "id-1" "127086")
       (MFA.run [(1735734000000, MFA.CallGenerate d1 "bob")] (MFA.mkState ∅ ∅ [] 0)))
  = Ret (MFA.ReplyComplete (MFA.mkResult true None)).
Proof. vm_compute. reflexivity. Qed.

(** ** Expiry under any schedule of the callbacks *)

Section ScheduleFacts.

Import MFA.

Lemma at_time_proj t c st :
  state_of (at_time t c st)
  = state_of (perform c (mkState (pendingSetups st) (userSecrets st) (timers st) t))
  /\ result (at_time t c st)
     = result (perform c (mkState (pendingSetups st) (userSecrets st) (timers st) t)).
Proof.
  unfold at_time, state_of, result. cbv [mbind M_bind get put].
  destruct (perform c _) as [[r st'] tr]. split; reflexivity.
Qed.

Lemma unregister_None p l : unregister p l = None -> p ∉ l.
Proof.
  induction l as [|q l IH]; cbn [unregister]; intros H.
  - apply not_elem_of_nil.
  - case_bool_decide as Hq; [discriminate|].
    destruct (unregister p l); [discriminate|].
    apply not_elem_of_cons. split; [congruence | auto].
Qed.

Lemma unregister_other p q l l' :
  q <> p -> q ∈ l -> unregister p l = Some l' -> q ∈ l'.
Proof.
  intros Hne. revert l'. induction l as [|x l IH]; intros l' Hin; cbn [unregister].
  - apply elem_of_nil in Hin. contradiction.
  - case_bool_decide as Hx.
    + intros [= <-]. apply elem_of_cons in Hin as [->|Hin]; [congruence | exact Hin].
    + destruct (unregister p l) as [l0|] eqn:E; cbn; [|discriminate]. intros [= <-].
      apply elem_of_cons in Hin as [->|Hin]; [left | right; apply IH; auto].
Qed.

Lemma fire_state due k st :
  state_of (fire due k st)
  = match unregister (due, k) (timers st) with
    | Some rest => mkState (delete k (pendingSetups st)) (userSecrets st) rest (clock st)
    | None => st
    end.
Proof.
  destruct st as [p u tm c]. unfold fire, expire. unfold_m.
  destruct (unregister (due, k) tm); reflexivity.
Qed.

(** An id that no event draws again is never put back. *)
Lemma occur_keeps_absent k e st :
  ~ redraws k e ->
  pendingSetups st !! k = None ->
  pendingSetups (state_of (occur e st)) !! k = None.
Proof.
  intros Hdraw Hnone. destruct e as [t c|due k']; cbn [occur]; rewrite bind_mret_state.
  - destruct (at_time_proj t c st) as [-> _].
    destruct (pendingSetups (state_of (perform c _)) !! k) as [s|] eqn:Hk; [|reflexivity].
    exfalso. apply perform_pending in Hk as [[Hk _] | (d & user & -> & Hd & _)].
    + cbn [pendingSetups] in Hk. congruence.
    + exact (Hdraw Hd).
  - rewrite fire_state. destruct (unregister _ _); [|exact Hnone]. cbn [pendingSetups].
    destruct (decide (k' = k)) as [->|Hne]; [apply lookup_delete_eq|].
    rewrite lookup_delete_ne by done. exact Hnone.
Qed.

(** A callback stays registered until it runs, and when it runs its
    setup is deleted. *)
Lemma occur_pending_or_gone p e st :
  ~ redraws p.2 e ->
  pending_or_gone p st -> pending_or_gone p (state_of (occur e st)).
Proof.
  intros Hdraw [Hin|Hnone]; [|right; apply occur_keeps_absent; assumption].
  destruct e as [t c|due k']; cbn [occur]; rewrite bind_mret_state.
  - left. destruct (at_time_proj t c st) as [-> _]. apply perform_timers. exact Hin.
  - rewrite fire_state.
    destruct (unregister (due, k') (timers st)) as [rest|] eqn:E; [|left; exact Hin].
    destruct (decide (p = (due, k'))) as [->|Hne].
    + right. cbn [pendingSetups snd]. apply lookup_delete_eq.
    + left. cbn [timers]. exact (unregister_other _ _ _ _ Hne Hin E).
Qed.

Lemma fired_is_absent due k st :
  pending_or_gone (due, k) st ->
  pendingSetups (state_of (occur (Fired due k) st)) !! k = None.
Proof.
  intros Hinv. cbn [occur]. rewrite bind_mret_state, fire_state.
  destruct (unregister (due, k) (timers st)) as [rest|] eqn:E.
  - cbn [pendingSetups]. apply lookup_delete_eq.
  - destruct Hinv as [Hin|Hnone]; [|exact Hnone].
    exfalso. exact (unregister_None _ _ E Hin).
Qed.

Lemma generate_registers t0 d user st :
  (t0 + 30 * 60 * 1000, uuid d)
  ∈ timers (state_of (occur (Called t0 (CallGenerate d user)) st)).
Proof.
  cbn [occur]. rewrite bind_mret_state.
  destruct (at_time_proj t0 (CallGenerate d user) st) as [-> _].
  cbn [perform]. rewrite bind_mret_state, generateSecret_state. cbn [timers clock].
  rewrite elem_of_app, list_elem_of_singleton. by right.
Qed.

Lemma play_app evs1 evs2 st : play (evs1 ++ evs2) st = play evs2 (play evs1 st).
Proof.
  revert st. induction evs1 as [|e evs1 IH]; intros st; [reflexivity|].
  cbn [play app]. apply IH.
Qed.

Lemma play_invariant (P : State -> Prop) (Q : Event -> Prop) evs st :
  (forall e st, Q e -> P st -> P (state_of (occur e st))) ->
  Forall Q evs ->
  P st -> P (play evs st).
Proof.
  intros Hstep Hall. revert st.
  induction Hall as [|e evs He _ IH]; intros st HP; [exact HP|].
  cbn [play]. apply IH, Hstep; [exact He | exact HP].
Qed.

Lemma at_time_complete_absent t k token st :
  pendingSetups st !! k = None ->
  result (at_time t (CallComplete k token) st)
  = Ret (ReplyComplete (mkResult false (Some "Invalid or expired setup"))).
Proof.
  intros Hnone. destruct (at_time_proj t (CallComplete k token) st) as [_ ->].
  cbn [perform].
  pose proof (Heq := completeMFASetup_eq k token
                       (mkState (pendingSetups st) (userSecrets st) (timers st) t)).
  unfold completeMFASetup_outcome in Heq. cbn [pendingSetups] in Heq.
  rewrite Hnone in Heq.
  unfold result, state_of in *. unfold mbind, M_bind.
  destruct (completeMFASetup k token _) as [[jr st2] tr2].
  cbn in Heq. injection Heq as -> _. reflexivity.
Qed.

End ScheduleFacts.

(** C3, as the code has it: expiry is the work of the callback that
    [generateSecret] registers with a delay of thirty minutes.  Once
    that callback has run, whenever the event loop ran it,
    [completeMFASetup] answers 'Invalid or expired setup' for the setup
    id, for every code, the right one included, at every later time and
    whatever else was called or ran in between (no later
    [generateSecret] drawing the same id again). *)
Theorem C3_setup_expires
    (st : MFA.State) (t0 : Z) (d : MFA.Drawn) (user : string)
    (before after : list MFA.Event) (t : Z) (token : string) :
  Forall (fun e => ~ redraws (MFA.uuid d) e) before ->
  Forall (fun e => ~ redraws (MFA.uuid d) e) after ->
  MFA.result
    (MFA.at_time t (MFA.CallComplete (MFA.uuid d) token)
       (MFA.play (MFA.Called t0 (MFA.CallGenerate d user)
                    :: before ++ MFA.Fired (t0 + 30 * 60 * 1000) (MFA.uuid d) :: after)
          st))
  = Ret (MFA.ReplyComplete (MFA.mkResult false (Some "Invalid or expired setup"))).
Proof.
  intros Hbefore Hafter. apply at_time_complete_absent.
  cbn [MFA.play]. rewrite play_app. cbn [MFA.play].
  set (p := (t0 + 30 * 60 * 1000, MFA.uuid d)).
  set (st1 := MFA.state_of (MFA.occur (MFA.Called t0 (MFA.CallGenerate d user)) st)).
  assert (Hinv : pending_or_gone p (MFA.play before st1)).
  { apply (play_invariant (pending_or_gone p) (fun e => ~ redraws (MFA.uuid d) e)).
    - intros e st' He. exact (occur_pending_or_gone p e st' He).
    - exact Hbefore.
    - left. apply generate_registers. }
  apply (play_invariant (fun st => MFA.pendingSetups st !! MFA.uuid d = None)
           (fun e => ~ redraws (MFA.uuid d) e)).
  - intros e st' He. apply occur_keeps_absent. exact He.
  - exact Hafter.
  - apply fired_is_absent. exact Hinv.
Qed.

Lemma C3_witness :
  let secret := "GEZDGNBVGY3TQOJQGEZDGNBVGY3TQOJQ" in
  let d1 := MFA.mkDrawn secret "otpauth://totp/bob" "id-1" in
  let d2 := MFA.mkDrawn secret "otpauth://totp/alice" "id-2" in
  let before := [MFA.Called 1735734060000 (MFA.CallVerify "bob" "000000")] in
  let after := [MFA.Called 1735735800003 (MFA.CallGenerate d2 "alice")] in
  Speakeasy.totp_verify secret "584613" 2 (1735735800005 / 1000) = Ret true
  /\ MFA.result
       (MFA.at_time 1735735800005 (MFA.CallComplete "id-1" "584613")
          (MFA.play (MFA.Called 1735734000000 (MFA.CallGenerate d1 "bob")
                       :: before
                       ++ MFA.Fired (1735734000000 + 30 * 60 * 1000) "id-1" :: after)
             (MFA.mkState ∅ ∅ [] 0)))
     = Ret (MFA.ReplyComplete (MFA.mkResult false (Some "Invalid or expired setup"))).
Proof.
  intros secret d1 d2 before after.
  split; [vm_compute; reflexivity|].
  apply (C3_setup_expires (MFA.mkState ∅ ∅ [] 0) 1735734000000 d1 "bob" before after
           1735735800005 "584613").
  - repeat constructor. intros H. exact H.
  - repeat constructor. cbn. discriminate.
Defined.

(** Age alone does not expire a setup: [completeMFASetup] does not look
    at the [timestamp] of the record.  More than thirty minutes after
    [generateSecret], with the callback not yet run, the right code
    completes the setup. *)
Lemma C3_counterexample :
  let secret := "GEZDGNBVGY3TQOJQGEZDGNBVGY3TQOJQ" in
  let d1 := MFA.mkDrawn secret "otpauth://totp/bob" "id-1" in
  let t0 := 1735734000000 in
  let t := 1735735800001 in
  let reply :=
    MFA.result
      (MFA.at_time t (MFA.CallComplete "id-1" "584613")
         (MFA.play [MFA.Called t0 (MFA.CallGenerate d1 "bob")] (MFA.mkState ∅ ∅ [] 0))) in
  t0 + 30 * 60 * 1000 < t
  /\ reply = Ret (MFA.ReplyComplete (MFA.mkResult true None))
  /\ reply <> Ret (MFA.ReplyComplete
                     (MFA.mkResult false (Some "Invalid or expired setup"))).
Proof.
  intros secret d1 t0 t reply.
  assert (Hreply : reply = Ret (MFA.ReplyComplete (MFA.mkResult true None)))
    by (vm_compute; reflexivity).
  split; [subst t0 t; lia|]. split; [exact Hreply|]. rewrite Hreply. discriminate.
Qed.

(** ** The admission gate *)

(** What the second middleware alone decides for a public path. *)
Lemma smartProxy_public publicPaths req :
  Gate.isPublicPath publicPaths (Gate.path req) = true ->
  Gate.smartProxy publicPaths req = Ret None.
Proof.
  intros Hpub. unfold Gate.smartProxy. rewrite Hpub.
  destruct (_ || _); reflexivity.
Qed.

(** What the first middleware decides for a session that is not
    authenticated, outside /auth. *)
Lemma requireLogin_redirects req sess :
  Gate.session req = Some sess ->
  Auth.authenticated sess = false ->
  startsWith (Gate.path req) "/auth" = false ->
  Gate.requireLogin req = Ret (Some (Redirect "/auth/login")).
Proof.
  intros Hs Ha Hp. unfold Gate.requireLogin. rewrite Hs, Ha, Hp. reflexivity.
Qed.

(** Every request of a session that is not authenticated, outside /auth
    and not for a local route, is redirected by the first middleware,
    whatever the list of public paths. *)
Lemma app_redirects_unauthenticated publicPaths req sess :
  Gate.session req = Some sess ->
  Auth.authenticated sess = false ->
  startsWith (Gate.path req) "/auth" = false ->
  Gate.statusRoutes req = Ret None ->
  Gate.authRouter req = Ret None ->
  Gate.app publicPaths req = Ret (Redirect "/auth/login").
Proof.
  intros Hs Ha Hp Hstatus Hauth. unfold Gate.app. cbn [Gate.chain].
  rewrite Hstatus, Hauth, (requireLogin_redirects req sess Hs Ha Hp). reflexivity.
Qed.

(** C1: the request GET /public/x of a session that is not
    authenticated, with the public paths ["/public"] (and with the
    default list).  The path is public and the middleware that tells
    public from private paths lets it through; the application answers
    with a redirect to the login page all the same, from the middleware
    registered before that one. *)
Theorem C1_public_path_is_redirected :
  let req := Gate.mkRequest Gate.GET "/public/x" None None (Some Auth.anonymous) in
  Gate.isPublicPath ["/public"] (Gate.path req) = true
  /\ Gate.smartProxy ["/public"] req = Ret None
  /\ Gate.proxyMiddleware req = Ret (Some Proxied)
  /\ Gate.requireLogin req = Ret (Some (Redirect "/auth/login"))
  /\ Gate.app ["/public"] req = Ret (Redirect "/auth/login")
  /\ Gate.app Gate.defaultPublicPaths req = Ret (Redirect "/auth/login").
Proof. repeat split; reflexivity. Qed.

(** C2: a WebSocket handshake for /private without an authenticated
    session.  The listener of the server's upgrade event hands it to the
    proxy, which relays it: no session is looked at.  Sent through the
    application, the same request is redirected to the login page by the
    first middleware; the 401 of the second one is not reached. *)
Theorem C2_unauthenticated_upgrade :
  let handshake s := Gate.mkRequest Gate.GET "/private" None (Some "websocket") s in
  Gate.isPublicPath Gate.defaultPublicPaths "/private" = false
  /\ Gate.onUpgrade (handshake None) = Gate.UpgradeProxied
  /\ Gate.onUpgrade (handshake (Some Auth.anonymous)) = Gate.UpgradeProxied
  /\ Gate.smartProxy Gate.defaultPublicPaths (handshake (Some Auth.anonymous))
     = Ret (Some (Empty 401))
  /\ Gate.app Gate.defaultPublicPaths (handshake (Some Auth.anonymous))
     = Ret (Redirect "/auth/login").
Proof. repeat split; reflexivity. Qed.

(** When PUBLIC_PATHS is set to a text that [JSON.parse] rejects,
    [getPublicPaths] returns the default list; and whatever the variable
    holds, and whatever [JSON.parse] does with it, [getPublicPaths]
    returns: it never throws while the application starts. *)
Lemma getPublicPaths_falls_back
    (JSON_parse : string -> Js Json.json) (text : string) (e : string) :
  JSON_parse text = Throw e ->
  Gate.getPublicPaths JSON_parse (Some text)
  = Ret (Json.JArr
           [ Json.JStr "/api/auth"; Json.JStr "/login"; Json.JStr "/register";
             Json.JStr "/public"; Json.JStr "/assets"; Json.JStr "/static";
             Json.JStr "/favicon.ico"; Json.JStr "/robots.txt" ])
  /\ Json.to_paths (Json.of_paths Gate.defaultPublicPaths)
     = Some [ "/api/auth"; "/login"; "/register"; "/public"; "/assets"; "/static";
              "/favicon.ico"; "/robots.txt" ]
  /\ forall env, exists v, Gate.getPublicPaths JSON_parse env = Ret v.
Proof.
  intros Hbad.
  assert (Hdef : Gate.getPublicPaths JSON_parse (Some text)
                 = Ret (Json.of_paths Gate.defaultPublicPaths)).
  { unfold Gate.getPublicPaths. destruct (truthy (Some text)); [|reflexivity].
    cbn [default]. unfold id. rewrite Hbad. reflexivity. }
  split; [exact Hdef|]. split; [reflexivity|].
  intros env. unfold Gate.getPublicPaths.
  destruct (truthy env); [|eauto].
  destruct (JSON_parse (default EmptyString env)); cbn; eauto.
Qed.

(** A text that parses is used as it is, whatever value it denotes. *)
Lemma getPublicPaths_keeps_parsed (JSON_parse : string -> Js Json.json) text v :
  text <> EmptyString ->
  JSON_parse text = Ret v ->
  Gate.getPublicPaths JSON_parse (Some text) = Ret v.
Proof.
  intros Hne Hv. unfold Gate.getPublicPaths. rewrite (truthy_Some _ Hne).
  cbn [default]. unfold id. rewrite Hv. reflexivity.
Qed.

Example json_parse_array : Json.parse " [1, [true, null], {}] "
  = Ret (Json.JArr [Json.JNum "1"; Json.JArr [Json.JBool true; Json.JNull]; Json.JObj []]).
Proof. vm_compute. reflexivity. Qed.

Example getPublicPaths_syntax_error :
  Json.parse "/public,/login" = Throw "SyntaxError"
  /\ Gate.getPublicPaths Json.parse (Some "/public,/login")
     = Ret (Json.of_paths Gate.defaultPublicPaths).
Proof.
  split; [reflexivity|].
  apply (getPublicPaths_falls_back Json.parse "/public,/login" "SyntaxError").
  reflexivity.
Qed.

(** C9: the fallback covers the texts that [JSON.parse] rejects and no
    others.  PUBLIC_PATHS set to [null], to [42], to [{}] or to a quoted
    string is malformed as a list of paths, yet [getPublicPaths] returns
    the value parsed, not the default list: none of these values is an
    array, so none can be read as a list of paths. *)
Theorem C9_public_paths_not_validated :
  let defaults := Json.of_paths Gate.defaultPublicPaths in
  Gate.getPublicPaths Json.parse (Some "null") = Ret Json.JNull
  /\ Gate.getPublicPaths Json.parse (Some "42") = Ret (Json.JNum "42")
  /\ Gate.getPublicPaths Json.parse (Some "{}") = Ret (Json.JObj [])
  /\ Gate.getPublicPaths Json.parse (Some (String "034"%char ("/public" +:+ String "034"%char EmptyString)))
     = Ret (Json.JStr "/public")
  /\ Forall (fun v => v <> defaults /\ Json.to_paths v = None)
            [Json.JNull; Json.JNum "42"; Json.JObj []; Json.JStr "/public"]
  /\ Json.to_paths defaults
     = Some [ "/api/auth"; "/login"; "/register"; "/public"; "/assets"; "/static";
              "/favicon.ico"; "/robots.txt" ].
Proof.
  intros defaults.
  split; [vm_compute; reflexivity|]. split; [vm_compute; reflexivity|].
  split; [vm_compute; reflexivity|]. split; [vm_compute; reflexivity|].
  split; [|reflexivity].
  repeat constructor; discriminate.
Qed.

(** ** The login route *)

(** C8: two failed submissions, whatever makes each of them fail (the
    username, the password, a field that is missing), get the same
    response, a redirect to /auth/login?error=1, and leave the session
    and the manager as they were: [passwordVerified] and [username] keep
    the values they had. *)
Theorem C8_failed_logins_look_alike
    (bcrypt_compare : string -> string -> bool)
    (validUsername validPasswordHash : string)
    (sess : Auth.Session) (st : MFA.State) (b1 b2 : Auth.LoginBody) :
  login_fails bcrypt_compare validUsername validPasswordHash b1 ->
  login_fails bcrypt_compare validUsername validPasswordHash b2 ->
  let run b :=
    Auth.postLogin bcrypt_compare validUsername validPasswordHash sess b st in
  MFA.result (run b1) = Ret (Redirect "/auth/login?error=1", sess)
  /\ MFA.result (run b2) = MFA.result (run b1)
  /\ MFA.state_of (run b1) = st
  /\ MFA.state_of (run b2) = st.
Proof.
  assert (Hfail : forall b,
            login_fails bcrypt_compare validUsername validPasswordHash b ->
            MFA.result (Auth.postLogin bcrypt_compare validUsername
                          validPasswordHash sess b st)
            = Ret (Redirect "/auth/login?error=1", sess)
            /\ MFA.state_of (Auth.postLogin bcrypt_compare validUsername
                               validPasswordHash sess b st) = st).
  { intros b Hb. destruct st as [p u tm c].
    unfold Auth.postLogin, Auth.credentials_ok, Auth.compare_password.
    destruct (bool_decide_reflect (Auth.body_username b = Some validUsername))
      as [Hu|Hu].
    - destruct Hb as [Hb|Hb]; [contradiction|].
      destruct (Auth.body_password b) as [pw|].
      + rewrite (Hb pw eq_refl). split; reflexivity.
      + split; reflexivity.
    - split; reflexivity. }
  intros H1 H2 run. subst run. cbn beta.
  destruct (Hfail b1 H1) as [R1 S1]. destruct (Hfail b2 H2) as [R2 S2].
  rewrite R1, R2. auto.
Qed.

Lemma C8_witness :
  let cmp := fun p h : string => String.eqb h ("bcrypt:" +:+ p) in
  let run b :=
    Auth.postLogin cmp "admin" "bcrypt:s3cret" Auth.anonymous b
      (MFA.mkState ∅ ∅ [] 0) in
  let wrong_user := Auth.mkLoginBody (Some "root") (Some "s3cret") in
  let wrong_password := Auth.mkLoginBody (Some "admin") (Some "guess") in
  MFA.result (run wrong_user) = Ret (Redirect "/auth/login?error=1", Auth.anonymous)
  /\ MFA.result (run wrong_password) = MFA.result (run wrong_user).
Proof.
  intros cmp run wrong_user wrong_password.
  destruct (C8_failed_logins_look_alike cmp "admin" "bcrypt:s3cret" Auth.anonymous
              (MFA.mkState ∅ ∅ [] 0) wrong_user wrong_password) as (H1 & H2 & _).
  - left. discriminate.
  - right. intros p [= <-]. reflexivity.
  - split; [exact H1 | exact H2].
Defined.

(** * Further properties of the manager *)

Section ManagerFacts.

Import MFA.

Lemma verifyToken_no_secret user token st :
  userSecrets st !! user = None ->
  result (verifyToken user token st) = Ret false.
Proof.
  intros Hnone. destruct st as [p u tm c]. cbn [userSecrets] in Hnone.
  unfold verifyToken. unfold_m. rewrite Hnone. reflexivity.
Qed.

Lemma resetMFA_result user st :
  result (resetMFA user st) = Ret (bool_decide (is_Some (userSecrets st !! user))).
Proof. destruct st. reflexivity. Qed.

Lemma hasMFAEnabled_result user st :
  result (hasMFAEnabled user st) = Ret (bool_decide (is_Some (userSecrets st !! user))).
Proof. destruct st. reflexivity. Qed.

Lemma setupsOf_nil user (m : gmap string Setup) :
  (forall k s, m !! k = Some s -> username s <> user) -> setupsOf user m = [].
Proof.
  intros Hno. apply elem_of_nil_inv. intros k Hk.
  apply elem_of_setupsOf in Hk as (s & Hs & Hu). exact (Hno k s Hs Hu).
Qed.

Lemma NoDup_setupsOf user (m : gmap string Setup) : NoDup (setupsOf user m).
Proof.
  unfold setupsOf. pose proof (Hnd := NoDup_fst_map_to_list m).
  induction (map_to_list m) as [|[k s] l IH]; [constructor|].
  rewrite fmap_cons in Hnd. apply NoDup_cons in Hnd as [Hk Hnd].
  rewrite filter_cons. destruct (decide _); [|exact (IH Hnd)].
  rewrite fmap_cons. apply NoDup_cons. split; [|exact (IH Hnd)].
  intros Hin. apply Hk.
  apply list_elem_of_fmap in Hin as ([k' s'] & Heq & Hin). cbn in Heq. subst k'.
  apply list_elem_of_filter in Hin as [_ Hin].
  apply list_elem_of_fmap. exists (k, s'). auto.
Qed.

Lemma setupsOf_at_most_one user st :
  one_per_user st -> (List.length (setupsOf user (pendingSetups st)) <= 1)%nat.
Proof.
  intros Hinv. pose proof (Hnd := NoDup_setupsOf user (pendingSetups st)).
  destruct (setupsOf user (pendingSetups st)) as [|k1 [|k2 l]] eqn:E; cbn; try lia.
  exfalso. apply NoDup_cons in Hnd as [Hk1 _]. apply Hk1.
  assert (H1 : k1 ∈ setupsOf user (pendingSetups st)) by (rewrite E; left).
  assert (H2 : k2 ∈ setupsOf user (pendingSetups st)) by (rewrite E; right; left).
  apply elem_of_setupsOf in H1 as (s1 & Hs1 & Hu1).
  apply elem_of_setupsOf in H2 as (s2 & Hs2 & Hu2).
  rewrite (Hinv k1 k2 s1 s2 Hs1 Hs2) by congruence. left.
Qed.

Lemma run_one_per_user secrets t0 evs :
  one_per_user (run evs (mkState ∅ secrets [] t0)).
Proof.
  apply (run_invariant one_per_user (fun _ => True)).
  - intros t c st _. apply step_one_per_user.
  - apply Forall_forall. auto.
  - intros k1 k2 s1 s2 H1. cbn in H1. rewrite lookup_empty in H1. discriminate.
Qed.

End ManagerFacts.

(** X1: [resetMFA] returns whether the user had a secret and removes
    it, touching no other user's secret, no pending setup and no timer;
    afterwards the user counts as not enrolled, every token is refused
    for that user, and a second reset returns [false]. *)
Theorem X1_resetMFA_forgets_user (st : MFA.State) (user token : string) :
  let st' := MFA.state_of (MFA.resetMFA user st) in
  MFA.result (MFA.resetMFA user st)
    = Ret (bool_decide (is_Some (MFA.userSecrets st !! user)))
  /\ MFA.userSecrets st' = delete user (MFA.userSecrets st)
  /\ MFA.pendingSetups st' = MFA.pendingSetups st
  /\ MFA.timers st' = MFA.timers st
  /\ MFA.result (MFA.hasMFAEnabled user st') = Ret false
  /\ MFA.result (MFA.verifyToken user token st') = Ret false
  /\ MFA.result (MFA.resetMFA user st') = Ret false.
Proof.
  intros st'. subst st'. rewrite resetMFA_state.
  split; [apply resetMFA_result|]. repeat (split; [reflexivity|]).
  assert (Hgone : delete user (MFA.userSecrets st) !! user = None)
    by apply lookup_delete_eq.
  split; [|split].
  - rewrite hasMFAEnabled_result. cbn [MFA.userSecrets]. rewrite Hgone. reflexivity.
  - apply verifyToken_no_secret. exact Hgone.
  - rewrite resetMFA_result. cbn [MFA.userSecrets]. rewrite Hgone. reflexivity.
Qed.

(** X2: [cleanupUserSetups] returns the number of pending setups the
    user had and removes exactly those: the setups of other users, the
    stored secrets and the timers stay, a second call returns 0; and in
    every state reached from an empty registry the number is 0 or 1. *)
Theorem X2_cleanupUserSetups_counts (st : MFA.State) (user : string) :
  let st' := MFA.state_of (MFA.cleanupUserSetups user st) in
  MFA.result (MFA.cleanupUserSetups user st)
    = Ret (List.length (MFA.setupsOf user (MFA.pendingSetups st)))
  /\ (forall k s, MFA.pendingSetups st' !! k = Some s
                  <-> MFA.pendingSetups st !! k = Some s /\ MFA.username s <> user)
  /\ MFA.userSecrets st' = MFA.userSecrets st
  /\ MFA.timers st' = MFA.timers st
  /\ MFA.result (MFA.cleanupUserSetups user st') = Ret 0%nat
  /\ (forall secrets t0 evs,
        (List.length
           (MFA.setupsOf user
              (MFA.pendingSetups (MFA.run evs (MFA.mkState ∅ secrets [] t0)))) <= 1)%nat).
Proof.
  intros st'. subst st'. rewrite !cleanupUserSetups_eq.
  cbn [MFA.result MFA.state_of fst snd MFA.pendingSetups MFA.userSecrets MFA.timers].
  split; [reflexivity|]. split; [intros k s; apply lookup_cleanup|].
  split; [reflexivity|]. split; [reflexivity|]. split.
  - rewrite setupsOf_nil; [reflexivity|].
    intros k s Hk. apply lookup_cleanup in Hk as [_ Hu]. exact Hu.
  - intros secrets t0 evs. apply setupsOf_at_most_one, run_one_per_user.
Qed.

(** X3: [generateSecret] returns the id and the secret it drew and
    records them for the user with the time of the call; every setup the
    user had before is gone and the new one is the user's only one; the
    setups of other users under other ids stay, and so does every stored
    secret; the expiry timer is due thirty minutes later. *)
Theorem X3_generateSecret_replaces (st : MFA.State) (d : MFA.Drawn) (user : string) :
  let st' := MFA.state_of (MFA.generateSecret d user st) in
  MFA.result (MFA.generateSecret d user st)
    = Ret (MFA.mkSetupInfo (MFA.uuid d) (MFA.base32 d) (MFA.otpauth_url d))
  /\ MFA.pendingSetups st' !! MFA.uuid d
     = Some (MFA.mkSetup user (MFA.base32 d) (MFA.clock st))
  /\ MFA.setupsOf user (MFA.pendingSetups st') = [MFA.uuid d]
  /\ (forall k s, k <> MFA.uuid d ->
        (MFA.pendingSetups st' !! k = Some s
         <-> MFA.pendingSetups st !! k = Some s /\ MFA.username s <> user))
  /\ MFA.userSecrets st' = MFA.userSecrets st
  /\ MFA.timers st' = MFA.timers st ++ [(MFA.clock st + 1800000, MFA.uuid d)].
Proof.
  intros st'. subst st'.
  destruct (generateSecret_run d user st) as [tr Hrun]. rewrite Hrun.
  cbn [MFA.result MFA.state_of fst snd MFA.pendingSetups MFA.userSecrets MFA.timers].
  split; [reflexivity|]. split; [apply lookup_insert_eq|].
  assert (Hother : forall k s, k <> MFA.uuid d ->
            (<[MFA.uuid d := MFA.mkSetup user (MFA.base32 d) (MFA.clock st)]>
               (delete_all (fun k => k) (MFA.setupsOf user (MFA.pendingSetups st))
                  (MFA.pendingSetups st)) !! k = Some s
             <-> MFA.pendingSetups st !! k = Some s /\ MFA.username s <> user)).
  { intros k s Hk. rewrite lookup_insert_ne by done. apply lookup_cleanup. }
  split; [|split; [exact Hother | split; reflexivity]].
  set (m' := <[MFA.uuid d := _]> _) in *.
  assert (Hin : forall k, k ∈ MFA.setupsOf user m' <-> k = MFA.uuid d).
  { intros k. rewrite elem_of_setupsOf. split.
    - intros (s & Hs & Hu). destruct (decide (k = MFA.uuid d)) as [|Hne]; [done|].
      apply Hother in Hs as [_ Hs]; [contradiction | exact Hne].
    - intros ->. eexists. split; [apply lookup_insert_eq | reflexivity]. }
  pose proof (Hnd := NoDup_setupsOf user m').
  destruct (MFA.setupsOf user m') as [|k1 l] eqn:E.
  - exfalso. assert (H : MFA.uuid d ∈ @nil string) by (apply Hin; reflexivity).
    apply elem_of_nil in H. exact H.
  - assert (k1 = MFA.uuid d) as -> by (apply Hin; left).
    destruct l as [|k2 l]; [reflexivity|]. exfalso.
    apply NoDup_cons in Hnd as [Hk1 _]. apply Hk1.
    assert (k2 = MFA.uuid d) as -> by (apply Hin; right; left). left.
Qed.

Section CompletionFacts.

Import MFA.

(** What a successful completion has checked. *)
Lemma completeMFASetup_success setupId token st r :
  result (completeMFASetup setupId token st) = Ret r ->
  success r = true ->
  exists setup,
    pendingSetups st !! setupId = Some setup
    /\ String.length (strip_non_digits token) = 6%nat
    /\ Speakeasy.totp_verify (secret setup) (strip_non_digits token) 2 (clock st / 1000)
       = Ret true
    /\ state_of (completeMFASetup setupId token st)
       = mkState (delete setupId (pendingSetups st))
                 (<[username setup := secret setup]> (userSecrets st))
                 (timers st) (clock st).
Proof.
  intros Hres Hok.
  pose proof (Heq := completeMFASetup_eq setupId token st).
  rewrite Hres in Heq. unfold completeMFASetup_outcome in Heq.
  destruct (pendingSetups st !! setupId) as [setup|];
    [|injection Heq as Hr _; subst r; discriminate].
  destruct (String.length (strip_non_digits token) =? 6)%nat eqn:Hlen; cbn [negb] in Heq;
    [|injection Heq as Hr _; subst r; discriminate].
  destruct (Speakeasy.totp_verify _ _ _ _) as [[|]|e] eqn:Hv;
    [|injection Heq as Hr _; subst r; discriminate | discriminate].
  exists setup. apply Nat.eqb_eq in Hlen. injection Heq as _ Hs. auto.
Qed.

Lemma perform_secrets c st user :
  keeps_secrets c = true ->
  userSecrets (state_of (perform c st)) !! user = userSecrets st !! user.
Proof.
  destruct c as [d u|setupId token|u|u token|u]; cbn [keeps_secrets perform];
    try discriminate; intros _; rewrite bind_mret_state.
  - rewrite generateSecret_state. reflexivity.
  - rewrite cleanupUserSetups_eq. reflexivity.
  - rewrite verifyToken_state. reflexivity.
Qed.

Lemma step_secrets t c st user :
  keeps_secrets c = true ->
  userSecrets (state_of (step t c st)) !! user = userSecrets st !! user.
Proof.
  intros Hc. destruct (step_state t c st) as [-> _].
  rewrite (perform_secrets c _ user Hc), advance_eq. reflexivity.
Qed.

End CompletionFacts.

Lemma failed_completion_state (st : MFA.State) (setupId token : string) :
  MFA.result (MFA.completeMFASetup setupId token st) <> Ret (MFA.mkResult true None) ->
  MFA.state_of (MFA.completeMFASetup setupId token st) = st.
Proof.
  intros Hfail.
  pose proof (Heq := completeMFASetup_eq setupId token st).
  unfold completeMFASetup_outcome in Heq.
  destruct (MFA.pendingSetups st !! setupId) as [setup|]; [|congruence].
  destruct (negb _); [congruence|].
  destruct (Speakeasy.totp_verify _ _ _ _) as [[|]|e]; [|congruence..].
  exfalso. apply Hfail. congruence.
Qed.

(** X4: a call of [completeMFASetup] that does not return success
    (whatever the reason: unknown id, token without six digits, wrong
    code, a throw) changes nothing: the pending setup, the stored
    secrets and the timers are as before, so the setup can be tried
    again. *)
Theorem X4_failed_completion_changes_nothing
    (st : MFA.State) (setupId token : string) :
  MFA.result (MFA.completeMFASetup setupId token st) <> Ret (MFA.mkResult true None) ->
  MFA.state_of (MFA.completeMFASetup setupId token st) = st.
Proof. exact (failed_completion_state st setupId token). Qed.

Lemma X4_witness :
  let secret := "GEZDGNBVGY3TQOJQGEZDGNBVGY3TQOJQ" in
  let st := MFA.mkState {[ "id-1" := MFA.mkSetup "bob" secret 1735734000000 ]} ∅
                        [(1735735800000, "id-1")] 1735734540000 in
  MFA.result (MFA.completeMFASetup "id-1" "127087" st)
    = Ret (MFA.mkResult false
             (Some "Invalid token - please check your authenticator app time sync"))
  /\ MFA.state_of (MFA.completeMFASetup "id-1" "127087" st) = st
  /\ MFA.result (MFA.completeMFASetup "id-1" "127086"
                   (MFA.state_of (MFA.completeMFASetup "id-1" "127087" st)))
     = Ret (MFA.mkResult true None).
Proof.
  intros secret st.
  assert (Hres : MFA.result (MFA.completeMFASetup "id-1" "127087" st)
                 = Ret (MFA.mkResult false
                          (Some "Invalid token - please check your authenticator app time sync")))
    by (vm_compute; reflexivity).
  assert (Hst : MFA.state_of (MFA.completeMFASetup "id-1" "127087" st) = st).
  { apply (X4_failed_completion_changes_nothing st "id-1" "127087").
    rewrite Hres. discriminate. }
  split; [exact Hres|]. split; [exact Hst|].
  rewrite Hst. vm_compute. reflexivity.
Defined.

(** X5: a setup id is good for one completion.  After
    [completeMFASetup] has returned success for it, every later call
    with that id, whatever the token and the time and whatever was
    called in between, answers 'Invalid or expired setup' (no later
    [generateSecret] drawing the id again). *)
Theorem X5_setup_id_is_single_use
    (st : MFA.State) (setupId token : string) (r : MFA.CompleteResult)
    (evs : list (Z * MFA.Call)) (t : Z) (token' : string) :
  MFA.result (MFA.completeMFASetup setupId token st) = Ret r ->
  MFA.success r = true ->
  Forall (fun e => ~ draws setupId e.2) evs ->
  MFA.result
    (MFA.step t (MFA.CallComplete setupId token')
       (MFA.run evs (MFA.state_of (MFA.completeMFASetup setupId token st))))
  = Ret (MFA.ReplyComplete (MFA.mkResult false (Some "Invalid or expired setup"))).
Proof.
  intros Hres Hok Hevs.
  destruct (completeMFASetup_success setupId token st r Hres Hok)
    as (setup & _ & _ & _ & Hst).
  apply complete_absent.
  assert (Hend : MFA.pendingSetups
                   (MFA.run evs (MFA.state_of (MFA.completeMFASetup setupId token st)))
                 !! setupId = None).
  { apply (run_invariant (fun st => MFA.pendingSetups st !! setupId = None)
             (fun c => ~ draws setupId c)).
    - intros t' c st' Hc. apply step_keeps_absent. exact Hc.
    - exact Hevs.
    - rewrite Hst. cbn [MFA.pendingSetups]. apply lookup_delete_eq. }
  destruct (MFA.pendingSetups (MFA.state_of (MFA.advance t _)) !! setupId)
    as [s|] eqn:Hk; [|reflexivity].
  apply advance_pending in Hk as [Hk _]. congruence.
Qed.

Lemma X5_witness :
  let secret := "GEZDGNBVGY3TQOJQGEZDGNBVGY3TQOJQ" in
  let st := MFA.mkState {[ "id-1" := MFA.mkSetup "bob" secret 1735734000000 ]} ∅
                        [(1735735800000, "id-1")] 1735734540000 in
  let evs := [(1735734541000, MFA.CallVerify "bob" "127086")] in
  MFA.result (MFA.completeMFASetup "id-1" "127086" st) = Ret (MFA.mkResult true None)
  /\ MFA.result
       (MFA.step 1735734542000 (MFA.CallComplete "id-1" "127086")
          (MFA.run evs (MFA.state_of (MFA.completeMFASetup "id-1" "127086" st))))
     = Ret (MFA.ReplyComplete (MFA.mkResult false (Some "Invalid or expired setup"))).
Proof.
  intros secret st evs.
  assert (Hres : MFA.result (MFA.completeMFASetup "id-1" "127086" st)
                 = Ret (MFA.mkResult true None)) by (vm_compute; reflexivity).
  split; [exact Hres|].
  apply (X5_setup_id_is_single_use st "id-1" "127086" (MFA.mkResult true None) evs);
    [exact Hres | reflexivity |].
  repeat constructor. intros H. exact H.
Defined.

(** X6: the code that completed a setup is a valid second factor at
    once: after [completeMFASetup] has returned success, the user counts
    as enrolled and [verifyToken] accepts the same token for that user
    at the same time (the secret not being the empty string). *)
Theorem X6_completion_enrolls
    (st : MFA.State) (setupId token : string) (setup : MFA.Setup)
    (r : MFA.CompleteResult) :
  MFA.pendingSetups st !! setupId = Some setup ->
  MFA.secret setup <> EmptyString ->
  MFA.result (MFA.completeMFASetup setupId token st) = Ret r ->
  MFA.success r = true ->
  let st' := MFA.state_of (MFA.completeMFASetup setupId token st) in
  MFA.result (MFA.hasMFAEnabled (MFA.username setup) st') = Ret true
  /\ MFA.result (MFA.verifyToken (MFA.username setup) token st') = Ret true
  /\ MFA.state_of (MFA.verifyToken (MFA.username setup) token st') = st'.
Proof.
  intros Hsetup Hne Hres Hok st'. subst st'.
  destruct (completeMFASetup_success setupId token st r Hres Hok)
    as (setup' & Hsetup' & Hlen & Hv & ->).
  assert (setup' = setup) as -> by congruence.
  split; [|split; [|apply verifyToken_state]].
  - rewrite hasMFAEnabled_result. cbn [MFA.userSecrets].
    rewrite lookup_insert_eq. reflexivity.
  - destruct (Speakeasy.base32_decode (MFA.secret setup)) as [key|] eqn:Hkey;
      [|unfold Speakeasy.totp_verify in Hv; rewrite Hkey in Hv; discriminate].
    rewrite (verifyToken_with_secret _ (MFA.username setup) (MFA.secret setup) key token);
      [|apply lookup_insert_eq | exact Hne | exact Hkey | exact Hlen].
    cbn [MFA.clock]. unfold Speakeasy.totp_verify in Hv.
    rewrite Hkey, window_offsets_2 in Hv. exact Hv.
Qed.

Lemma X6_witness :
  let secret := "GEZDGNBVGY3TQOJQGEZDGNBVGY3TQOJQ" in
  let setup := MFA.mkSetup "bob" secret 1735734000000 in
  let st := MFA.mkState {[ "id-1" := setup ]} ∅ [(1735735800000, "id-1")] 1735734540000 in
  let st' := MFA.state_of (MFA.completeMFASetup "id-1" "12 70 86" st) in
  MFA.result (MFA.hasMFAEnabled "bob" st) = Ret false
  /\ MFA.result (MFA.hasMFAEnabled "bob" st') = Ret true
  /\ MFA.result (MFA.verifyToken "bob" "12 70 86" st') = Ret true.
Proof.
  intros secret setup st st'.
  destruct (X6_completion_enrolls st "id-1" "12 70 86" setup (MFA.mkResult true None))
    as (Hhas & Hver & _);
    [reflexivity | discriminate | vm_compute; reflexivity | reflexivity |].
  split; [reflexivity|]. split; [exact Hhas | exact Hver].
Defined.

(** X7: a stored secret is changed by [resetMFA] and by
    [completeMFASetup] only.  Over any history of other calls
    ([generateSecret], [cleanupUserSetups], [verifyToken]) and of expiry
    timers firing, every user keeps the secret they had; so the expiry
    of a setup never takes back a secret that was committed. *)
Theorem X7_secrets_outlive_setups
    (st : MFA.State) (evs : list (Z * MFA.Call)) (user : string) :
  Forall (fun e => keeps_secrets e.2 = true) evs ->
  MFA.userSecrets (MFA.run evs st) !! user = MFA.userSecrets st !! user.
Proof.
  intros Hevs.
  apply (run_invariant
           (fun st' => MFA.userSecrets st' !! user = MFA.userSecrets st !! user)
           (fun c => keeps_secrets c = true)).
  - intros t c st' Hc Hst'. rewrite (step_secrets t c st' user Hc). exact Hst'.
  - exact Hevs.
  - reflexivity.
Qed.

Lemma X7_witness :
  let secret := "GEZDGNBVGY3TQOJQGEZDGNBVGY3TQOJQ" in
  let d := MFA.mkDrawn secret "otpauth://totp/bob" "id-2" in
  let st := MFA.mkState ∅ {[ "bob" := secret ]} [(1735735800000, "id-1")] 1735734540000 in
  let evs := [(1735734600000, MFA.CallGenerate d "bob");
              (1735736000000, MFA.CallVerify "bob" "000000");
              (1735737000000, MFA.CallCleanup "bob")] in
  Forall (fun e => keeps_secrets e.2 = true) evs
  /\ MFA.userSecrets (MFA.run evs st) !! "bob" = Some secret.
Proof.
  intros secret d st evs.
  assert (Hevs : Forall (fun e => keeps_secrets e.2 = true) evs)
    by (repeat constructor).
  split; [exact Hevs|].
  rewrite (X7_secrets_outlive_setups st evs "bob" Hevs). reflexivity.
Defined.

(** X8: the countdown [getTimeInfo] reports, for a clock at or after the
    epoch: between 1 and 30 seconds remain, they end exactly at the next
    multiple of 30 seconds, and the step reported is the step the
    engine uses for that second.  The call changes nothing. *)
Theorem X8_getTimeInfo_countdown
    (toISOString : Z -> string) (timezone_name : string) (st : MFA.State) :
  0 <= MFA.clock st ->
  exists info,
    MFA.getTimeInfo toISOString timezone_name st = (Ret info, st, [])
    /\ MFA.utcTimestamp info = MFA.clock st / 1000
    /\ 1 <= MFA.timeRemaining info <= 30
    /\ MFA.utcTimestamp info + MFA.timeRemaining info = 30 * (MFA.timeStep info + 1)
    /\ MFA.timeStep info = Speakeasy.counter_of (MFA.utcTimestamp info)
    /\ MFA.stepDuration info = 30.
Proof.
  intros Hclock. destruct st as [p u tm c]. cbn [MFA.clock] in *.
  eexists. split; [reflexivity|].
  cbn [MFA.utcTimestamp MFA.timeRemaining MFA.timeStep MFA.stepDuration MFA.clock].
  assert (Hsec : 0 <= c / 1000) by (apply Z.div_pos; lia).
  unfold MFA.js_rem, Speakeasy.counter_of. rewrite Z.rem_mod_nonneg by lia.
  pose proof (Z.mod_pos_bound (c / 1000) 30 ltac:(lia)).
  pose proof (Z.div_mod (c / 1000) 30 ltac:(lia)).
  repeat split; lia.
Qed.

Lemma X8_witness :
  exists info,
    MFA.getTimeInfo (fun _ => EmptyString) "UTC" (MFA.mkState ∅ ∅ [] 1735734540000)
    = (Ret info, MFA.mkState ∅ ∅ [] 1735734540000, [])
    /\ MFA.timeRemaining info = 30 /\ MFA.timeStep info = 57857818.
Proof.
  destruct (X8_getTimeInfo_countdown (fun _ => EmptyString) "UTC"
              (MFA.mkState ∅ ∅ [] 1735734540000)) as (info & Hrun & _);
    [cbn [MFA.clock]; lia|].
  exists info. split; [exact Hrun|].
  injection Hrun as <-. split; reflexivity.
Defined.

(** * Further properties of the routes *)

Section CredentialFacts.

Import Auth.

Lemma split_colon_pieces s :
  split_colon s <> [] /\ Forall (fun piece => has_colon piece = false) (split_colon s).
Proof.
  induction s as [|c s [Hne IH]]; cbn [split_colon].
  - split; [discriminate | repeat constructor].
  - destruct (Ascii.eqb c ":"%char) eqn:Hc.
    + split; [discriminate|]. constructor; [reflexivity | exact IH].
    + destruct (split_colon s) as [|piece rest]; [contradiction|].
      split; [discriminate|]. apply Forall_cons in IH as [Hp Hrest].
      constructor; [|exact Hrest]. cbn [has_colon]. rewrite Hc, Hp. reflexivity.
Qed.

Lemma split_colon_field u rest :
  has_colon u = false ->
  split_colon (u +:+ String ":"%char rest) = u :: split_colon rest.
Proof.
  induction u as [|c u IH]; cbn [has_colon String.append split_colon]; intros Hu.
  - reflexivity.
  - apply orb_false_iff in Hu as [Hc Hu].
    change (String c u +:+ String ":"%char rest)
      with (String c (u +:+ String ":"%char rest)).
    cbn [split_colon]. rewrite Hc, (IH Hu). reflexivity.
Qed.

Lemma split_colon_whole h : has_colon h = false -> split_colon h = [h].
Proof.
  induction h as [|c h IH]; cbn [has_colon split_colon]; intros Hh; [reflexivity|].
  apply orb_false_iff in Hh as [Hc Hh]. rewrite Hc, (IH Hh). reflexivity.
Qed.

Lemma truthy_true o : truthy o = true <-> exists s, o = Some s /\ s <> EmptyString.
Proof.
  destruct o as [s|]; cbn [truthy].
  - destruct (String.eqb_spec s EmptyString) as [->|Hne]; cbn [negb]; split.
    + discriminate.
    + intros (s' & [= <-] & Hs). contradiction.
    + eauto.
    + reflexivity.
  - split; [discriminate | intros (s & Hs & _); discriminate].
Qed.

Lemma append_nonempty u rest : u +:+ String ":"%char rest <> EmptyString.
Proof. destruct u; discriminate. Qed.

End CredentialFacts.

(** X9: the credential line the hash generator prints, [u:h], is read
    back by [parseUserCredentials] as the pair (u, h) exactly when both
    are non-empty and neither holds a colon.  Whatever follows a second
    colon is dropped; a value without any colon, or no value at all,
    ends the process. *)
Theorem X9_credentials_round_trip (u h rest : string) :
  (Auth.parseUserCredentials (Some (u +:+ ":" +:+ h)) = Auth.Started (u, h)
   <-> u <> EmptyString /\ h <> EmptyString
       /\ has_colon u = false /\ has_colon h = false)
  /\ (u <> EmptyString -> h <> EmptyString ->
      has_colon u = false -> has_colon h = false ->
      Auth.parseUserCredentials (Some (u +:+ ":" +:+ h +:+ ":" +:+ rest))
      = Auth.Started (u, h))
  /\ (has_colon u = false -> exists msg, Auth.parseUserCredentials (Some u) = Auth.Exit msg)
  /\ Auth.parseUserCredentials None
     = Auth.Exit "USER_CREDENTIALS environment variable not set".
Proof.
  change (u +:+ ":" +:+ h +:+ ":" +:+ rest)
    with (u +:+ String ":"%char (h +:+ String ":"%char rest)).
  change (u +:+ ":" +:+ h) with (u +:+ String ":"%char h).
  assert (Hgood : forall tail,
            u <> EmptyString -> h <> EmptyString ->
            has_colon u = false ->
            (exists more, Auth.split_colon tail = h :: more) ->
            Auth.parseUserCredentials (Some (u +:+ String ":"%char tail))
            = Auth.Started (u, h)).
  { intros tail Hu Hh Hcu [more Htail]. unfold Auth.parseUserCredentials.
    rewrite (truthy_Some _ (append_nonempty u tail)). cbn [negb default]. unfold id.
    rewrite (split_colon_field u tail Hcu), Htail. cbn [lookup list_lookup].
    rewrite (truthy_Some _ Hu), (truthy_Some _ Hh). reflexivity. }
  split; [|split; [|split]].
  - split.
    + intros Hparse. unfold Auth.parseUserCredentials in Hparse.
      rewrite (truthy_Some _ (append_nonempty u h)) in Hparse.
      cbn [negb default] in Hparse. unfold id in Hparse.
      destruct (split_colon_pieces (u +:+ String ":"%char h)) as [Hne Hall].
      destruct (Auth.split_colon (u +:+ String ":"%char h)) as [|p0 [|p1 more]] eqn:Hsplit;
        [contradiction | |].
      * cbn [lookup list_lookup truthy negb orb] in Hparse.
        rewrite orb_true_r in Hparse. discriminate.
      * cbn [lookup list_lookup] in Hparse.
        destruct (truthy (Some p0)) eqn:T0; cbn [negb orb] in Hparse; [|discriminate].
        destruct (truthy (Some p1)) eqn:T1; cbn [negb] in Hparse; [|discriminate].
        injection Hparse as -> ->.
        apply truthy_true in T0 as (? & [= <-] & Hu).
        apply truthy_true in T1 as (? & [= <-] & Hh).
        apply Forall_cons in Hall as [Hcu Hall].
        rewrite (split_colon_field u h Hcu) in Hsplit. injection Hsplit as Hsplit.
        assert (Hch : has_colon h = false).
        { destruct (split_colon_pieces h) as [_ Hall']. rewrite Hsplit in Hall'.
          apply Forall_cons in Hall' as [Hch _].
          destruct (has_colon h) eqn:E; [|reflexivity]. exact Hch. }
        auto.
    + intros (Hu & Hh & Hcu & Hch). apply Hgood; try assumption.
      exists []. apply split_colon_whole. exact Hch.
  - intros Hu Hh Hcu Hch. apply Hgood; try assumption.
    exists (Auth.split_colon rest). apply (split_colon_field h rest Hch).
  - intros Hcu. unfold Auth.parseUserCredentials.
    destruct (truthy (Some u)); cbn [negb]; [|eauto].
    cbn [default]. unfold id. rewrite (split_colon_whole u Hcu).
    cbn [lookup list_lookup truthy negb orb]. rewrite orb_true_r. eauto.
  - reflexivity.
Qed.

Section RouteFacts.

Import MFA Auth.

Lemma verifyToken_of_state user token st :
  state_of (verifyToken_of user token st) = st.
Proof.
  destruct user as [u|]; cbn [verifyToken_of]; [apply verifyToken_state|].
  destruct st. reflexivity.
Qed.

(** The four ways POST /mfa-verify can end. *)
Lemma postMfaVerify_cases sess token st :
  state_of (postMfaVerify sess token st) = st
  /\ ((passwordVerified sess = false
       /\ result (postMfaVerify sess token st) = Ret (Redirect "/auth/login", sess))
      \/ (passwordVerified sess = true
          /\ result (verifyToken_of (username sess) token st) = Ret true
          /\ result (postMfaVerify sess token st)
             = Ret (Redirect "/",
                    mkSession true false (username sess) (username sess)
                              (mfaSetupId sess)))
      \/ (passwordVerified sess = true
          /\ result (verifyToken_of (username sess) token st) = Ret false
          /\ result (postMfaVerify sess token st)
             = Ret (Redirect "/auth/mfa-verify?error=1", sess))
      \/ (passwordVerified sess = true
          /\ exists e, result (verifyToken_of (username sess) token st) = Throw e
                       /\ result (postMfaVerify sess token st) = Throw e)).
Proof.
  pose proof (Hst := verifyToken_of_state (username sess) token st).
  destruct st as [p u tm c]. unfold postMfaVerify.
  destruct (passwordVerified sess); cbn [negb]; [|split; [reflexivity | left; auto]].
  unfold state_of, result in *.
  destruct (verifyToken_of (username sess) token (mkState p u tm c))
    as [[[b|e] st1] tr1] eqn:Hv; cbn [fst snd] in Hst; subst st1.
  - destruct b.
    + split; [|right; left; split; [reflexivity|split; [reflexivity|]]];
        unfold_m; rewrite Hv; reflexivity.
    + split; [|right; right; left; split; [reflexivity|split; [reflexivity|]]];
        unfold_m; rewrite Hv; reflexivity.
  - split; [|right; right; right; split; [reflexivity|exists e; split; [reflexivity|]]];
      unfold_m; rewrite Hv; reflexivity.
Qed.

(** The ways POST /mfa-setup can end. *)
Lemma postMfaSetup_cases sess token st :
  (negb (passwordVerified sess) || negb (truthy (mfaSetupId sess)) = true
   /\ postMfaSetup sess token st
      = (Ret (Redirect "/auth/login", sess), st,
         [Log Info "MFA setup POST request"; Log Warn "MFA setup: missing session data"]))
  \/ (exists setupId,
        passwordVerified sess = true /\ mfaSetupId sess = Some setupId
        /\ setupId <> EmptyString
        /\ state_of (postMfaSetup sess token st)
           = state_of (completeMFASetup setupId token st)
        /\ ((result (completeMFASetup setupId token st) = Ret (mkResult true None)
             /\ result (postMfaSetup sess token st)
                = Ret (Redirect "/",
                       mkSession true false (username sess) (username sess) None))
            \/ (result (completeMFASetup setupId token st) <> Ret (mkResult true None)
                /\ session_after sess (postMfaSetup sess token st) = sess
                /\ forall resp sess',
                     result (postMfaSetup sess token st) = Ret (resp, sess') ->
                     resp = Redirect "/auth/mfa-setup?error=1"))).
Proof.
  destruct st as [p u tm c]. unfold postMfaSetup.
  destruct (negb (passwordVerified sess) || negb (truthy (mfaSetupId sess))) eqn:Hguard.
  - left. split; reflexivity.
  - right. apply orb_false_iff in Hguard as [Hpv Hid].
    apply negb_false_iff in Hpv, Hid.
    apply truthy_true in Hid as (setupId & Hid & Hne).
    exists setupId. rewrite Hid. cbn [default]. unfold id.
    split; [exact Hpv|]. split; [reflexivity|]. split; [exact Hne|].
    unfold session_after, state_of, result.
    destruct (completeMFASetup setupId token (mkState p u tm c))
      as [[[[[|] err]|e] st1] tr1] eqn:Hc.
    + pose proof (Heq := completeMFASetup_eq setupId token (mkState p u tm c)).
      unfold result, state_of in Heq. rewrite Hc in Heq. cbn [fst snd] in Heq.
      assert (err = None) as ->.
      { unfold completeMFASetup_outcome in Heq.
        destruct (pendingSetups _ !! setupId); [|congruence].
        destruct (negb _); [congruence|].
        destruct (Speakeasy.totp_verify _ _ _ _) as [[|]|]; congruence. }
      split; [unfold_m; rewrite Hc; reflexivity|].
      left. split; [reflexivity|]. unfold_m. rewrite Hc. reflexivity.
    + split; [unfold_m; rewrite Hc; reflexivity|].
      right. split; [cbn; discriminate|].
      split; unfold_m; rewrite Hc; cbn; [reflexivity|].
      intros resp sess' [= <- _]. reflexivity.
    + split; [unfold_m; rewrite Hc; reflexivity|].
      right. split; [cbn; discriminate|].
      split; unfold_m; rewrite Hc; cbn; [reflexivity|].
      intros resp sess'. discriminate.
Qed.

End RouteFacts.

(** X10: a login with the right credentials marks the session as
    password-verified and binds the username, and leaves the manager and
    the [authenticated] flag as they were: the password alone
    authenticates nobody.  The redirect goes to /auth/mfa-verify when
    the secret store has an entry for the user and to /auth/mfa-setup
    when it has none. *)
Theorem X10_password_step
    (bcrypt_compare : string -> string -> bool)
    (validUsername validPasswordHash : string)
    (sess : Auth.Session) (st : MFA.State) (body : Auth.LoginBody) :
  Auth.credentials_ok bcrypt_compare validUsername validPasswordHash body = Ret true ->
  let r := Auth.postLogin bcrypt_compare validUsername validPasswordHash sess body st in
  MFA.result r
    = Ret (Redirect (if bool_decide (is_Some (MFA.userSecrets st !! validUsername))
                     then "/auth/mfa-verify" else "/auth/mfa-setup"),
           Auth.mkSession (Auth.authenticated sess) true (Some validUsername)
                          (Auth.user sess) (Auth.mfaSetupId sess))
  /\ MFA.state_of r = st.
Proof.
  intros Hok r. subst r. destruct st as [p u tm c]. unfold Auth.postLogin.
  rewrite Hok.
  assert (Hname : Auth.body_username body = Some validUsername).
  { unfold Auth.credentials_ok in Hok.
    destruct (bool_decide_reflect (Auth.body_username body = Some validUsername));
      [assumption | discriminate]. }
  rewrite Hname. cbn [MFA.userSecrets].
  destruct (bool_decide_reflect (is_Some (u !! validUsername))) as [Hsome|Hnone].
  - assert (Hb : bool_decide (is_Some (u !! validUsername)) = true)
      by (apply bool_decide_eq_true; exact Hsome).
    unfold MFA.getMFAStatus, MFA.hasMFAEnabled. unfold_m. rewrite Hb. split; reflexivity.
  - assert (Hb : bool_decide (is_Some (u !! validUsername)) = false)
      by (apply bool_decide_eq_false; exact Hnone).
    unfold MFA.getMFAStatus, MFA.hasMFAEnabled. unfold_m. rewrite Hb. split; reflexivity.
Qed.

Lemma X10_witness :
  let cmp := fun p h : string => String.eqb h ("bcrypt:" +:+ p) in
  let body := Auth.mkLoginBody (Some "admin") (Some "s3cret") in
  let st := MFA.mkState ∅ {[ "admin" := "GEZDGNBVGY3TQOJQGEZDGNBVGY3TQOJQ" ]} [] 0 in
  MFA.result (Auth.postLogin cmp "admin" "bcrypt:s3cret" Auth.anonymous body st)
  = Ret (Redirect "/auth/mfa-verify",
         Auth.mkSession false true (Some "admin") None None).
Proof.
  intros cmp body st.
  destruct (X10_password_step cmp "admin" "bcrypt:s3cret" Auth.anonymous st body)
    as [Hres _]; [reflexivity|].
  rewrite Hres. reflexivity.
Defined.

(** X11: the second factor cannot be skipped.  When POST /mfa-verify or
    POST /mfa-setup turns a session that was not authenticated into an
    authenticated one, the session was password-verified and the
    one-time-password check of that request succeeded: [verifyToken]
    returned true for the session's user, or [completeMFASetup] returned
    success for the session's setup id. *)
Theorem X11_second_factor_required
    (sess : Auth.Session) (token : string) (st : MFA.State) :
  (Auth.authenticated (session_after sess (Auth.postMfaVerify sess token st)) = true ->
   Auth.authenticated sess = false ->
   Auth.passwordVerified sess = true
   /\ exists u, Auth.username sess = Some u
                /\ MFA.result (MFA.verifyToken u token st) = Ret true)
  /\ (Auth.authenticated (session_after sess (Auth.postMfaSetup sess token st)) = true ->
      Auth.authenticated sess = false ->
      Auth.passwordVerified sess = true
      /\ exists setupId, Auth.mfaSetupId sess = Some setupId
                         /\ MFA.result (MFA.completeMFASetup setupId token st)
                            = Ret (MFA.mkResult true None)).
Proof.
  split.
  - intros Hafter Hbefore. unfold session_after in Hafter.
    destruct (postMfaVerify_cases sess token st)
      as [_ [[_ Hr] | [(Hpv & Hv & Hr) | [(_ & _ & Hr) | (_ & e & _ & Hr)]]]];
      rewrite Hr in Hafter; try congruence.
    split; [exact Hpv|]. destruct (Auth.username sess) as [u|]; [eauto|].
    cbn in Hv. destruct st. discriminate.
  - intros Hafter Hbefore.
    destruct (postMfaSetup_cases sess token st)
      as [[_ Hr] | (setupId & Hpv & Hid & _ & _ & [[Hc Hr] | (_ & Hs & _)])].
    + unfold session_after in Hafter. rewrite Hr in Hafter. cbn in Hafter. congruence.
    + eauto.
    + rewrite Hs in Hafter. congruence.
Qed.

(** X12: a second-factor attempt that fails costs nothing.  POST
    /mfa-verify never changes the manager; when its answer is not the
    redirect to "/", the session is as before.  POST /mfa-setup without
    a password-verified session or without a setup id answers with a
    redirect to /auth/login and calls nothing; when [completeMFASetup]
    does not return success, session and manager are as before. *)
Theorem X12_failed_attempts_change_nothing
    (sess : Auth.Session) (token : string) (st : MFA.State) :
  MFA.state_of (Auth.postMfaVerify sess token st) = st
  /\ ((forall sess', MFA.result (Auth.postMfaVerify sess token st)
                     <> Ret (Redirect "/", sess')) ->
      session_after sess (Auth.postMfaVerify sess token st) = sess)
  /\ (negb (Auth.passwordVerified sess) || negb (truthy (Auth.mfaSetupId sess)) = true ->
      Auth.postMfaSetup sess token st
      = (Ret (Redirect "/auth/login", sess), st,
         [MFA.Log MFA.Info "MFA setup POST request";
          MFA.Log MFA.Warn "MFA setup: missing session data"]))
  /\ ((forall sess', MFA.result (Auth.postMfaSetup sess token st)
                     <> Ret (Redirect "/", sess')) ->
      session_after sess (Auth.postMfaSetup sess token st) = sess
      /\ MFA.state_of (Auth.postMfaSetup sess token st) = st).
Proof.
  destruct (postMfaVerify_cases sess token st) as [Hst Hcases].
  split; [exact Hst|]. split; [|split].
  - intros Hno. unfold session_after.
    destruct Hcases as [[_ Hr] | [(_ & _ & Hr) | [(_ & _ & Hr) | (_ & e & _ & Hr)]]];
      rewrite Hr; try reflexivity.
    exfalso. exact (Hno _ Hr).
  - intros Hguard.
    destruct (postMfaSetup_cases sess token st)
      as [[_ Hr] | (setupId & Hpv & Hid & Hne & _)]; [exact Hr|].
    rewrite Hpv, Hid, (truthy_Some _ Hne) in Hguard. discriminate.
  - intros Hno.
    destruct (postMfaSetup_cases sess token st)
      as [[_ Hr] | (setupId & _ & _ & _ & Hst' & [[_ Hr] | (Hfail & Hs & _)])].
    + unfold session_after. rewrite Hr. split; reflexivity.
    + exfalso. exact (Hno _ Hr).
    + split; [exact Hs|]. rewrite Hst'.
      apply failed_completion_state. exact Hfail.
Qed.

Section SessionFacts.

Import MFA Auth.

Variable bcrypt_compare : string -> string -> bool.
Variable validUsername : string.
Variable validPasswordHash : string.
Variable production : bool.

Lemma drop_setup_id_flags sess :
  authenticated (drop_setup_id sess) = authenticated sess
  /\ passwordVerified (drop_setup_id sess) = passwordVerified sess.
Proof. unfold drop_setup_id. destruct (truthy _); split; reflexivity. Qed.

Lemma postMfaCleanup_session sess body_name st :
  let sess' := session_after sess (postMfaCleanup production sess body_name st) in
  authenticated sess' = authenticated sess
  /\ passwordVerified sess' = passwordVerified sess.
Proof.
  cbn zeta. unfold session_after, postMfaCleanup.
  destruct production; [split; reflexivity|].
  destruct (negb _); [split; reflexivity|].
  unfold mbind, M_bind, result. rewrite cleanupUserSetups_eq.
  cbn. apply drop_setup_id_flags.
Qed.

Lemma postMfaReset_session sess body_name st :
  let sess' := session_after sess (postMfaReset production sess body_name st) in
  (authenticated sess' = true -> authenticated sess = true)
  /\ passwordVerified sess' = passwordVerified sess.
Proof.
  cbn zeta. unfold session_after, postMfaReset.
  destruct production; [split; [tauto | reflexivity]|].
  destruct (negb _); [split; [tauto | reflexivity]|].
  destruct st as [p u tm c]. unfold resetMFA. unfold_m. cbn.
  destruct (drop_setup_id_flags sess) as [Ha Hp].
  destruct (authenticated (drop_setup_id sess)) eqn:E; cbn.
  - split; [discriminate | exact Hp].
  - split; [congruence | exact Hp].
Qed.

Lemma route_keeps_no_factor r st sess :
  good_login bcrypt_compare validUsername validPasswordHash r = false ->
  no_factor sess ->
  no_factor (route_session bcrypt_compare validUsername validPasswordHash production
               r st sess).
Proof.
  intros Hbad [Ha Hp]. destruct r as [body|token|token|setupId|bn|bn|];
    cbn [route_session good_login] in *.
  - assert (Hs : session_after sess
                   (postLogin bcrypt_compare validUsername validPasswordHash sess body st)
                 = sess).
    { unfold session_after, postLogin. destruct st as [p u tm c].
      destruct (credentials_ok _ _ _ body) as [[|]|e]; [discriminate | |]; reflexivity. }
    rewrite Hs. split; assumption.
  - destruct (postMfaSetup_cases sess token st)
      as [[_ Hr] | (setupId & Hpv & _)]; [|congruence].
    unfold session_after. rewrite Hr. split; assumption.
  - destruct (postMfaVerify_cases sess token st)
      as [_ [[_ Hr] | [(Hpv & _) | [(Hpv & _) | (Hpv & _)]]]]; try congruence.
    unfold session_after. rewrite Hr. split; assumption.
  - rewrite Hp. split; assumption.
  - destruct (postMfaCleanup_session sess bn st) as [Ha' Hp'].
    split; congruence.
  - destruct (postMfaReset_session sess bn st) as [Ha' Hp'].
    split; [|congruence].
    destruct (authenticated (session_after sess _)) eqn:E; [|reflexivity].
    rewrite (Ha' eq_refl) in Ha. discriminate.
  - split; reflexivity.
Qed.

End SessionFacts.

(** X13: the password cannot be skipped.  From a session that has
    passed no factor (a new session, for one), no sequence of requests
    to the router (logins that fail, POST /mfa-setup, POST /mfa-verify,
    GET /mfa-setup, the maintenance routes, logout), with whatever
    tokens and whatever the manager holds at each request, leaves the
    session authenticated or password-verified, as long as no login
    with accepted credentials is among them. *)
Theorem X13_password_cannot_be_skipped
    (bcrypt_compare : string -> string -> bool)
    (validUsername validPasswordHash : string) (production : bool)
    (rs : list (Route * MFA.State)) (sess : Auth.Session) :
  Auth.authenticated sess = false ->
  Auth.passwordVerified sess = false ->
  Forall (fun e => good_login bcrypt_compare validUsername validPasswordHash e.1 = false)
         rs ->
  let sess' :=
    run_routes bcrypt_compare validUsername validPasswordHash production rs sess in
  Auth.authenticated sess' = false /\ Auth.passwordVerified sess' = false.
Proof.
  intros Ha Hp Hrs. cbn zeta.
  assert (H0 : no_factor sess) by (split; assumption). clear Ha Hp.
  revert sess H0. induction Hrs as [|[r st] rs Hr _ IH]; intros sess H0.
  - exact H0.
  - cbn [run_routes]. apply IH.
    apply route_keeps_no_factor; [exact Hr | exact H0].
Qed.

Lemma X13_witness :
  let cmp := fun p h : string => String.eqb h ("bcrypt:" +:+ p) in
  let secret := "GEZDGNBVGY3TQOJQGEZDGNBVGY3TQOJQ" in
  let st := MFA.mkState {[ "id-1" := MFA.mkSetup "admin" secret 1735734000000 ]}
                        {[ "admin" := secret ]} [] 1735734540000 in
  let rs := [ (PostLogin (Auth.mkLoginBody (Some "admin") (Some "guess")), st);
              (GetMfaSetup "id-1", st);
              (PostMfaSetup "127086", st);
              (PostMfaVerify "127086", st);
              (PostMfaReset (Some "admin"), st) ] in
  Auth.authenticated (run_routes cmp "admin" "bcrypt:s3cret" false rs Auth.anonymous)
  = false.
Proof.
  intros cmp secret st rs.
  apply (X13_password_cannot_be_skipped cmp "admin" "bcrypt:s3cret" false rs
           Auth.anonymous); [reflexivity | reflexivity |].
  repeat constructor.
Defined.

(** X14: the maintenance routes.  In production POST /mfa-reset and
    POST /mfa-cleanup answer 404 and change nothing.  Otherwise they ask
    for no authentication: for a session without a username, POST
    /mfa-reset with a name in the body removes that user's secret (every
    token is refused for the user afterwards) and POST /mfa-cleanup
    removes that user's pending setups. *)
Theorem X14_maintenance_routes
    (sess : Auth.Session) (name token : string) (st : MFA.State) :
  Auth.username sess = None ->
  name <> EmptyString ->
  let reset := Auth.postMfaReset false sess (Some name) st in
  let cleanup := Auth.postMfaCleanup false sess (Some name) st in
  (forall body_name,
     Auth.postMfaReset true sess body_name st = (Ret (Auth.DevNotFound, sess), st, [])
     /\ Auth.postMfaCleanup true sess body_name st
        = (Ret (Auth.DevNotFound, sess), st, []))
  /\ (exists sess',
        MFA.result reset
        = Ret (Auth.DevReset name (bool_decide (is_Some (MFA.userSecrets st !! name))),
               sess')
        /\ Auth.authenticated sess' = false)
  /\ MFA.userSecrets (MFA.state_of reset) !! name = None
  /\ MFA.result (MFA.verifyToken name token (MFA.state_of reset)) = Ret false
  /\ (exists sess',
        MFA.result cleanup
        = Ret (Auth.DevCleaned name
                 (List.length (MFA.setupsOf name (MFA.pendingSetups st))), sess'))
  /\ MFA.setupsOf name (MFA.pendingSetups (MFA.state_of cleanup)) = [].
Proof.
  intros Hanon Hname reset cleanup. subst reset cleanup.
  split; [intros body_name; split; reflexivity|].
  unfold Auth.postMfaReset, Auth.postMfaCleanup, Auth.or_else.
  rewrite Hanon. change (truthy None) with false. cbv iota.
  rewrite (truthy_Some _ Hname). cbn [negb default]. unfold id.
  assert (Hrun : exists tr,
            MFA.resetMFA name st
            = (Ret (bool_decide (is_Some (MFA.userSecrets st !! name))),
               MFA.mkState (MFA.pendingSetups st) (delete name (MFA.userSecrets st))
                           (MFA.timers st) (MFA.clock st), tr))
    by (destruct st; eexists; reflexivity).
  destruct Hrun as [tr Hrun].
  unfold mbind, MFA.M_bind. rewrite Hrun, cleanupUserSetups_eq.
  cbn [MFA.result MFA.state_of mret MFA.M_ret fst snd MFA.userSecrets MFA.pendingSetups].
  assert (Hgone : delete name (MFA.userSecrets st) !! name = None)
    by apply lookup_delete_eq.
  split; [|split; [|split; [|split]]].
  - eexists. split; [reflexivity|].
    destruct (Auth.authenticated (Auth.drop_setup_id sess)) eqn:E;
      [reflexivity | exact E].
  - exact Hgone.
  - apply verifyToken_no_secret. exact Hgone.
  - eexists. reflexivity.
  - apply setupsOf_nil. intros k s Hk. apply lookup_cleanup in Hk as [_ Hu]. exact Hu.
Qed.

Lemma X14_witness :
  let st := MFA.mkState ∅ {[ "admin" := "GEZDGNBVGY3TQOJQGEZDGNBVGY3TQOJQ" ]} []
                        1735734540000 in
  let reset := Auth.postMfaReset false Auth.anonymous (Some "admin") st in
  MFA.result (MFA.verifyToken "admin" "127086" st) = Ret true
  /\ MFA.userSecrets (MFA.state_of reset) !! "admin" = None
  /\ MFA.result (MFA.verifyToken "admin" "127086" (MFA.state_of reset)) = Ret false.
Proof.
  intros st reset.
  destruct (X14_maintenance_routes Auth.anonymous "admin" "127086" st)
    as (_ & _ & Hgone & Hver & _); [reflexivity | discriminate |].
  split; [vm_compute; reflexivity|]. split; [exact Hgone | exact Hver].
Defined.

(** * Further properties of the gate *)

Section PrefixFacts.

Lemma append_cons a p r : String a p +:+ r = String a (p +:+ r).
Proof. reflexivity. Qed.

Lemma append_assoc p q r : (p +:+ q) +:+ r = p +:+ q +:+ r.
Proof.
  induction p as [|a p IH]; [reflexivity|]. rewrite !append_cons, IH. reflexivity.
Qed.

Lemma append_nil_r p : p +:+ EmptyString = p.
Proof.
  induction p as [|a p IH]; [reflexivity|]. rewrite append_cons, IH. reflexivity.
Qed.

Lemma length_append p r :
  String.length (p +:+ r) = (String.length p + String.length r)%nat.
Proof.
  induction p as [|a p IH]; [reflexivity|].
  rewrite append_cons. cbn [String.length]. rewrite IH. reflexivity.
Qed.

Lemma prefix_app p r : String.prefix p (p +:+ r) = true.
Proof.
  induction p as [|a p IH]; [destruct r; reflexivity|].
  change (String a p +:+ r) with (String a (p +:+ r)). cbn [String.prefix].
  destruct (ascii_dec a a); [exact IH | contradiction].
Qed.

Lemma prefix_inv p s : String.prefix p s = true -> exists r, s = p +:+ r.
Proof.
  revert p. induction s as [|b s IH]; intros [|a p] H.
  - exists EmptyString. reflexivity.
  - discriminate.
  - exists (String b s). reflexivity.
  - cbn [String.prefix] in H. destruct (ascii_dec a b) as [->|]; [|discriminate].
    destruct (IH p H) as [r ->]. exists r. reflexivity.
Qed.

Lemma prefix_comparable a b s :
  String.prefix a s = true -> String.prefix b s = true ->
  String.prefix a b = true \/ String.prefix b a = true.
Proof.
  revert a b. induction s as [|c s IH]; intros [|x a] [|y b] Ha Hb;
    try discriminate; try (left; reflexivity); try (right; reflexivity).
  cbn [String.prefix] in *.
  destruct (ascii_dec x c) as [->|]; [|discriminate].
  destruct (ascii_dec y c) as [->|]; [|discriminate].
  destruct (ascii_dec c c); [|contradiction]. exact (IH a b Ha Hb).
Qed.

Lemma prefix_other_char p c suffix :
  c <> "/"%char -> String.prefix (p +:+ "/") (p +:+ String c suffix) = false.
Proof.
  intros Hc. induction p as [|a p IH].
  - change (String.prefix "/" (String c suffix) = false). cbn [String.prefix].
    destruct (ascii_dec "/"%char c) as [<-|]; [contradiction | reflexivity].
  - change (String a p +:+ "/") with (String a (p +:+ "/")).
    change (String a p +:+ String c suffix) with (String a (p +:+ String c suffix)).
    cbn [String.prefix]. destruct (ascii_dec a a); [exact IH | contradiction].
Qed.

Lemma append_longer p c suffix : p +:+ String c suffix <> p.
Proof.
  intros H. apply (f_equal String.length) in H.
  rewrite length_append in H. cbn [String.length] in H. lia.
Qed.

End PrefixFacts.

Lemma pathFilter_local path : Gate.pathFilter path = negb (local_path path).
Proof.
  unfold Gate.pathFilter, local_path.
  destruct (startsWith path "/auth/"); [reflexivity|].
  destruct (_ || _); reflexivity.
Qed.

Lemma isPublicPath_spec publicPaths path :
  Gate.isPublicPath publicPaths path = true
  <-> exists p, In p publicPaths
                /\ (path = p \/ exists rest, path = p +:+ "/" +:+ rest).
Proof.
  unfold Gate.isPublicPath. rewrite existsb_exists. split.
  - intros (p & Hin & Hp). exists p. split; [exact Hin|].
    apply orb_true_iff in Hp as [Hp|Hp].
    + left. apply String.eqb_eq. exact Hp.
    + right. unfold startsWith in Hp. apply prefix_inv in Hp as [r ->].
      exists r. rewrite <- append_assoc. reflexivity.
  - intros (p & Hin & [->|[rest ->]]); exists p; (split; [exact Hin|]).
    + rewrite String.eqb_refl. reflexivity.
    + apply orb_true_iff. right. unfold startsWith.
      rewrite <- append_assoc. apply prefix_app.
Qed.

(** The second middleware and the proxy behind it, for a request whose
    session is not authenticated. *)
Lemma gated_proxy_unauthenticated publicPaths req :
  Gate.session_authenticated req = false ->
  gated_proxy publicPaths req
  = if local_path (Gate.path req) then Ret NotFound
    else if Gate.isPublicPath publicPaths (Gate.path req) then Ret Proxied
    else if wants_json req then Ret (Json 401 "Unauthorized")
    else if bool_decide (Gate.upgrade req = Some "websocket") then Ret (Empty 401)
    else Ret (Redirect "/auth/login").
Proof.
  intros Hanon. unfold gated_proxy, Gate.chain, Gate.smartProxy, Gate.proxyMiddleware.
  rewrite pathFilter_local. fold (local_path (Gate.path req)). rewrite Hanon.
  fold (wants_json req).
  destruct (local_path (Gate.path req)); cbn [negb]; [reflexivity|].
  destruct (Gate.isPublicPath publicPaths (Gate.path req)); [reflexivity|].
  destruct (wants_json req); [reflexivity|].
  destruct (bool_decide _); reflexivity.
Qed.

Lemma app_after_login_check publicPaths req :
  Gate.app publicPaths req
  = match Gate.statusRoutes req with
    | Ret (Some r) => Ret r
    | Ret None =>
        match Gate.authRouter req with
        | Ret (Some r) => Ret r
        | Ret None =>
            match Gate.requireLogin req with
            | Ret (Some r) => Ret r
            | Ret None => gated_proxy publicPaths req
            | Throw e => Throw e
            end
        | Throw e => Throw e
        end
    | Throw e => Throw e
    end.
Proof. reflexivity. Qed.

Lemma local_routes_not_proxied req r :
  Gate.statusRoutes req = Ret (Some r) \/ Gate.authRouter req = Ret (Some r) ->
  r <> Proxied.
Proof.
  unfold Gate.statusRoutes, Gate.authRouter. intros [H|H].
  - destruct (_ && _); [congruence|]. destruct (_ && _); congruence.
  - destruct (find _ _); congruence.
Qed.

Lemma public_paths_outside_auth publicPaths path :
  forallb (fun p => negb (reaches_auth p)) publicPaths = true ->
  Gate.isPublicPath publicPaths path = true ->
  startsWith path "/auth" = false.
Proof.
  intros Hfree Hpub. destruct (startsWith path "/auth") eqn:Hauth; [|reflexivity].
  exfalso. apply isPublicPath_spec in Hpub as (p & Hin & Hp).
  rewrite forallb_forall in Hfree. specialize (Hfree p Hin).
  apply negb_true_iff in Hfree. unfold reaches_auth in Hfree.
  apply orb_false_iff in Hfree as [Hfree H3].
  apply orb_false_iff in Hfree as [H1 H2].
  unfold startsWith in Hauth. destruct Hp as [->|[rest ->]]; [congruence|].
  rewrite <- append_assoc in Hauth.
  destruct (prefix_comparable "/auth" (p +:+ "/") _ Hauth (prefix_app _ rest));
    congruence.
Qed.

Lemma gated_proxy_forwards_public publicPaths req :
  Gate.session_authenticated req = false ->
  gated_proxy publicPaths req = Ret Proxied ->
  Gate.isPublicPath publicPaths (Gate.path req) = true
  /\ Gate.pathFilter (Gate.path req) = true.
Proof.
  intros Hanon. rewrite (gated_proxy_unauthenticated publicPaths req Hanon).
  rewrite pathFilter_local.
  destruct (local_path (Gate.path req)); cbn [negb]; [discriminate|].
  destruct (Gate.isPublicPath publicPaths (Gate.path req)); [auto|].
  destruct (wants_json req); [discriminate|].
  destruct (bool_decide _); discriminate.
Qed.

(** X15: a path is public exactly when it is one of the entries or
    continues one of them with a slash; a path that only lengthens the
    last segment of an entry (/public against /publicity) is not public
    on account of that entry. *)
Theorem X15_public_paths_match_whole_segments
    (publicPaths : list string) (path p : string) (c : ascii) (suffix : string) :
  (Gate.isPublicPath publicPaths path = true
   <-> exists q, In q publicPaths
                 /\ (path = q \/ exists rest, path = q +:+ "/" +:+ rest))
  /\ (c <> "/"%char -> Gate.isPublicPath [p] (p +:+ String c suffix) = false).
Proof.
  split; [apply isPublicPath_spec|].
  intros Hc. unfold Gate.isPublicPath, existsb, startsWith.
  rewrite (prefix_other_char p c suffix Hc), orb_false_r, orb_false_r.
  apply String.eqb_neq, append_longer.
Qed.

(** X16: the second middleware with the proxy behind it, for a request
    whose session is not authenticated: the request is forwarded exactly
    when its path is public and is not one the proxy leaves to the local
    routes (/auth/..., /health, /proxy-status); a private path is
    answered with 401 and a JSON body when the request accepts JSON
    (also for a WebSocket handshake), else with a bare 401 for a
    WebSocket handshake, else with a redirect to the login page. *)
Theorem X16_private_paths_are_challenged
    (publicPaths : list string) (req : Gate.Request) :
  Gate.session_authenticated req = false ->
  (gated_proxy publicPaths req = Ret Proxied
   <-> Gate.isPublicPath publicPaths (Gate.path req) = true
       /\ Gate.pathFilter (Gate.path req) = true)
  /\ (Gate.pathFilter (Gate.path req) = true ->
      Gate.isPublicPath publicPaths (Gate.path req) = false ->
      gated_proxy publicPaths req
      = if wants_json req then Ret (Json 401 "Unauthorized")
        else if bool_decide (Gate.upgrade req = Some "websocket") then Ret (Empty 401)
        else Ret (Redirect "/auth/login")).
Proof.
  intros Hanon. rewrite (gated_proxy_unauthenticated publicPaths req Hanon).
  rewrite pathFilter_local.
  destruct (local_path (Gate.path req)); cbn [negb].
  - split; [split; [discriminate | intros [_ ?]; discriminate] | discriminate].
  - destruct (Gate.isPublicPath publicPaths (Gate.path req)).
    + split; [split; auto | discriminate].
    + split; [|reflexivity].
      split; [|intros [? _]; discriminate].
      destruct (wants_json req); [discriminate|].
      destruct (bool_decide _); discriminate.
Qed.

Lemma X16_witness :
  let req a u := Gate.mkRequest Gate.GET "/private" a u None in
  gated_proxy ["/public"] (Gate.mkRequest Gate.GET "/public/x" None None None)
  = Ret Proxied
  /\ gated_proxy ["/public"] (req None None) = Ret (Redirect "/auth/login")
  /\ gated_proxy ["/public"] (req (Some "application/json") (Some "websocket"))
     = Ret (Json 401 "Unauthorized")
  /\ gated_proxy ["/public"] (req None (Some "websocket")) = Ret (Empty 401).
Proof.
  intros req.
  split.
  - apply (X16_private_paths_are_challenged ["/public"]
             (Gate.mkRequest Gate.GET "/public/x" None None None)); [reflexivity|].
    split; reflexivity.
  - split; [|split].
    + apply (X16_private_paths_are_challenged ["/public"] (req None None));
        reflexivity.
    + apply (X16_private_paths_are_challenged ["/public"]
               (req (Some "application/json") (Some "websocket"))); reflexivity.
    + apply (X16_private_paths_are_challenged ["/public"] (req None (Some "websocket")));
        reflexivity.
Defined.

(** X17: through the whole application a request whose session is not
    authenticated is forwarded only when its path starts with /auth,
    does not start with /auth/, and is public.  With a list of public
    paths none of which can match a path under /auth, the default list
    for one, no such request is ever forwarded. *)
Theorem X17_unauthenticated_requests_are_not_forwarded
    (publicPaths : list string) (req : Gate.Request) (sess : Auth.Session) :
  Gate.session req = Some sess ->
  Auth.authenticated sess = false ->
  (Gate.app publicPaths req = Ret Proxied ->
   startsWith (Gate.path req) "/auth" = true
   /\ startsWith (Gate.path req) "/auth/" = false
   /\ Gate.isPublicPath publicPaths (Gate.path req) = true)
  /\ (forallb (fun p => negb (reaches_auth p)) publicPaths = true ->
      Gate.app publicPaths req <> Ret Proxied)
  /\ Gate.app Gate.defaultPublicPaths req <> Ret Proxied.
Proof.
  intros Hs Ha.
  assert (Hanon : Gate.session_authenticated req = false)
    by (unfold Gate.session_authenticated; rewrite Hs; exact Ha).
  assert (Hmain : forall pp, Gate.app pp req = Ret Proxied ->
            startsWith (Gate.path req) "/auth" = true
            /\ startsWith (Gate.path req) "/auth/" = false
            /\ Gate.isPublicPath pp (Gate.path req) = true).
  { intros pp Happ. rewrite app_after_login_check in Happ.
    destruct (Gate.statusRoutes req) as [[r|]|e] eqn:H1;
      [injection Happ as ->; exfalso;
       exact (local_routes_not_proxied req Proxied (or_introl H1) eq_refl) | |
       discriminate].
    destruct (Gate.authRouter req) as [[r|]|e] eqn:H2;
      [injection Happ as ->; exfalso;
       exact (local_routes_not_proxied req Proxied (or_intror H2) eq_refl) | |
       discriminate].
    unfold Gate.requireLogin in Happ. rewrite Hs, Ha in Happ. cbn [negb andb] in Happ.
    destruct (startsWith (Gate.path req) "/auth") eqn:Hauth; cbn [negb] in Happ;
      [|discriminate].
    apply (gated_proxy_forwards_public pp req Hanon) in Happ as [Hpub Hfilter].
    rewrite pathFilter_local in Hfilter. apply negb_true_iff in Hfilter.
    unfold local_path in Hfilter. apply orb_false_iff in Hfilter as [Hfilter _].
    apply orb_false_iff in Hfilter as [Hfilter _]. auto. }
  split; [apply Hmain|]. 
  assert (Hfree : forall pp, forallb (fun p => negb (reaches_auth p)) pp = true ->
                             Gate.app pp req <> Ret Proxied).
  { intros pp Hpp Happ. destruct (Hmain pp Happ) as (Hauth & _ & Hpub).
    rewrite (public_paths_outside_auth pp _ Hpp Hpub) in Hauth. discriminate. }
  split; [apply Hfree|]. apply Hfree. reflexivity.
Qed.

Lemma X17_witness :
  let req := Gate.mkRequest Gate.POST "/api/auth/token" (Some "application/json") None
               (Some Auth.anonymous) in
  Gate.isPublicPath Gate.defaultPublicPaths (Gate.path req) = true
  /\ Gate.app Gate.defaultPublicPaths req <> Ret Proxied.
Proof.
  intros req. split; [reflexivity|].
  apply (X17_unauthenticated_requests_are_not_forwarded Gate.defaultPublicPaths req
           Auth.anonymous); reflexivity.
Defined.

Lemma find_all_false {A} (f : A -> bool) l :
  Forall (fun x => f x = false) l -> List.find f l = None.
Proof.
  induction 1 as [|x l Hx _ IH]; [reflexivity|]. cbn [find]. rewrite Hx. exact IH.
Qed.

Lemma starts_below p mount r :
  p = mount +:+ "/" +:+ r -> startsWith p (mount +:+ "/") = true.
Proof. intros ->. unfold startsWith. rewrite <- append_assoc. apply prefix_app. Qed.

Lemma mounted_static path :
  Gate.mounted "/auth/static" path = true -> Gate.mounted "/auth" path = true.
Proof.
  unfold Gate.mounted. cbv zeta. generalize (Gate.lowercase path). intros p H.
  apply orb_true_iff in H as [H|H].
  - apply String.eqb_eq in H. subst p. reflexivity.
  - unfold startsWith in H. apply prefix_inv in H as [r ->]. vm_compute. reflexivity.
Qed.

Lemma route_outside_mount route path :
  Gate.mounted "/auth" path = false ->
  Gate.route_matches ("/auth" +:+ String "/" route) path = false.
Proof.
  unfold Gate.mounted, Gate.route_matches. cbv zeta. generalize (Gate.lowercase path).
  intros p H. apply orb_false_iff in H as [_ H].
  apply orb_false_iff. split; apply String.eqb_neq; intros ->.
  - rewrite (starts_below _ "/auth" route) in H; [discriminate|reflexivity].
  - rewrite (starts_below _ "/auth" (route +:+ "/")) in H; [discriminate|].
    rewrite <- !append_assoc. reflexivity.
Qed.

Lemma authRouter_outside_mount req :
  Gate.mounted "/auth" (Gate.path req) = false -> Gate.authRouter req = Ret None.
Proof.
  intros H. unfold Gate.authRouter. rewrite find_all_false; [reflexivity|].
  unfold Gate.authRoutes.
  repeat constructor; cbn [fst snd];
    rewrite (route_outside_mount _ _ H); apply andb_false_r.
Qed.

(** ** The handlers before the routes *)

Section ServerFacts.

Variable express_json : Gate.Incoming -> Js unit.
Variable express_urlencoded : Gate.Incoming -> Js unit.
Variable express_static : Gate.Incoming -> Js bool.

Lemma parser_never_answers p inc r : Gate.parser p inc <> Ret (Some r).
Proof. unfold Gate.parser. destruct (p inc); discriminate. Qed.

Lemma parseProxiedBody_never_answers inc r :
  Gate.parseProxiedBody express_json express_urlencoded inc <> Ret (Some r).
Proof.
  unfold Gate.parseProxiedBody. cbv zeta.
  destruct (_ || _); [discriminate|]. destruct (_ || _); [|discriminate].
  destruct (includes _ _); [apply parser_never_answers|].
  destruct (includes _ _); [apply parser_never_answers | discriminate].
Qed.

(** Before the routes nothing is forwarded. *)
Lemma beforeRoutes_not_proxied inc :
  Gate.first_answer (Gate.beforeRoutes express_json express_urlencoded express_static) inc
  <> Ret (Some Proxied).
Proof.
  unfold Gate.beforeRoutes, Gate.first_answer, Gate.under.
  destruct (Gate.mounted "/auth" _).
  - destruct (Gate.parser express_json inc) as [[r|]|e] eqn:H1;
      [exfalso; exact (parser_never_answers _ _ _ H1) | | discriminate].
    destruct (Gate.parser express_urlencoded inc) as [[r|]|e] eqn:H2;
      [exfalso; exact (parser_never_answers _ _ _ H2) | | discriminate].
    destruct (Gate.parseProxiedBody _ _ inc) as [[r|]|e] eqn:H3;
      [exfalso; exact (parseProxiedBody_never_answers _ _ H3) | | discriminate].
    destruct (Gate.mounted "/auth/static" _); [|discriminate].
    unfold Gate.staticFiles. destruct (express_static inc) as [[|]|e]; discriminate.
  - destruct (Gate.parseProxiedBody _ _ inc) as [[r|]|e] eqn:H3;
      [exfalso; exact (parseProxiedBody_never_answers _ _ H3) | | discriminate].
    destruct (Gate.mounted "/auth/static" _); [|discriminate].
    unfold Gate.staticFiles. destruct (express_static inc) as [[|]|e]; discriminate.
Qed.

Lemma beforeRoutes_outside_mount inc :
  Gate.mounted "/auth" (Gate.path (Gate.request inc)) = false ->
  Gate.first_answer (Gate.beforeRoutes express_json express_urlencoded express_static) inc
  = Gate.parseProxiedBody express_json express_urlencoded inc.
Proof.
  intros H. unfold Gate.beforeRoutes, Gate.first_answer, Gate.under.
  rewrite H.
  destruct (Gate.mounted "/auth/static" _) eqn:Hs;
    [rewrite (mounted_static _ Hs) in H; discriminate|].
  destruct (Gate.parseProxiedBody _ _ inc) as [[r|]|e]; reflexivity.
Qed.

Lemma app_not_proxied_when_local publicPaths req :
  Gate.pathFilter (Gate.path req) = false -> Gate.app publicPaths req <> Ret Proxied.
Proof.
  intros Hlocal. rewrite app_after_login_check. intros Happ.
  destruct (Gate.statusRoutes req) as [[r|]|e] eqn:H1;
    [injection Happ as ->;
     exact (local_routes_not_proxied req Proxied (or_introl H1) eq_refl) | |
     discriminate].
  destruct (Gate.authRouter req) as [[r|]|e] eqn:H2;
    [injection Happ as ->;
     exact (local_routes_not_proxied req Proxied (or_intror H2) eq_refl) | |
     discriminate].
  destruct (Gate.requireLogin req) as [[r|]|e] eqn:H3; [| |discriminate].
  - unfold Gate.requireLogin in H3. destruct (Gate.session req); [|discriminate].
    destruct (_ && _); congruence.
  - unfold gated_proxy, Gate.chain, Gate.smartProxy, Gate.proxyMiddleware in Happ.
    rewrite Hlocal in Happ.
    rewrite pathFilter_local in Hlocal. apply negb_false_iff in Hlocal.
    fold (local_path (Gate.path req)) in Happ. rewrite Hlocal in Happ. discriminate.
Qed.

Lemma app_forwards_authenticated publicPaths req sess :
  Gate.session req = Some sess ->
  Auth.authenticated sess = true ->
  Gate.pathFilter (Gate.path req) = true ->
  Gate.statusRoutes req = Ret None ->
  Gate.authRouter req = Ret None ->
  Gate.app publicPaths req = Ret Proxied.
Proof.
  intros Hs Ha Hfilter H1 H2. rewrite app_after_login_check, H1, H2.
  unfold Gate.requireLogin. rewrite Hs, Ha. cbn [negb andb].
  unfold gated_proxy, Gate.chain, Gate.smartProxy, Gate.proxyMiddleware,
    Gate.session_authenticated.
  rewrite Hs, Ha, Hfilter. cbn [negb].
  destruct (_ || _); [reflexivity|].
  destruct (Gate.isPublicPath _ _); reflexivity.
Qed.

Lemma pathFilter_false path :
  Gate.pathFilter path = false
  <-> startsWith path "/auth/" = true \/ path = "/health" \/ path = "/proxy-status".
Proof.
  rewrite pathFilter_local, negb_false_iff. unfold local_path.
  rewrite !orb_true_iff, !String.eqb_eq. tauto.
Qed.

End ServerFacts.

(** X18: what the filter of the proxy leaves to the local routes.  It
    refuses exactly the paths that start with /auth/ and the two paths
    /health and /proxy-status; such a request is never forwarded, by the
    application with the handlers before its routes or by the upgrade
    listener, whatever the session and the public paths.  A path below
    /health or /proxy-status passes the filter, and the upgrade listener
    relays it.  For an authenticated session, a request outside /auth
    that passes the filter and that no status route answers ends as the
    body middleware decides: forwarded when that middleware calls
    [next()], which it does for every method but POST, PUT and PATCH,
    and answered with the error of the parser when the parser rejects
    the body. *)
Theorem X18_local_paths_stay_local
    (express_json express_urlencoded : Gate.Incoming -> Js unit)
    (express_static : Gate.Incoming -> Js bool)
    (publicPaths : list string) (inc : Gate.Incoming) (sess : Auth.Session)
    (rest : string) :
  let req := Gate.request inc in
  let server := Gate.server express_json express_urlencoded express_static publicPaths in
  (Gate.pathFilter (Gate.path req) = false
   <-> startsWith (Gate.path req) "/auth/" = true
       \/ Gate.path req = "/health" \/ Gate.path req = "/proxy-status")
  /\ (Gate.pathFilter (Gate.path req) = false ->
      server inc <> Ret Proxied /\ Gate.onUpgrade req = Gate.UpgradeIgnored)
  /\ (Gate.pathFilter ("/health/" +:+ rest) = true
      /\ Gate.pathFilter ("/proxy-status/" +:+ rest) = true
      /\ (Gate.path req = "/health/" +:+ rest \/ Gate.path req = "/proxy-status/" +:+ rest ->
          Gate.onUpgrade req = Gate.UpgradeProxied))
  /\ (Gate.session req = Some sess ->
      Auth.authenticated sess = true ->
      Gate.pathFilter (Gate.path req) = true ->
      Gate.mounted "/auth" (Gate.path req) = false ->
      Gate.statusRoutes req = Ret None ->
      server inc
      = match Gate.parseProxiedBody express_json express_urlencoded inc with
        | Ret None => Ret Proxied
        | Ret (Some r) => Ret r
        | Throw e => Throw e
        end
      /\ (Gate.method req <> Gate.POST -> Gate.method req <> Gate.PUT ->
          Gate.method req <> Gate.PATCH -> server inc = Ret Proxied)).
Proof.
  intros req server.
  assert (Hbelow : Gate.pathFilter ("/health/" +:+ rest) = true
                   /\ Gate.pathFilter ("/proxy-status/" +:+ rest) = true)
    by (split; vm_compute; reflexivity).
  split; [apply pathFilter_false|]. split; [|split].
  - intros Hlocal. split; [|unfold Gate.onUpgrade; rewrite Hlocal; reflexivity].
    unfold server, Gate.server.
    destruct (Gate.first_answer _ inc) as [[r|]|e] eqn:Hb; [| |discriminate].
    + intros [= ->]. exact (beforeRoutes_not_proxied _ _ _ inc Hb).
    + apply app_not_proxied_when_local. exact Hlocal.
  - destruct Hbelow as [Hh Hp]. split; [exact Hh|]. split; [exact Hp|].
    unfold Gate.onUpgrade. intros [->| ->]; [rewrite Hh | rewrite Hp]; reflexivity.
  - intros Hs Ha Hfilter Hmount Hstatus.
    assert (Happ : Gate.app publicPaths req = Ret Proxied).
    { apply (app_forwards_authenticated publicPaths req sess); try assumption.
      apply authRouter_outside_mount. exact Hmount. }
    assert (Hserver : server inc
              = match Gate.parseProxiedBody express_json express_urlencoded inc with
                | Ret None => Ret Proxied
                | Ret (Some r) => Ret r
                | Throw e => Throw e
                end).
    { unfold server, Gate.server.
      rewrite (beforeRoutes_outside_mount _ _ _ inc Hmount).
      destruct (Gate.parseProxiedBody _ _ inc) as [[r|]|e]; [reflexivity| |reflexivity].
      exact Happ. }
    split; [exact Hserver|].
    intros H1 H2 H3. rewrite Hserver. unfold Gate.parseProxiedBody. cbv zeta.
    destruct (_ || _); [reflexivity|].
    rewrite !bool_decide_eq_false_2 by assumption. reflexivity.
Qed.

Lemma X18_witness :
  let express_json (inc : Gate.Incoming) : Js unit :=
    match Json.parse (Gate.rawBody inc) with
    | Ret _ => Ret tt
    | Throw _ => Throw "400 Bad Request"
    end in
  let express_urlencoded (inc : Gate.Incoming) : Js unit := Ret tt in
  let express_static (inc : Gate.Incoming) : Js bool := Ret false in
  let server := Gate.server express_json express_urlencoded express_static
                  Gate.defaultPublicPaths in
  let member := Auth.mkSession true false (Some "bob") (Some "bob") None in
  let post body :=
    Gate.mkIncoming (Gate.mkRequest Gate.POST "/api/items" None None (Some member))
      (Some "application/json; charset=utf-8") body in
  let get_ :=
    Gate.mkIncoming (Gate.mkRequest Gate.GET "/api/items" None None (Some member))
      None EmptyString in
  server (post "{") = Throw "400 Bad Request"
  /\ server (post "{}") = Ret Proxied
  /\ server get_ = Ret Proxied.
Proof.
  intros express_json express_urlencoded express_static server member post get_.
  split; [|split].
  - destruct (X18_local_paths_stay_local express_json express_urlencoded express_static
                Gate.defaultPublicPaths (post "{") member EmptyString)
      as (_ & _ & _ & H).
    specialize (H eq_refl eq_refl eq_refl eq_refl eq_refl) as [H _]. exact H.
  - destruct (X18_local_paths_stay_local express_json express_urlencoded express_static
                Gate.defaultPublicPaths (post "{}") member EmptyString)
      as (_ & _ & _ & H).
    specialize (H eq_refl eq_refl eq_refl eq_refl eq_refl) as [H _]. exact H.
  - destruct (X18_local_paths_stay_local express_json express_urlencoded express_static
                Gate.defaultPublicPaths get_ member EmptyString)
      as (_ & _ & _ & H).
    specialize (H eq_refl eq_refl eq_refl eq_refl eq_refl) as [_ H].
    apply H; discriminate.
Defined.

(** X19: the public paths the application starts with.  Without
    PUBLIC_PATHS, or with an empty value, they are the default list.  A
    value that [JSON.parse] accepts is taken as it is: it replaces the
    default list, it is not added to it. *)
Theorem X19_public_paths_are_replaced
    (JSON_parse : string -> Js Json.json) (text : string) (v : Json.json) :
  text <> EmptyString ->
  JSON_parse text = Ret v ->
  Gate.getPublicPaths JSON_parse (Some text) = Ret v
  /\ Gate.getPublicPaths JSON_parse None = Ret (Json.of_paths Gate.defaultPublicPaths)
  /\ Gate.getPublicPaths JSON_parse (Some EmptyString)
     = Ret (Json.of_paths Gate.defaultPublicPaths).
Proof.
  intros Hne Hv. split; [|split; reflexivity].
  unfold Gate.getPublicPaths. rewrite (truthy_Some _ Hne).
  cbn [default]. unfold id. rewrite Hv. reflexivity.
Qed.

Lemma X19_witness :
  Gate.getPublicPaths Json.parse (Some "[]") = Ret (Json.JArr [])
  /\ Json.to_paths (Json.JArr []) = Some [].
Proof.
  split; [|reflexivity].
  apply (X19_public_paths_are_replaced Json.parse "[]" (Json.JArr []));
    [discriminate | reflexivity].
Defined.

(** * The lifetime of a pending setup *)

Section LifetimeFacts.

Import MFA.

Lemma perform_keeps_present c st k setup :
  leaves_setup (username setup) k c = true ->
  pendingSetups st !! k = Some setup ->
  pendingSetups (state_of (perform c st)) !! k = Some setup.
Proof.
  intros Hc Hk.
  destruct c as [d u|k' token|u|u token|u]; cbn [perform leaves_setup] in *;
    rewrite bind_mret_state.
  - apply andb_true_iff in Hc as [Hu Hd].
    apply negb_true_iff, String.eqb_neq in Hu, Hd.
    rewrite generateSecret_state. cbn [pendingSetups].
    rewrite lookup_insert_ne by done. apply lookup_cleanup. split; [exact Hk|].
    congruence.
  - apply negb_true_iff, String.eqb_neq in Hc.
    destruct (completeMFASetup_state k' token st) as [-> | (s' & _ & ->)];
      [exact Hk|].
    cbn [pendingSetups]. rewrite lookup_delete_ne by done. exact Hk.
  - apply negb_true_iff, String.eqb_neq in Hc.
    rewrite cleanupUserSetups_eq. cbn [state_of fst snd pendingSetups].
    apply lookup_cleanup. split; [exact Hk | congruence].
  - rewrite verifyToken_state. exact Hk.
  - rewrite resetMFA_state. exact Hk.
Qed.

Lemma perform_new_timers c st user k due :
  leaves_setup user k c = true ->
  (due, k) ∈ timers (state_of (perform c st)) -> (due, k) ∈ timers st.
Proof.
  intros Hc.
  destruct c as [d u|k' token|u|u token|u]; cbn [perform leaves_setup] in *;
    rewrite bind_mret_state.
  - apply andb_true_iff in Hc as [_ Hd].
    apply negb_true_iff, String.eqb_neq in Hd.
    rewrite generateSecret_state. cbn [timers].
    rewrite elem_of_app, list_elem_of_singleton. intros [H|[= _ H]]; [exact H|].
    congruence.
  - destruct (completeMFASetup_state k' token st) as [-> | (s' & _ & ->)]; auto.
  - rewrite cleanupUserSetups_eq. auto.
  - rewrite verifyToken_state. auto.
  - rewrite resetMFA_state. auto.
Qed.

Lemma advance_keeps_alive k setup deadline t st :
  t < deadline -> alive k setup deadline st ->
  alive k setup deadline (state_of (advance t st)).
Proof.
  intros Ht [Hk Hdue]. split.
  - apply advance_pending. split; [exact Hk|].
    intros due Hin. specialize (Hdue due Hin). lia.
  - intros due Hin. apply advance_timers in Hin as [Hin _]. exact (Hdue due Hin).
Qed.

Lemma step_keeps_alive k setup deadline t c st :
  t < deadline -> leaves_setup (username setup) k c = true ->
  alive k setup deadline st -> alive k setup deadline (state_of (step t c st)).
Proof.
  intros Ht Hc Halive. destruct (step_state t c st) as [-> _].
  destruct (advance_keeps_alive k setup deadline t st Ht Halive) as [Hk Hdue].
  split.
  - apply perform_keeps_present; assumption.
  - intros due Hin. apply Hdue. exact (perform_new_timers c _ _ k due Hc Hin).
Qed.

Lemma generate_alive t0 d user st :
  (forall due, (due, uuid d) ∉ timers st) ->
  alive (uuid d) (mkSetup user (base32 d) t0) (t0 + 1800000)
        (state_of (step t0 (CallGenerate d user) st)).
Proof.
  intros Hfresh. destruct (step_state t0 (CallGenerate d user) st) as [-> _].
  cbn [perform]. rewrite bind_mret_state, generateSecret_state, advance_clock.
  split; cbn [pendingSetups timers].
  - apply lookup_insert_eq.
  - intros due. rewrite elem_of_app, list_elem_of_singleton.
    intros [Hin|[= ->]]; [|lia].
    apply advance_timers in Hin as [Hin _]. exfalso. exact (Hfresh due Hin).
Qed.

End LifetimeFacts.

(** X20: a pending setup stays usable for its thirty minutes.  After
    [generateSecret] at [t0] with a fresh id, and whatever is called
    before [t0] + 30 min that leaves this setup alone (calls for other
    users and other ids, [verifyToken], [resetMFA]), a
    [completeMFASetup] before [t0] + 30 min with a six-digit token that
    the engine accepts for the candidate secret returns success. *)
Theorem X20_setup_usable_until_expiry
    (st : MFA.State) (t0 : Z) (d : MFA.Drawn) (user : string)
    (evs : list (Z * MFA.Call)) (t : Z) (token : string) :
  (forall due, (due, MFA.uuid d) ∉ MFA.timers st) ->
  Forall (fun e => e.1 < t0 + 1800000 /\ leaves_setup user (MFA.uuid d) e.2 = true) evs ->
  t < t0 + 1800000 ->
  String.length (strip_non_digits token) = 6%nat ->
  Speakeasy.totp_verify (MFA.base32 d) (strip_non_digits token) 2 (t / 1000) = Ret true ->
  MFA.result
    (MFA.step t (MFA.CallComplete (MFA.uuid d) token)
       (MFA.run ((t0, MFA.CallGenerate d user) :: evs) st))
  = Ret (MFA.ReplyComplete (MFA.mkResult true None)).
Proof.
  intros Hfresh Hevs Ht Hlen Hv.
  set (setup := MFA.mkSetup user (MFA.base32 d) t0).
  assert (Halive : alive (MFA.uuid d) setup (t0 + 1800000)
                     (MFA.run ((t0, MFA.CallGenerate d user) :: evs) st)).
  { cbn [MFA.run].
    generalize (generate_alive t0 d user st Hfresh). fold setup.
    generalize (MFA.state_of (MFA.step t0 (MFA.CallGenerate d user) st)).
    induction Hevs as [|[t' c] evs [Ht' Hc] _ IH]; intros st' Hst'; [exact Hst'|].
    cbn [MFA.run]. apply IH. apply step_keeps_alive; assumption. }
  destruct (advance_keeps_alive _ _ _ t _ Ht Halive) as [Hk _].
  destruct (step_state t (MFA.CallComplete (MFA.uuid d) token)
              (MFA.run ((t0, MFA.CallGenerate d user) :: evs) st)) as [_ ->].
  cbn [MFA.perform].
  set (st1 := MFA.state_of (MFA.advance t _)) in *.
  pose proof (Heq := completeMFASetup_eq (MFA.uuid d) token st1).
  unfold completeMFASetup_outcome in Heq. rewrite Hk, Hlen in Heq.
  cbn [Nat.eqb negb MFA.secret setup] in Heq.
  assert (Hclock : MFA.clock st1 = t) by apply advance_clock.
  rewrite Hclock, Hv in Heq.
  unfold MFA.result, MFA.state_of in *. unfold mbind, MFA.M_bind.
  destruct (MFA.completeMFASetup (MFA.uuid d) token st1) as [[jr st2] tr2].
  cbn in Heq. injection Heq as -> _. reflexivity.
Qed.

Lemma X20_witness :
  let secret := "GEZDGNBVGY3TQOJQGEZDGNBVGY3TQOJQ" in
  let d1 := MFA.mkDrawn secret "otpauth://totp/bob" "id-1" in
  let d2 := MFA.mkDrawn secret "otpauth://totp/alice" "id-2" in
  let evs := [(1735734060000, MFA.CallGenerate d2 "alice");
              (1735734120000, MFA.CallComplete "id-2" "000000");
              (1735734180000, MFA.CallReset "bob")] in
  MFA.result
    (MFA.step 1735734540000 (MFA.CallComplete "id-1" "127086")
       (MFA.run ((1735734000000, MFA.CallGenerate d1 "bob") :: evs)
          (MFA.mkState ∅ ∅ [] 0)))
  = Ret (MFA.ReplyComplete (MFA.mkResult true None)).
Proof.
  intros secret d1 d2 evs.
  apply (X20_setup_usable_until_expiry (MFA.mkState ∅ ∅ [] 0) 1735734000000 d1 "bob"
           evs 1735734540000 "127086").
  - intros due H. cbn in H. apply elem_of_nil in H. exact H.
  - repeat constructor; cbn; lia.
  - lia.
  - reflexivity.
  - vm_compute. reflexivity.
Defined.
